(** * FIP reader: the declaration resolution pipeline of [fip_reader.py]

    A shallow embedding of the functions of [src/fip_reader.py] that take
    part in resolving a FAIR Implementation Profile:

    - [parse_fip_header]                 (header extractor),
    - [fetch_nanopub]                    (nanopublication fetcher),
    - [extract_declarations_from_index]  (index resolver),
    - [parse_declaration]                (declaration parser),
    - [organize_by_principle] and [organize_by_principle_from_json]
                                         (principle organizers),
    - [read_replies] (the declarations of [read_fip_from_json]) and
      [read_fip_from_file] (the two pipelines).

    Modelling conventions.

    - A Python [str] is a [string]; the pieces of the [str] interface that
      the program uses ([in], [split], [rsplit], [lower], [upper],
      [replace]) are written out in [Module PyStr].  Case mapping is the
      one of the ASCII letters.
    - A Python [dict] with string keys is a [gmap string _]; [None] is the
      [None] of [option].
    - An rdflib graph is taken in iteration order: a list of contexts, each
      with the list of its triples, as the loops
      [for context in g.contexts(): for s, p, o in context:] visit them.
    - The network is a function from a URL to the outcome of
      [requests.get]: a URL is answered the same way all through a run.
      The URLs that were requested are logged in the state of a small
      state monad.
    - Python does not fix the order of [list(set(l))]; [list_set] takes
      one order, and the statements read the list as a whole, whatever
      its order.
    - A JSON export is taken with a text where the program reads a text
      and a list where it iterates; of the other values only null is
      modelled, for the fields of the header.
    - What is printed is the list of the texts of the [print] calls, in
      order; [stdout] is the output they make, and [printed_lines] its
      lines. *)

From stdpp Require Import base option list strings gmap fin_maps.
From Stdlib Require Import Ascii String.

Local Open Scope string_scope.
Local Open Scope list_scope.

(** ** Python strings *)

Module PyStr.

(** [bool(s)] of a string: the empty string is falsy. *)
Definition truthy (s : string) : bool :=
  match s with
  | EmptyString => false
  | String _ _ => true
  end.

(** [s[n:]] *)
Fixpoint drop (n : nat) (s : string) : string :=
  match n, s with
  | O, _ => s
  | S _, EmptyString => EmptyString
  | S k, String _ s' => drop k s'
  end.

(** [s.startswith(p)] *)
Fixpoint startswith (p s : string) : bool :=
  match p, s with
  | EmptyString, _ => true
  | String _ _, EmptyString => false
  | String a p', String b s' => if Ascii.eqb a b then startswith p' s' else false
  end.

(** [sub in s] *)
Fixpoint contains (sub s : string) : bool :=
  startswith sub s ||
  match s with
  | EmptyString => false
  | String _ s' => contains sub s'
  end.

(** The leftmost occurrence of [sep] in [s]: the text before it and the
    text after it ([str.partition]). *)
Fixpoint find_cut (sep s : string) : option (string * string) :=
  if startswith sep s then Some (EmptyString, drop (String.length sep) s)
  else match s with
       | EmptyString => None
       | String c s' =>
           match find_cut sep s' with
           | Some (a, b) => Some (String c a, b)
           | None => None
           end
       end.

(** The rightmost occurrence of [sep] in [s] ([str.rpartition]). *)
Fixpoint rfind_cut (sep s : string) : option (string * string) :=
  match s with
  | EmptyString => None
  | String c s' =>
      match rfind_cut sep s' with
      | Some (a, b) => Some (String c a, b)
      | None =>
          if startswith sep s then Some (EmptyString, drop (String.length sep) s)
          else None
      end
  end.

(** [s.split(sep)] for a non-empty [sep]: cut at the leftmost occurrence
    and go on in the rest.  The rest is shorter than [s], so [length s]
    steps are enough. *)
Fixpoint split_fuel (fuel : nat) (sep s : string) : list string :=
  match find_cut sep s with
  | None => [s]
  | Some (a, b) =>
      a :: match fuel with
           | O => [b]
           | S k => split_fuel k sep b
           end
  end.

Definition split (sep s : string) : list string :=
  split_fuel (String.length s) sep s.

(** [s.rsplit(sep, 1)] for a non-empty [sep] *)
Definition rsplit1 (sep s : string) : list string :=
  match rfind_cut sep s with
  | Some (a, b) => [a; b]
  | None => [s]
  end.

(** [l[-1]] of a list that [split] returned (never empty) *)
Definition last (l : list string) : string := List.last l EmptyString.

(** [l[i]] where the program has checked the length *)
Definition item (l : list string) (i : nat) : string := nth i l EmptyString.

Definition lower_ascii (c : ascii) : ascii :=
  let n := nat_of_ascii c in
  if (65 <=? n)%nat && (n <=? 90)%nat then ascii_of_nat (n + 32) else c.

Definition upper_ascii (c : ascii) : ascii :=
  let n := nat_of_ascii c in
  if (97 <=? n)%nat && (n <=? 122)%nat then ascii_of_nat (n - 32) else c.

Fixpoint map_chars (f : ascii → ascii) (s : string) : string :=
  match s with
  | EmptyString => EmptyString
  | String c s' => String (f c) (map_chars f s')
  end.

(** [s.lower()] and [s.upper()] *)
Definition lower : string → string := map_chars lower_ascii.
Definition upper : string → string := map_chars upper_ascii.

(** [s.replace(old, new)] for one-character [old] and [new] *)
Definition replace (old new : ascii) : string → string :=
  map_chars (λ c, if Ascii.eqb c old then new else c).

End PyStr.

Import PyStr.

(** ** RDF terms and graphs *)

Inductive Term :=
| URIRef (s : string)
| BNode (s : string)
| Literal (s : string).

(** [str(t)] *)
Definition str (t : Term) : string :=
  match t with
  | URIRef s | BNode s | Literal s => s
  end.

(** [isinstance(t, Literal)] *)
Definition is_Literal (t : Term) : bool :=
  match t with
  | Literal _ => true
  | _ => false
  end.

Definition Triple : Type := Term * Term * Term.

Record Context := mkContext {
  identifier : string;
  ctx_triples : list Triple;
}.

Definition ConjunctiveGraph : Type := list Context.

(** The triples that [for context in g.contexts(): for s, p, o in context]
    visits, in the order of the visit. *)
Definition triples (g : ConjunctiveGraph) : list Triple :=
  c ← g; ctx_triples c.

(** ** Static tables *)

Definition principle_keys : list string :=
  ["F1"; "F2"; "F3"; "F4"; "A1"; "A1.1"; "A1.2"; "A2";
   "I1"; "I2"; "I3"; "R1"; "R1.1"; "R1.2"; "R1.3"].

(** [FIP_QUESTIONS], in insertion order; the question text, which no
    function reads, is left out. *)
Definition FIP_QUESTIONS : list (string * (string * string)) :=
  [("FIP-Question-F1-D", ("F1", "Data"));
   ("FIP-Question-F1-MD", ("F1", "Metadata"));
   ("FIP-Question-F2-D", ("F2", "Data"));
   ("FIP-Question-F2-MD", ("F2", "Metadata"));
   ("FIP-Question-F3-D", ("F3", "Data"));
   ("FIP-Question-F3-MD", ("F3", "Metadata"));
   ("FIP-Question-F4-D", ("F4", "Data"));
   ("FIP-Question-F4-MD", ("F4", "Metadata"));
   ("FIP-Question-A1-D", ("A1", "Data"));
   ("FIP-Question-A1-MD", ("A1", "Metadata"));
   ("FIP-Question-A1.1-D", ("A1.1", "Data"));
   ("FIP-Question-A1.1-MD", ("A1.1", "Metadata"));
   ("FIP-Question-A1.2-D", ("A1.2", "Data"));
   ("FIP-Question-A1.2-MD", ("A1.2", "Metadata"));
   ("FIP-Question-A2", ("A2", "Metadata"));
   ("FIP-Question-I1-D", ("I1", "Data"));
   ("FIP-Question-I1-MD", ("I1", "Metadata"));
   ("FIP-Question-I2-D", ("I2", "Data"));
   ("FIP-Question-I2-MD", ("I2", "Metadata"));
   ("FIP-Question-I3-D", ("I3", "Data"));
   ("FIP-Question-I3-MD", ("I3", "Metadata"));
   ("FIP-Question-R1-D", ("R1", "Data"));
   ("FIP-Question-R1-MD", ("R1", "Metadata"));
   ("FIP-Question-R1.1-D", ("R1.1", "Data"));
   ("FIP-Question-R1.1-MD", ("R1.1", "Metadata"));
   ("FIP-Question-R1.2-D", ("R1.2", "Data"));
   ("FIP-Question-R1.2-MD", ("R1.2", "Metadata"));
   ("FIP-Question-R1.3-D", ("R1.3", "Data"));
   ("FIP-Question-R1.3-MD", ("R1.3", "Metadata"))].

(** ** Header extractor *)

(** The values that the [fip_info] dict holds. *)
Inductive PyVal :=
| PNone
| PStr (s : string)
| PList (l : list string).

Definition fip_info_init : gmap string PyVal :=
  <["wizard_source" := PNone]>
  (<["created" := PNone]>
  (<["creators" := PList []]>
  (<["declaration_index" := PNone]>
  (<["declared_by" := PNone]>
  (<["version" := PNone]>
  (<["description" := PNone]>
  (<["label" := PNone]> ∅))))))).

(** [fip_info["creators"].append(x)] *)
Definition creators_append (x : string) (info : gmap string PyVal) : gmap string PyVal :=
  match info !! "creators" with
  | Some (PList l) => <["creators" := PList (l ++ [x])]> info
  | _ => info
  end.

(** [d[k] = v if c] *)
Definition set_if {V} (c : bool) (k : string) (v : V) (d : gmap string V) : gmap string V :=
  if c then <[k := v]> d else d.

(** The body of the loop of [parse_fip_header]. *)
Definition header_step (fip_info : gmap string PyVal) (t : Triple) : gmap string PyVal :=
  let '(s, p, o) := t in
  let p_str := str p in
  let o_str := str o in
  let fip_info := set_if (contains "label" (lower p_str)) "label" (PStr o_str) fip_info in
  let fip_info := set_if (contains "description" (lower p_str)) "description" (PStr o_str) fip_info in
  let fip_info := set_if (contains "version" (lower p_str)) "version" (PStr o_str) fip_info in
  let fip_info := set_if (contains "declared-by" (lower p_str)) "declared_by" (PStr o_str) fip_info in
  let fip_info :=
    set_if (contains "declaration-index" (lower p_str)) "declaration_index" (PStr o_str) fip_info in
  let fip_info :=
    if contains "creator" (lower p_str) && contains "orcid.org" o_str
    then creators_append o_str fip_info else fip_info in
  let fip_info :=
    set_if (contains "created" (lower p_str) && is_Literal o) "created" (PStr o_str) fip_info in
  let fip_info :=
    set_if (contains "wasDerivedFrom" p_str && contains "fip/wizard" o_str)
           "wizard_source" (PStr o_str) fip_info in
  fip_info.

(** [parse_fip_header], from the graph that [g.parse(filepath)] loaded. *)
Definition parse_fip_header (g : ConjunctiveGraph) : gmap string PyVal :=
  foldl header_step fip_info_init (triples g).

(** ** Index resolver *)

Definition index_predicate_uris : list string :=
  ["http://purl.org/nanopub/x/includesElement";
   "http://purl.org/nanopub/x/hasElement";
   "http://purl.org/nanopub/x/includes";
   "https://w3id.org/fair/fip/terms/has-declaration"].

(** [x in l] for a list of strings *)
Definition in_list (x : string) (l : list string) : bool :=
  existsb (String.eqb x) l.

(** The list [declarations] at the end of the loop, before [set]. *)
Definition index_matches (index_graph : ConjunctiveGraph) : list string :=
  foldl (λ declarations '(s, p, o),
           if in_list (str p) index_predicate_uris
           then declarations ++ [str o] else declarations)
        [] (triples index_graph).

(** [list(set(l))]: the elements of the set, in the order of the set. *)
Definition list_set (l : list string) : list string :=
  elements (list_to_set l : gset string).

Definition extract_declarations_from_index (index_graph : ConjunctiveGraph) : list string :=
  list_set (index_matches index_graph).

(** ** Declaration parser *)

Record Declaration := mkDeclaration {
  question : option string;
  question_id : option string;
  resource_label : option string;
  resource_uri : option string;
  resource_type : string;
}.

Definition declaration_init : Declaration :=
  {| question := None; question_id := None; resource_label := None;
     resource_uri := None; resource_type := "current" |}.

Definition set_question (v : string) (d : Declaration) : Declaration :=
  {| question := Some v; question_id := question_id d;
     resource_label := resource_label d; resource_uri := resource_uri d;
     resource_type := resource_type d |}.

Definition set_question_id (v : string) (d : Declaration) : Declaration :=
  {| question := question d; question_id := Some v;
     resource_label := resource_label d; resource_uri := resource_uri d;
     resource_type := resource_type d |}.

Definition set_resource_label (v : string) (d : Declaration) : Declaration :=
  {| question := question d; question_id := question_id d;
     resource_label := Some v; resource_uri := resource_uri d;
     resource_type := resource_type d |}.

(** [declaration["resource_uri"] = u; declaration["resource_type"] = t] *)
Definition set_resource (u t : string) (d : Declaration) : Declaration :=
  {| question := question d; question_id := question_id d;
     resource_label := resource_label d; resource_uri := Some u;
     resource_type := t |}.

(** [fip_predicates] *)
Definition fip_refers_to_question : string :=
  "https://w3id.org/fair/fip/terms/refers-to-question".
Definition fip_declares_current_use_of : string :=
  "https://w3id.org/fair/fip/terms/declares-current-use-of".
Definition fip_declares_planned_use_of : string :=
  "https://w3id.org/fair/fip/terms/declares-planned-use-of".
Definition fip_declares_planned_replacement_of : string :=
  "https://w3id.org/fair/fip/terms/declares-planned-replacement-of".

(** [name in p_str.lower() or p_str == uri] *)
Definition is_predicate (name uri p_str : string) : bool :=
  contains name (lower p_str) || String.eqb p_str uri.

(** The branch under the question test: [question] and [question_id]. *)
Definition question_update (o_str : string) (d : Declaration) : Declaration :=
  let d := set_question o_str d in
  if contains "FIP-Question-" o_str then
    set_question_id (last (split "FIP-Question-" o_str)) d
  else if contains "/F" o_str || contains "/A" o_str
          || contains "/I" o_str || contains "/R" o_str then
    set_question_id (last (split "/" o_str)) d
  else d.

(** The body of the loop of [parse_declaration]: the state is the
    [declaration] dict and the [labels] dict. *)
Definition declaration_step (st : Declaration * gmap string string) (t : Triple)
  : Declaration * gmap string string :=
  let '(declaration, labels) := st in
  let '(s, p, o) := t in
  let p_str := str p in
  let o_str := str o in
  let s_str := str s in
  let labels := set_if (contains "label" (lower p_str)) s_str o_str labels in
  let declaration :=
    if is_predicate "refers-to-question" fip_refers_to_question p_str
    then question_update o_str declaration else declaration in
  let declaration :=
    if is_predicate "declares-current-use-of" fip_declares_current_use_of p_str
    then set_resource o_str "current" declaration else declaration in
  let declaration :=
    if is_predicate "declares-planned-use-of" fip_declares_planned_use_of p_str
    then set_resource o_str "planned" declaration else declaration in
  let declaration :=
    if is_predicate "declares-planned-replacement-of" fip_declares_planned_replacement_of p_str
    then set_resource o_str "replacement" declaration else declaration in
  (declaration, labels).

(** [x.replace("-", " ").replace("_", " ")] *)
Definition spaced (x : string) : string :=
  replace "_" " " (replace "-" " " x).

(** The label of the resource, after the loop. *)
Definition resolve_label (st : Declaration * gmap string string) : Declaration :=
  let '(declaration, labels) := st in
  match resource_uri declaration with
  | Some uri =>
      if truthy uri then
        match labels !! uri with
        | Some l => set_resource_label l declaration
        | None =>
            if contains "#" uri then
              set_resource_label (spaced (last (split "#" uri))) declaration
            else if contains "/" uri then
              let last_part := last (split "/" uri) in
              if truthy last_part then set_resource_label (spaced last_part) declaration
              else declaration
            else declaration
        end
      else declaration
  | None => declaration
  end.

Definition parse_declaration (decl_graph : ConjunctiveGraph) : Declaration :=
  resolve_label (foldl declaration_step (declaration_init, ∅) (triples decl_graph)).

(** ** Principle organizers *)

(** A resource entry: the dict with the keys [label], [uri] and [type]. *)
Record ResourceInfo := mkResourceInfo {
  ri_label : option string;
  ri_uri : option string;
  ri_type : option string;
}.

(** A bucket: the dict with the keys [data] and [metadata]. *)
Record Bucket := mkBucket {
  data : list ResourceInfo;
  metadata : list ResourceInfo;
}.

(** [organized[k]["data"].append(x)] and [organized[k]["metadata"].append(x)] *)
Definition data_append (k : string) (x : ResourceInfo) (organized : gmap string Bucket)
  : gmap string Bucket :=
  match organized !! k with
  | Some b => <[k := {| data := data b ++ [x]; metadata := metadata b |}]> organized
  | None => organized
  end.

Definition metadata_append (k : string) (x : ResourceInfo) (organized : gmap string Bucket)
  : gmap string Bucket :=
  match organized !! k with
  | Some b => <[k := {| data := data b; metadata := metadata b ++ [x] |}]> organized
  | None => organized
  end.

(** The first loop of both organizers. *)
Definition organized_init : gmap string Bucket :=
  foldl (λ organized principle_key,
           <[principle_key := {| data := []; metadata := [] |}]> organized)
        ∅ principle_keys.

(** [principle in organized] *)
Definition has_key {V} (k : string) (d : gmap string V) : bool :=
  match d !! k with
  | Some _ => true
  | None => false
  end.

(** [a or b] where [a] is a string or [None] *)
Definition or_else (a b : option string) : option string :=
  match a with
  | Some s => if truthy s then a else b
  | None => b
  end.

(** The principle and the type that [organize_by_principle] reads off a
    question id. *)
Definition split_question_id (q_id : string) : string * string :=
  if contains "-" q_id then
    let parts := rsplit1 "-" q_id in
    (item parts 0, if (1 <? List.length parts)%nat then item parts 1 else "D")
  else (q_id, "D").

(** The [resource_info] of a declaration.  The keys of a declaration are
    always present, so [decl.get(k, default)] is [decl[k]]. *)
Definition resource_info (decl : Declaration) : ResourceInfo :=
  {| ri_label := or_else (resource_label decl) (resource_uri decl);
     ri_uri := resource_uri decl;
     ri_type := Some (resource_type decl) |}.

(** The body of the second loop of [organize_by_principle]. *)
Definition organize_step (organized : gmap string Bucket) (decl : Declaration)
  : gmap string Bucket :=
  match question_id decl with
  | None => organized
  | Some q_id =>
      if negb (truthy q_id) then organized
      else
        let '(principle, dtype) := split_question_id q_id in
        if has_key principle organized then
          if String.eqb (upper dtype) "MD"
          then metadata_append principle (resource_info decl) organized
          else data_append principle (resource_info decl) organized
        else organized
  end.

Definition organize_by_principle (declarations : list Declaration) : gmap string Bucket :=
  foldl organize_step organized_init declarations.

(** ** The JSON pipeline *)

(** A declaration of the JSON pipeline: a dict of strings; [None] is a
    missing key. *)
Record JsonDeclaration := mkJsonDeclaration {
  j_question_id : option string;
  j_resource_label : option string;
  j_resource_uri : option string;
  j_resource_type : option string;
  j_principle : option string;
  j_data_type : option string;
}.

(** [d.get(k, default)] *)
Definition get_default (v : option string) (default : string) : string :=
  match v with
  | Some s => s
  | None => default
  end.

Definition json_resource_info (decl : JsonDeclaration) : ResourceInfo :=
  {| ri_label := Some (get_default (j_resource_label decl) "Unknown");
     ri_uri := j_resource_uri decl;
     ri_type := Some (get_default (j_resource_type decl) "current") |}.

(** The body of the second loop of [organize_by_principle_from_json]. *)
Definition organize_json_step (organized : gmap string Bucket) (decl : JsonDeclaration)
  : gmap string Bucket :=
  let dtype := lower (get_default (j_data_type decl) "data") in
  match j_principle decl with
  | Some principle =>
      if truthy principle && has_key principle organized then
        if String.eqb dtype "data"
        then data_append principle (json_resource_info decl) organized
        else metadata_append principle (json_resource_info decl) organized
      else organized
  | None => organized
  end.

Definition organize_by_principle_from_json (declarations : list JsonDeclaration)
  : gmap string Bucket :=
  foldl organize_json_step organized_init declarations.

(** An item of an answer and a reply of the export; [None] is a missing
    key. *)
Record Item := mkItem {
  i_label : option string;
  i_name : option string;
  i_id : option string;
  i_uri : option string;
  i_url : option string;
}.

Record Reply := mkReply {
  r_path : option string;
  r_items : list Item;
}.

(** The first key of [FIP_QUESTIONS] that the path contains, case
    folded: its principle and its type. *)
Definition principle_match (question_path : string) : option (string * string) :=
  snd <$> List.find (λ '(q_key, _), contains (lower q_key) (lower question_path))
                    FIP_QUESTIONS.

Definition item_declaration (question_path : string) (pm : string * string) (it : Item)
  : JsonDeclaration :=
  let resource_name :=
    or_else (i_label it) (or_else (i_name it) (Some (get_default (i_id it) "Unknown"))) in
  let resource_uri := or_else (i_uri it) (or_else (i_url it) (Some "")) in
  {| j_question_id := Some question_path;
     j_resource_label := resource_name;
     j_resource_uri := resource_uri;
     j_resource_type := Some "current";
     j_principle := Some (fst pm);
     j_data_type := Some (snd pm) |}.

(** The declarations that [read_fip_from_json] builds from
    [data.get("replies", [])]. *)
Definition read_replies (replies : list Reply) : list JsonDeclaration :=
  reply ← replies;
  let question_path := get_default (r_path reply) "" in
  match principle_match question_path with
  | None => []
  | Some pm => item_declaration question_path pm <$> r_items reply
  end.

(** ** Fetcher and the file pipeline *)

(** The outcome of [requests.get]: an exception or a response. *)
Inductive Response :=
| Raised
| Replied (status_code : Z) (text : string).

(** A computation that requests URLs: the state is the list of the URLs
    requested so far. *)
Definition Net (A : Type) : Type := list string → A * list string.

Definition net_ret {A} (a : A) : Net A := λ log, (a, log).

Definition net_bind {A B} (m : Net A) (k : A → Net B) : Net B :=
  λ log, let '(a, log') := m log in k a log'.

Notation "x <~ m ;; k" := (net_bind m (λ x, k))
  (at level 100, m at next level, right associativity).

(** [[:n]] of a list *)
Definition slice_to {A} (n : nat) (l : list A) : list A := firstn n l.

(** [bool(g)] of a graph: its [__len__] is the number of its triples. *)
Definition graph_truthy (g : ConjunctiveGraph) : bool :=
  match triples g with
  | [] => false
  | _ :: _ => true
  end.

(** [bool(v)] of a value of [fip_info] *)
Definition truthy_val (v : option PyVal) : option string :=
  match v with
  | Some (PStr s) => if truthy s then Some s else None
  | _ => None
  end.

Section Network.

(** What the network answers, and what [g.parse(data=..., format="trig")]
    makes of a body ([None]: it raises). *)
Variable requests_get : string → Response.
Variable parse_trig : string → option ConjunctiveGraph.

Definition get (endpoint : string) : Net Response :=
  λ log, (requests_get endpoint, log ++ [endpoint]).

Definition endpoints (uri format_type : string) : list string :=
  let np_id := last (split "/" uri) in
  [uri +:+ "." +:+ format_type;
   "https://np.petapico.org/" +:+ np_id +:+ "." +:+ format_type;
   "https://server.np.trustyuri.net/" +:+ np_id +:+ "." +:+ format_type;
   "https://w3id.org/np/" +:+ np_id +:+ "." +:+ format_type].

(** The body of the [try]: [Some g] is [return g], [None] is falling
    out of the [if] or into the [except]. *)
Definition attempt (endpoint : string) : Net (option ConjunctiveGraph) :=
  resp <~ get endpoint ;;
  net_ret match resp with
          | Replied status_code text =>
              if (status_code =? 200)%Z then parse_trig text else None
          | Raised => None
          end.

Fixpoint try_endpoints (l : list string) : Net (option ConjunctiveGraph) :=
  match l with
  | [] => net_ret None
  | endpoint :: rest =>
      r <~ attempt endpoint ;;
      match r with
      | Some g => net_ret (Some g)
      | None => try_endpoints rest
      end
  end.

Definition fetch_nanopub (uri format_type : string) : Net (option ConjunctiveGraph) :=
  try_endpoints (endpoints uri format_type).

(** The loop of step 4 of [read_fip_from_file], over [decl_uris[:50]]. *)
Fixpoint fetch_loop (uris : list string) (declarations : list Declaration)
  : Net (list Declaration) :=
  match uris with
  | [] => net_ret declarations
  | decl_uri :: rest =>
      decl_graph <~ fetch_nanopub decl_uri "trig" ;;
      let declarations :=
        match decl_graph with
        | Some g =>
            if graph_truthy g then
              let decl := parse_declaration g in
              if truthy (default "" (question_id decl))
              then declarations ++ [decl] else declarations
            else declarations
        | None => declarations
        end in
      fetch_loop rest declarations
  end.

Definition fetch_declarations (decl_uris : list string) : Net (list Declaration) :=
  fetch_loop (slice_to 50 decl_uris) [].

(** [read_fip_from_file], from the graph of the file: the value it
    returns. *)
Definition read_fip_from_file (header : ConjunctiveGraph) (fetch_remote : bool)
  : Net (gmap string PyVal * list Declaration) :=
  let fip_info := parse_fip_header header in
  match (if fetch_remote then truthy_val (fip_info !! "declaration_index") else None) with
  | Some declaration_index =>
      index_graph <~ fetch_nanopub declaration_index "trig" ;;
      match index_graph with
      | Some g =>
          if graph_truthy g then
            let decl_uris := extract_declarations_from_index g in
            declarations <~ fetch_declarations decl_uris ;;
            net_ret (fip_info, declarations)
          else net_ret (fip_info, [])
      | None => net_ret (fip_info, [])
      end
  | None => net_ret (fip_info, [])
  end.

(** The table that [read_fip_from_file] hands to [print_fip_report]. *)
Definition read_fip_from_file_organized (header : ConjunctiveGraph) (fetch_remote : bool)
  : Net (gmap string Bucket) :=
  r <~ read_fip_from_file header fetch_remote ;;
  net_ret (organize_by_principle (snd r)).

End Network.

(** ** Vocabulary of the statements *)

(** The text after the last occurrence of [sep] in [s] ([s] itself when
    there is none). *)
Definition after_last (sep s : string) : string :=
  match rfind_cut sep s with
  | Some (_, b) => b
  | None => s
  end.

(** [s] is cut at the last occurrence of [sep]: no occurrence of [sep]
    starts to the right of the one between [a] and [b]. *)
Definition cut_at_last (sep s a b : string) : Prop :=
  s = a +:+ sep +:+ b ∧
  ∀ a' b', s = a' +:+ sep +:+ b' → (String.length a' ≤ String.length a)%nat.

(** The fifteen keys, as a set. *)
Definition key_set : gset string := list_to_set principle_keys.

(** The principle that [organize_by_principle] files a declaration under,
    when it has a question id to read. *)
Definition principle_of (decl : Declaration) : option string :=
  match question_id decl with
  | Some q_id => if truthy q_id then Some (fst (split_question_id q_id)) else None
  | None => None
  end.

(** [after] is [before] with [x] appended to the data list, or to the
    metadata list, of the bucket [k], which exists. *)
Definition data_gains (k : string) (x : ResourceInfo) (before after : gmap string Bucket)
  : Prop :=
  ∃ b, before !! k = Some b ∧
       after = <[k := {| data := data b ++ [x]; metadata := metadata b |}]> before.

Definition metadata_gains (k : string) (x : ResourceInfo) (before after : gmap string Bucket)
  : Prop :=
  ∃ b, before !! k = Some b ∧
       after = <[k := {| data := data b; metadata := metadata b ++ [x] |}]> before.

(** The spellings of the type suffix that [dtype.upper() == "MD"] accepts. *)
Definition md_spellings : list string := ["MD"; "Md"; "mD"; "md"].

(** The last path segment starts with one of F, A, I, R. *)
Definition starts_FAIR (seg : string) : bool :=
  startswith "F" seg || startswith "A" seg || startswith "I" seg || startswith "R" seg.

(** The test of [parse_declaration] on an object without the marker. *)
Definition has_slash_FAIR (o_str : string) : bool :=
  contains "/F" o_str || contains "/A" o_str || contains "/I" o_str || contains "/R" o_str.

(** The triple is a question reference that writes [question_id]. *)
Definition sets_question_id (t : Triple) : bool :=
  let '(_, p, o) := t in
  is_predicate "refers-to-question" fip_refers_to_question (str p)
  && (contains "FIP-Question-" (str o) || has_slash_FAIR (str o)).

(** The fields of [fip_info] that hold one value. *)
Definition singular_fields : list string :=
  ["label"; "description"; "version"; "declared_by"; "declaration_index";
   "created"; "wizard_source"].

(** The keys of [fip_info], as a set. *)
Definition field_set : gset string := list_to_set ("creators" :: singular_fields).

(** The test under which the loop body of [parse_fip_header] writes the
    field [k]. *)
Definition field_test (k : string) (t : Triple) : bool :=
  let '(_, p, o) := t in
  if String.eqb k "label" then contains "label" (lower (str p))
  else if String.eqb k "description" then contains "description" (lower (str p))
  else if String.eqb k "version" then contains "version" (lower (str p))
  else if String.eqb k "declared_by" then contains "declared-by" (lower (str p))
  else if String.eqb k "declaration_index" then contains "declaration-index" (lower (str p))
  else if String.eqb k "creators" then
    contains "creator" (lower (str p)) && contains "orcid.org" (str o)
  else if String.eqb k "created" then contains "created" (lower (str p)) && is_Literal o
  else if String.eqb k "wizard_source" then
    contains "wasDerivedFrom" (str p) && contains "fip/wizard" (str o)
  else false.

(** A candidate URL answers with status 200 and a body that parses to
    [g]; a candidate fails: [requests.get] raises, the status is not 200,
    or the parser raises on the body. *)
Definition candidate_returns (requests_get : string → Response)
           (parse_trig : string → option ConjunctiveGraph)
           (endpoint : string) (g : ConjunctiveGraph) : Prop :=
  ∃ text, requests_get endpoint = Replied 200 text ∧ parse_trig text = Some g.

Definition candidate_fails (requests_get : string → Response)
           (parse_trig : string → option ConjunctiveGraph)
           (endpoint : string) : Prop :=
  requests_get endpoint = Raised ∨
  ∃ status_code text,
    requests_get endpoint = Replied status_code text ∧
    (status_code ≠ 200%Z ∨ parse_trig text = None).

(** The declaration that one pass of the loop of [read_fip_from_file]
    adds for the URI [decl_uri], if it adds one: the fetch succeeds, the
    graph is not empty and the parsed declaration has a question id. *)
Definition fetched_declaration (requests_get : string → Response)
           (parse_trig : string → option ConjunctiveGraph)
           (decl_uri : string) : option Declaration :=
  match fst (fetch_nanopub requests_get parse_trig decl_uri "trig" []) with
  | Some g =>
      if graph_truthy g then
        let decl := parse_declaration g in
        if truthy (default "" (question_id decl)) then Some decl else None
      else None
  | None => None
  end.

(** The entries of a bucket, data first. *)
Definition entries (b : Bucket) : list ResourceInfo := data b ++ metadata b.

(** ** A small network, for the examples *)

(** A declaration nanopublication: a question and a resource in use. *)
Definition demo_declaration (q_id resource : string) : ConjunctiveGraph :=
  [mkContext "assertion"
     [(URIRef "https://example.org/decl", URIRef fip_refers_to_question,
       URIRef ("https://w3id.org/fair/fip/terms/FIP-Question-" +:+ q_id));
      (URIRef "https://example.org/decl", URIRef fip_declares_current_use_of,
       URIRef resource)]].

Definition demo_header : ConjunctiveGraph :=
  [mkContext "assertion"
     [(URIRef "https://example.org/fip", URIRef "http://www.w3.org/2000/01/rdf-schema#label",
       Literal "Test FIP");
      (URIRef "https://example.org/fip",
       URIRef "https://w3id.org/fair/fip/terms/declaration-index",
       URIRef "https://w3id.org/np/RAindex")]].

Definition demo_index : ConjunctiveGraph :=
  [mkContext "assertion"
     [(URIRef "https://w3id.org/np/RAindex",
       URIRef "http://purl.org/nanopub/x/includesElement",
       URIRef "https://w3id.org/np/RAone");
      (URIRef "https://w3id.org/np/RAindex",
       URIRef "http://purl.org/nanopub/x/includesElement",
       URIRef "https://w3id.org/np/RAtwo")]].

(** The first candidate of each URI answers; the body is the name of the
    nanopublication. *)
Definition demo_get (url : string) : Response :=
  if String.eqb url "https://w3id.org/np/RAindex.trig" then Replied 200 "index"
  else if String.eqb url "https://w3id.org/np/RAone.trig" then Replied 200 "one"
  else if String.eqb url "https://w3id.org/np/RAtwo.trig" then Replied 200 "two"
  else Replied 404 "".

Definition demo_parse (text : string) : option ConjunctiveGraph :=
  if String.eqb text "index" then Some demo_index
  else if String.eqb text "one" then Some (demo_declaration "F1-D" "https://example.org/ARK")
  else if String.eqb text "two" then Some (demo_declaration "X9-D" "https://example.org/DOI")
  else None.

(** Four mirrors: the first raises, the second answers 404, the third
    and the fourth answer 200. *)
Definition mirror_get (url : string) : Response :=
  if String.eqb url "https://example.org/np/RA123.trig" then Raised
  else if String.eqb url "https://np.petapico.org/RA123.trig" then Replied 404 "not found"
  else if String.eqb url "https://server.np.trustyuri.net/RA123.trig" then Replied 200 "third"
  else Replied 200 "fourth".

Definition mirror_parse (text : string) : option ConjunctiveGraph :=
  if String.eqb text "third" then Some (demo_declaration "F1-D" "https://example.org/ARK")
  else if String.eqb text "fourth" then Some (demo_declaration "F2-D" "https://example.org/DOI")
  else None.

(** Two mirrors answer with status 200: the first with a page that is no
    graph, the second with a graph. *)
Definition page_get (url : string) : Response :=
  if String.eqb url "https://example.org/np/RA123.trig" then Replied 200 "<html>"
  else if String.eqb url "https://np.petapico.org/RA123.trig" then Replied 200 "second"
  else Replied 404 "".

Definition page_parse (text : string) : option ConjunctiveGraph :=
  if String.eqb text "second" then Some (demo_declaration "F2-D" "https://example.org/DOI")
  else None.

(** An index with sixty declarations, none of which can be fetched. *)
Fixpoint tally (n : nat) : string :=
  match n with
  | O => ""
  | S k => String "I" (tally k)
  end.

Definition crowded_index : ConjunctiveGraph :=
  [mkContext "assertion"
     ((λ n, (URIRef "https://w3id.org/np/RAindex",
             URIRef "http://purl.org/nanopub/x/includesElement",
             URIRef ("https://w3id.org/np/RA" +:+ tally n))) <$> seq 1 60)].

Definition crowded_get (url : string) : Response :=
  if String.eqb url "https://w3id.org/np/RAindex.trig" then Replied 200 "index"
  else Replied 404 "".

Definition crowded_parse (text : string) : option ConjunctiveGraph :=
  if String.eqb text "index" then Some crowded_index else None.

(** ** Vocabulary of the further statements *)

(** The declaration goes to the metadata list: its type suffix is "MD". *)
Definition files_as_metadata (decl : Declaration) : bool :=
  match question_id decl with
  | Some q_id => String.eqb (upper (snd (split_question_id q_id))) "MD"
  | None => false
  end.

(** The JSON declaration goes to the data list. *)
Definition json_is_data (decl : JsonDeclaration) : bool :=
  String.eqb (lower (get_default (j_data_type decl) "data")) "data".

(** ** The JSON export *)

(** The export of the FIP Wizard, as [json.load] returns it: a dict.  For
    a key that goes to [fip_info], [None] is a missing key and [Some v] the
    value of a key that is there: null ([PNone]), a text or a list of
    texts.  The replies, when the key is there, are a list. *)
Record JsonExport := mkJsonExport {
  e_name : option PyVal;
  e_description : option PyVal;
  e_version : option PyVal;
  e_creators : option PyVal;
  e_community : option PyVal;
  e_created : option PyVal;
  e_uuid : option PyVal;
  e_replies : option (list Reply);
}.

(** The [fip_info] of [read_fip_from_json]: [data.get(k, default)] is the
    default for a missing key only. *)
Definition json_fip_info (data : JsonExport) : gmap string PyVal :=
  <["wizard_source" := default (PStr "") (e_uuid data)]>
  (<["declaration_index" := PStr ""]>
  (<["created" := default (PStr "") (e_created data)]>
  (<["declared_by" := default (PStr "") (e_community data)]>
  (<["creators" := default (PList []) (e_creators data)]>
  (<["version" := default (PStr "1.0.0") (e_version data)]>
  (<["description" := default (PStr "") (e_description data)]>
  (<["label" := default (PStr "Unknown FIP") (e_name data)]> ∅))))))).

(** [read_fip_from_json], from the document that [json.load] returned. *)
Definition read_fip_from_json (data : JsonExport)
  : gmap string PyVal * list JsonDeclaration :=
  (json_fip_info data, read_replies (default [] (e_replies data))).

(** The keys of [FIP_QUESTIONS]. *)
Definition question_keys : list string := fst <$> FIP_QUESTIONS.

(** The type that the loop body of [parse_declaration] writes together
    with the resource, on a predicate: the one of the last of its three
    resource tests that holds. *)
Definition resource_writer (p_str : string) : option string :=
  if is_predicate "declares-planned-replacement-of" fip_declares_planned_replacement_of p_str
  then Some "replacement"
  else if is_predicate "declares-planned-use-of" fip_declares_planned_use_of p_str
  then Some "planned"
  else if is_predicate "declares-current-use-of" fip_declares_current_use_of p_str
  then Some "current"
  else None.

(** The triple gives a label to the subject [uri]. *)
Definition labels_subject (uri : string) (t : Triple) : bool :=
  let '(s, p, _) := t in
  String.eqb (str s) uri && contains "label" (lower (str p)).

(** ** The command line *)

(** [s.endswith(suffix)] *)
Definition endswith (suffix s : string) : bool :=
  (String.length suffix <=? String.length s)%nat
  && String.eqb (drop (String.length s - String.length suffix) s) suffix.

(** What the script does with its arguments. *)
Inductive Action :=
| PrintUsage                                  (* usage text, exit code 1 *)
| FileNotFound (filepath : string)            (* error text, exit code 1 *)
| RunJson (filepath : string)                 (* [read_fip_from_json] and the report *)
| RunFetch (filepath : string) (debug : bool) (* [read_fip_from_file] *)
| RunLocal (filepath : string).               (* [read_fip_local_only] *)

(** The block under [if __name__ == "__main__"], from [sys.argv] and the
    files that exist. *)
Definition main (argv : list string) (file_exists : string → bool) : Action :=
  if (List.length argv <? 2)%nat then PrintUsage
  else
    let filepath := nth 1 argv "" in
    let fetch_remote := in_list "--fetch" argv in
    let debug_mode := in_list "--debug" argv in
    if negb (file_exists filepath) then FileNotFound filepath
    else if endswith ".json" filepath then RunJson filepath
    else if fetch_remote then RunFetch filepath debug_mode
    else RunLocal filepath.

(** ** The reports *)

(** [FAIR_PRINCIPLES], in insertion order. *)
Definition FAIR_PRINCIPLES : list (string * string) :=
  [("F1", "F1 - Globally unique and persistent identifiers");
   ("F2", "F2 - Data described with rich metadata");
   ("F3", "F3 - Metadata include identifier of data");
   ("F4", "F4 - Metadata registered in searchable resource");
   ("A1", "A1 - Retrievable by identifier using standard protocol");
   ("A1.1", "A1.1 - Protocol is open, free, universally implementable");
   ("A1.2", "A1.2 - Protocol allows authentication/authorization");
   ("A2", "A2 - Metadata accessible even when data unavailable");
   ("I1", "I1 - Knowledge representation language used");
   ("I2", "I2 - FAIR vocabularies used");
   ("I3", "I3 - Qualified references to other data");
   ("R1", "R1 - Richly described with accurate attributes");
   ("R1.1", "R1.1 - Clear and accessible data usage license");
   ("R1.2", "R1.2 - Detailed provenance");
   ("R1.3", "R1.3 - Meet domain-relevant community standards")].

(** The line feed. *)
Definition nl : string := String "010"%char "".

(** [s * n] *)
Fixpoint times (s : string) (n : nat) : string :=
  match n with
  | O => ""
  | S k => s +:+ times s k
  end.

(** [f"{v}"] of a string or [None] *)
Definition format_opt (v : option string) : string :=
  match v with
  | Some s => s
  | None => "None"
  end.

(** The two [print] calls for one resource. *)
Definition print_resource (res : ResourceInfo) : list string :=
  let status :=
    if bool_decide (ri_type res = Some "planned") then " (planned)" else "" in
  ("      • " +:+ format_opt (ri_label res) +:+ status)
  :: (if truthy (default "" (ri_uri res))
      then ["        URI: " +:+ format_opt (ri_uri res)] else []).

(** [bool(l)] of a list *)
Definition nonempty {A} (l : list A) : bool :=
  match l with
  | [] => false
  | _ :: _ => true
  end.

(** The body of the loop over [FAIR_PRINCIPLES]: what is printed for one
    principle. *)
Definition print_principle (principle_name : string) (resources : Bucket)
  : list string :=
  if nonempty (data resources) || nonempty (metadata resources) then
    [""; nl +:+ "📋 " +:+ principle_name; "   " +:+ times "-" 60]
    ++ (if nonempty (data resources)
        then "   📊 For DATA:" :: (res ← data resources; print_resource res)
        else [])
    ++ (if nonempty (metadata resources)
        then "   📝 For METADATA:" :: (res ← metadata resources; print_resource res)
        else [])
  else [].

Section Report.

(** [str(l)] of a list of strings and [', '.join(s)] of a string: what
    Python prints for a list where a text is expected, and how it joins
    the characters of a text where a list is expected.  Neither pipeline
    builds such a [fip_info]. *)
Variable repr_list : list string → string.
Variable join_chars : string → string.

(** [f"{v}"] *)
Definition format_val (v : PyVal) : string :=
  match v with
  | PNone => "None"
  | PStr s => s
  | PList l => repr_list l
  end.

(** [f"{fip_info.get(k, default)}"] *)
Definition format_get (fip_info : gmap string PyVal) (k default : string) : string :=
  match fip_info !! k with
  | Some v => format_val v
  | None => default
  end.

(** [bool(fip_info.get(k))] *)
Definition get_truthy (fip_info : gmap string PyVal) (k : string) : bool :=
  match fip_info !! k with
  | Some (PStr s) => truthy s
  | Some (PList l) => nonempty l
  | _ => false
  end.

(** [', '.join(v)]; [None] does not come here, it is falsy. *)
Definition join_val (v : option PyVal) : string :=
  match v with
  | Some (PList l) => String.concat ", " l
  | Some (PStr s) => join_chars s
  | _ => ""
  end.

(** [print(f"{label}{fip_info[k]}") if fip_info.get(k)] *)
Definition print_if (fip_info : gmap string PyVal) (k label : string) : list string :=
  if get_truthy fip_info k then [label +:+ format_get fip_info k ""] else [].

(** [print_fip_report]: the texts of its [print] calls, in order. *)
Definition print_fip_report (fip_info : gmap string PyVal) (organized : gmap string Bucket)
  : list string :=
  [times "=" 80;
   "FAIR IMPLEMENTATION PROFILE: " +:+ format_get fip_info "label" "Unknown";
   times "=" 80;
   ""]
  ++ print_if fip_info "description" "Description: "
  ++ print_if fip_info "version" "Version: "
  ++ (if get_truthy fip_info "creators"
      then ["Creators: " +:+ join_val (fip_info !! "creators")] else [])
  ++ print_if fip_info "declared_by" "Declared by: "
  ++ [""; times "-" 80; "FAIR-ENABLING RESOURCES BY PRINCIPLE"; times "-" 80]
  ++ ('(principle_key, principle_name) ← FAIR_PRINCIPLES;
      print_principle principle_name
        (default {| data := []; metadata := [] |} (organized !! principle_key)))
  ++ [""; times "=" 80].

(** [read_fip_local_only], from the path and the graph of the file: the
    texts of its [print] calls, and the value it returns. *)
Definition read_fip_local_only (filepath : string) (g : ConjunctiveGraph)
  : list string * gmap string PyVal :=
  let fip_info := parse_fip_header g in
  let creators :=
    match fip_info !! "creators" with
    | Some v => join_val (Some v)
    | None => String.concat ", " ["N/A"]
    end in
  ([nl +:+ "🔍 Reading FIP header from: " +:+ filepath;
    times "-" 40;
    "";
    times "=" 80;
    "FAIR IMPLEMENTATION PROFILE: " +:+ format_get fip_info "label" "Unknown";
    times "=" 80;
    "";
    "📋 Description: " +:+ format_get fip_info "description" "N/A";
    "📌 Version: " +:+ format_get fip_info "version" "N/A";
    "👥 Creators: " +:+ (if truthy creators then creators else "N/A");
    "🏢 Declared by: " +:+ format_get fip_info "declared_by" "N/A";
    "📅 Created: " +:+ format_get fip_info "created" "N/A";
    "🔗 Declaration Index: " +:+ format_get fip_info "declaration_index" "N/A";
    "🧙 FIP Wizard Source: " +:+ format_get fip_info "wizard_source" "N/A";
    "";
    times "=" 80;
    "";
    "ℹ️  To fetch full declarations from the network, use:";
    "   python fip_reader.py " +:+ filepath +:+ " --fetch";
    ""],
   fip_info).

End Report.

(** ** Vocabulary of the statements on the reports *)

(** The heading of a principle in the report. *)
Definition heading (principle_name : string) : string :=
  nl +:+ "📋 " +:+ principle_name.

(** What a sequence of [print] calls writes: each text and a line feed. *)
Fixpoint stdout (calls : list string) : string :=
  match calls with
  | [] => ""
  | text :: rest => text +:+ nl +:+ stdout rest
  end.

(** The lines of what is printed: the output, cut at the line feeds. *)
Definition printed_lines (calls : list string) : list string :=
  split nl (stdout calls).

(** The line of the heading of a principle. *)
Definition heading_line (principle_name : string) : string :=
  "📋 " +:+ principle_name.

(** The texts that [print_fip_report] takes from its arguments: the
    fields of the header that it prints, and the label and the URI of
    every resource of the buckets that it visits. *)
Definition report_texts (repr_list : list string → string) (join_chars : string → string)
           (fip_info : gmap string PyVal) (organized : gmap string Bucket) : list string :=
  [format_get repr_list fip_info "label" "Unknown";
   format_get repr_list fip_info "description" "";
   format_get repr_list fip_info "version" "";
   join_val join_chars (fip_info !! "creators");
   format_get repr_list fip_info "declared_by" ""]
  ++ ('(principle_key, _) ← FAIR_PRINCIPLES;
      res ← entries (default {| data := []; metadata := [] |} (organized !! principle_key));
      [format_opt (ri_label res); format_opt (ri_uri res)]).

(** A declaration of a planned replacement, read as one of current use. *)
Definition as_current (decl : Declaration) : Declaration :=
  if String.eqb (resource_type decl) "replacement"
  then {| question := question decl; question_id := question_id decl;
          resource_label := resource_label decl; resource_uri := resource_uri decl;
          resource_type := "current" |}
  else decl.

(** The scalar fields that [read_fip_local_only] prints, with the text
    before each. *)
Definition local_labels : list (string * string) :=
  [("description", "📋 Description: ");
   ("version", "📌 Version: ");
   ("declared_by", "🏢 Declared by: ");
   ("created", "📅 Created: ");
   ("declaration_index", "🔗 Declaration Index: ");
   ("wizard_source", "🧙 FIP Wizard Source: ")].

(** The text before the creators in [read_fip_local_only]. *)
Definition creators_label : string := "👥 Creators: ".

(** A field of the header as it is printed: the text, or "None". *)
Definition shown (v : option PyVal) : string :=
  match v with
  | Some (PStr x) => x
  | _ => "None"
  end.

(** * Properties *)

(** ** Facts about the string operations *)

#[local] Arguments String.append !_ _ : simpl nomatch.

Module PyStrFacts.

Lemma append_assoc (a b c : string) : (a +:+ b) +:+ c = a +:+ (b +:+ c).
Proof. induction a as [|x a IH]; simpl; [done | by rewrite IH]. Qed.

Lemma append_nil_r (a : string) : a +:+ "" = a.
Proof. induction a as [|x a IH]; simpl; [done | by rewrite IH]. Qed.

Lemma length_append (a b : string) :
  String.length (a +:+ b) = (String.length a + String.length b)%nat.
Proof. induction a as [|x a IH]; simpl; [done | by rewrite IH]. Qed.

Lemma drop_append (a b : string) : drop (String.length a) (a +:+ b) = b.
Proof. induction a as [|x a IH]; simpl; [by destruct b | done]. Qed.

Lemma append_inj_l (a b c : string) : a +:+ b = a +:+ c → b = c.
Proof. induction a as [|x a IH]; simpl; [done | intros [= H]; auto]. Qed.

(** Two ways to cut one string, at prefixes of equal length, agree. *)
Lemma append_eq_length (a a' b b' : string) :
  a +:+ b = a' +:+ b' → String.length a = String.length a' → a = a' ∧ b = b'.
Proof.
  revert a'. induction a as [|x a IH]; intros [|y a']; simpl; try done.
  intros [= -> H] [= Hl]. destruct (IH _ H Hl) as [-> ->]. done.
Qed.

Lemma startswith_append (p r : string) : startswith p (p +:+ r) = true.
Proof. induction p as [|x p IH]; simpl; [done | by rewrite Ascii.eqb_refl]. Qed.

Lemma startswith_inv (p s : string) :
  startswith p s = true → s = p +:+ drop (String.length p) s.
Proof.
  revert s. induction p as [|x p IH]; intros [|y s]; simpl; try done.
  destruct (Ascii.eqb x y) eqn:E; [|done].
  apply Ascii.eqb_eq in E as ->. intros H. f_equal. auto.
Qed.

Lemma startswith_spec (p s : string) :
  startswith p s = true ↔ ∃ r, s = p +:+ r.
Proof.
  split.
  - intros H. eexists. by apply startswith_inv.
  - intros [r ->]. apply startswith_append.
Qed.

Lemma contains_unfold (sub s : string) :
  contains sub s =
  startswith sub s || match s with
                      | EmptyString => false
                      | String _ s' => contains sub s'
                      end.
Proof. by destruct s. Qed.

(** [sub in s] holds exactly when [s] is [a + sub + b]. *)
Lemma contains_spec (sub s : string) :
  contains sub s = true ↔ ∃ a b, s = a +:+ sub +:+ b.
Proof.
  split.
  - induction s as [|c s IH]; simpl.
    + rewrite orb_false_r. intros H%startswith_inv. by exists "", (drop (String.length sub) "").
    + intros [H|H]%orb_true_iff.
      * apply startswith_inv in H. by exists "", (drop (String.length sub) (String c s)).
      * destruct (IH H) as (a & b & ->). by exists (String c a), b.
  - intros (a & b & ->). induction a as [|c a IH].
    + simpl. rewrite contains_unfold, startswith_append. done.
    + simpl. rewrite IH. apply orb_true_r.
Qed.

Lemma contains_append_r (sub a s : string) :
  contains sub s = true → contains sub (a +:+ s) = true.
Proof.
  intros (x & y & ->)%contains_spec. apply contains_spec.
  exists (a +:+ x), y. by rewrite append_assoc.
Qed.

Lemma map_chars_append (f : ascii → ascii) (a b : string) :
  map_chars f (a +:+ b) = map_chars f a +:+ map_chars f b.
Proof. induction a as [|x a IH]; simpl; [done | by rewrite IH]. Qed.

(** A text that holds a lower-case name holds it after [lower()] too. *)
Lemma contains_lower (name s : string) :
  lower name = name → contains name s = true → contains name (lower s) = true.
Proof.
  intros Hn (a & b & ->)%contains_spec. apply contains_spec.
  exists (lower a), (lower b). unfold lower in *.
  by rewrite !map_chars_append, Hn.
Qed.

Lemma find_cut_Some (sep s a b : string) :
  find_cut sep s = Some (a, b) →
  s = a +:+ sep +:+ b ∧ contains sep s = true.
Proof.
  revert a. induction s as [|c s IH]; intros a; simpl.
  - destruct (startswith sep "") eqn:E; [|done].
    intros [= <- <-]. rewrite orb_false_r. split; [by apply startswith_inv | done].
  - destruct (startswith sep (String c s)) eqn:E.
    + intros [= <- <-]. split; [by apply startswith_inv | done].
    + destruct (find_cut sep s) as [[a' b']|] eqn:F; [|done].
      intros [= <- <-]. destruct (IH _ eq_refl) as [-> H].
      split; [done | by rewrite H].
Qed.

Lemma find_cut_None (sep s : string) :
  find_cut sep s = None → contains sep s = false.
Proof.
  induction s as [|c s IH]; simpl.
  - by destruct (startswith sep "").
  - destruct (startswith sep (String c s)); [done|].
    destruct (find_cut sep s) as [[a' b']|]; [done|]. auto.
Qed.

Lemma find_cut_shorter (c : ascii) (rest s a b : string) :
  find_cut (String c rest) s = Some (a, b) → (String.length b < String.length s)%nat.
Proof.
  intros [-> _]%find_cut_Some. rewrite !length_append. simpl. lia.
Qed.

(** The fuel of [split] is enough. *)
Lemma split_fuel_enough (c : ascii) (rest : string) (n m : nat) (s : string) :
  (String.length s ≤ n)%nat → (String.length s ≤ m)%nat →
  split_fuel n (String c rest) s = split_fuel m (String c rest) s.
Proof.
  revert m s. induction n as [|n IH]; intros m s Hn Hm.
  - destruct s; [|simpl in Hn; lia].
    destruct m; simpl; done.
  - destruct m as [|m].
    + destruct s; [|simpl in Hm; lia]. done.
    + simpl. destruct (find_cut (String c rest) s) as [[a b]|] eqn:F; [|done].
      apply find_cut_shorter in F. f_equal. apply IH; lia.
Qed.

(** [split] cuts at the leftmost separator and goes on in the rest. *)
Lemma split_unfold (c : ascii) (rest s : string) :
  split (String c rest) s =
  match find_cut (String c rest) s with
  | None => [s]
  | Some (a, b) => a :: split (String c rest) b
  end.
Proof.
  unfold split. destruct s as [|x s].
  - simpl. done.
  - cbn [String.length split_fuel].
    destruct (find_cut (String c rest) (String x s)) as [[a b]|] eqn:F; [|done].
    apply find_cut_shorter in F. f_equal. apply split_fuel_enough; simpl in *; lia.
Qed.

Lemma split_not_nil (c : ascii) (rest s : string) : split (String c rest) s ≠ [].
Proof.
  rewrite split_unfold. by destruct (find_cut (String c rest) s) as [[a b]|].
Qed.

Lemma rfind_cut_None (c : ascii) (rest s : string) :
  rfind_cut (String c rest) s = None ↔ contains (String c rest) s = false.
Proof.
  induction s as [|x s IH]; [done|].
  cbn [rfind_cut]. rewrite contains_unfold.
  destruct (rfind_cut (String c rest) s) as [[a b]|].
  - split; [done|]. intros [_ H]%orb_false_iff. by apply IH in H.
  - destruct IH as [IH _]. rewrite (IH eq_refl), orb_false_r.
    by destruct (startswith (String c rest) (String x s)).
Qed.

(** [rfind_cut] cuts at an occurrence of the separator, and no
    occurrence starts further to the right. *)
Lemma rfind_cut_Some (c : ascii) (rest s a b : string) :
  rfind_cut (String c rest) s = Some (a, b) →
  s = a +:+ String c rest +:+ b ∧
  ∀ a' b', s = a' +:+ String c rest +:+ b' → (String.length a' ≤ String.length a)%nat.
Proof.
  revert a. induction s as [|x s IH]; intros a; [done|].
  cbn [rfind_cut].
  destruct (rfind_cut (String c rest) s) as [[a0 b0]|] eqn:F.
  - intros [= <- <-]. destruct (IH _ eq_refl) as [E Hmax]. split.
    + simpl. f_equal. exact E.
    + intros [|y a'] b'; simpl; [lia|]. intros [= _ H]. apply Hmax in H. lia.
  - destruct (startswith (String c rest) (String x s)) eqn:P; [|done].
    intros [= <- <-]. split; [by apply startswith_inv in P|].
    intros [|y a'] b'; simpl; [lia|]. intros [= _ H].
    apply rfind_cut_None in F.
    assert (contains (String c rest) s = true) by (apply contains_spec; eauto).
    congruence.
Qed.

(** After the last separator there is no separator. *)
Lemma rfind_cut_tail (c : ascii) (rest s a b : string) :
  rfind_cut (String c rest) s = Some (a, b) → contains (String c rest) b = false.
Proof.
  intros [-> Hmax]%rfind_cut_Some.
  destruct (contains (String c rest) b) eqn:E; [|done].
  apply contains_spec in E as (x & y & ->).
  specialize (Hmax (a +:+ String c rest +:+ x) y).
  rewrite !append_assoc in Hmax. specialize (Hmax eq_refl).
  rewrite !length_append in Hmax. simpl in Hmax. lia.
Qed.

Lemma rfind_cut_append (sep x y p q : string) :
  rfind_cut sep y = Some (p, q) → rfind_cut sep (x +:+ y) = Some (x +:+ p, q).
Proof.
  intros H. induction x as [|c x IH]; [done|].
  simpl. by rewrite IH.
Qed.

(** A separator whose first character does not come back in it cannot
    overlap itself: nothing starts inside an occurrence. *)
Lemma rfind_cut_inside (c : ascii) (rest r b : string) :
  contains (String c "") r = false →
  rfind_cut (String c rest) b = None →
  rfind_cut (String c rest) (r +:+ b) = None.
Proof.
  intros Hr Hb. induction r as [|y r IH]; [done|].
  rewrite contains_unfold in Hr. apply orb_false_iff in Hr as [Hy Hr].
  simpl. rewrite (IH Hr). simpl in Hy.
  destruct (Ascii.eqb c y); [by destruct r | done].
Qed.

Lemma rfind_cut_first (c : ascii) (rest b : string) :
  contains (String c "") rest = false →
  rfind_cut (String c rest) b = None →
  rfind_cut (String c rest) (String c rest +:+ b) = Some ("", b).
Proof.
  intros Hr Hb. simpl. rewrite (rfind_cut_inside _ _ _ _ Hr Hb).
  rewrite Ascii.eqb_refl, startswith_append. by rewrite drop_append.
Qed.

Lemma last_cons (x : string) (l : list string) : l ≠ [] → last (x :: l) = last l.
Proof. by destruct l. Qed.

(** [s.split(sep)[-1]] is the text after the last [sep], for a
    separator whose first character does not come back in it. *)
Lemma last_split (c : ascii) (rest s : string) :
  contains (String c "") rest = false →
  last (split (String c rest) s) = after_last (String c rest) s.
Proof.
  intros Hr. unfold after_last.
  remember (String.length s) as n eqn:Hn.
  revert s Hn. induction (lt_wf n) as [n _ IH]. intros s ->.
  rewrite split_unfold.
  destruct (find_cut (String c rest) s) as [[a b]|] eqn:F.
  - pose proof (find_cut_shorter _ _ _ _ _ F) as Hlt.
    apply find_cut_Some in F as [-> _].
    rewrite last_cons by apply split_not_nil.
    rewrite (IH _ Hlt b eq_refl).
    destruct (rfind_cut (String c rest) b) as [[p q]|] eqn:R.
    + by rewrite (rfind_cut_append _ a _ _ _
                    (rfind_cut_append _ (String c rest) _ _ _ R)).
    + by rewrite (rfind_cut_append _ a _ _ _ (rfind_cut_first _ _ _ Hr R)).
  - apply find_cut_None, rfind_cut_None in F. by rewrite F.
Qed.

End PyStrFacts.

(** ** Facts about the organizers *)

Module OrganizerFacts.

Lemma organized_init_dom : dom organized_init = key_set.
Proof.
  unfold organized_init, key_set, principle_keys. simpl.
  rewrite !dom_insert_L, dom_empty_L. set_solver.
Qed.

Lemma elem_of_key_set (k : string) : k ∈ key_set ↔ k ∈ principle_keys.
Proof. unfold key_set. apply elem_of_list_to_set. Qed.

Lemma has_key_true {V} (k : string) (m : gmap string V) :
  has_key k m = true ↔ k ∈ dom m.
Proof.
  unfold has_key. rewrite elem_of_dom.
  destruct (m !! k); split; try done; by intros [? ?].
Qed.

Lemma dom_insert_present {V} (k : string) (v w : V) (m : gmap string V) :
  m !! k = Some v → dom (<[k := w]> m) = dom m.
Proof.
  intros H. apply dom_insert_lookup_L. by exists v.
Qed.

Lemma data_append_dom (k : string) (x : ResourceInfo) (m : gmap string Bucket) :
  dom (data_append k x m) = dom m.
Proof.
  unfold data_append. destruct (m !! k) eqn:E; [|done].
  by eapply dom_insert_present.
Qed.

Lemma metadata_append_dom (k : string) (x : ResourceInfo) (m : gmap string Bucket) :
  dom (metadata_append k x m) = dom m.
Proof.
  unfold metadata_append. destruct (m !! k) eqn:E; [|done].
  by eapply dom_insert_present.
Qed.

Lemma organize_step_dom (m : gmap string Bucket) (d : Declaration) :
  dom (organize_step m d) = dom m.
Proof.
  unfold organize_step. destruct (question_id d) as [q|]; [|done].
  destruct (negb (truthy q)); [done|].
  destruct (split_question_id q) as [principle dtype].
  destruct (has_key principle m); [|done].
  destruct (String.eqb (upper dtype) "MD");
    [apply metadata_append_dom | apply data_append_dom].
Qed.

Lemma organize_json_step_dom (m : gmap string Bucket) (d : JsonDeclaration) :
  dom (organize_json_step m d) = dom m.
Proof.
  unfold organize_json_step. destruct (j_principle d) as [p|]; [|done].
  destruct (truthy p && has_key p m); [|done].
  destruct (String.eqb _ "data");
    [apply data_append_dom | apply metadata_append_dom].
Qed.

Lemma foldl_organize_dom (ds : list Declaration) (m : gmap string Bucket) :
  dom (foldl organize_step m ds) = dom m.
Proof.
  revert m. induction ds as [|d ds IH]; intros m; simpl; [done|].
  by rewrite IH, organize_step_dom.
Qed.

Lemma foldl_organize_json_dom (ds : list JsonDeclaration) (m : gmap string Bucket) :
  dom (foldl organize_json_step m ds) = dom m.
Proof.
  revert m. induction ds as [|d ds IH]; intros m; simpl; [done|].
  by rewrite IH, organize_json_step_dom.
Qed.

Lemma organize_dom (ds : list Declaration) : dom (organize_by_principle ds) = key_set.
Proof. unfold organize_by_principle. by rewrite foldl_organize_dom, organized_init_dom. Qed.

Lemma organize_json_dom (ds : list JsonDeclaration) :
  dom (organize_by_principle_from_json ds) = key_set.
Proof.
  unfold organize_by_principle_from_json.
  by rewrite foldl_organize_json_dom, organized_init_dom.
Qed.

(** The organizer, one declaration later. *)
Lemma organize_snoc (ds : list Declaration) (d : Declaration) :
  organize_by_principle (ds ++ [d]) = organize_step (organize_by_principle ds) d.
Proof. unfold organize_by_principle. by rewrite foldl_app. Qed.


(** A declaration that the step passes over can be taken out of the
    list. *)
Lemma organize_skip (pre post : list Declaration) (d : Declaration) :
  organize_step (organize_by_principle pre) d = organize_by_principle pre →
  organize_by_principle (pre ++ d :: post) = organize_by_principle (pre ++ post).
Proof.
  unfold organize_by_principle. intros H. rewrite !foldl_app. simpl. by rewrite H.
Qed.

Lemma organize_json_skip (pre post : list JsonDeclaration) (d : JsonDeclaration) :
  organize_json_step (organize_by_principle_from_json pre) d =
    organize_by_principle_from_json pre →
  organize_by_principle_from_json (pre ++ d :: post) =
    organize_by_principle_from_json (pre ++ post).
Proof.
  unfold organize_by_principle_from_json. intros H. rewrite !foldl_app. simpl.
  by rewrite H.
Qed.

Lemma has_key_organize (ds : list Declaration) (k : string) :
  has_key k (organize_by_principle ds) = true ↔ k ∈ principle_keys.
Proof. by rewrite has_key_true, organize_dom, elem_of_key_set. Qed.


Lemma data_append_gains (k : string) (x : ResourceInfo) (m : gmap string Bucket) :
  has_key k m = true → data_gains k x m (data_append k x m).
Proof.
  unfold has_key, data_gains, data_append. destruct (m !! k) as [b|]; [|done].
  intros _. by exists b.
Qed.

Lemma metadata_append_gains (k : string) (x : ResourceInfo) (m : gmap string Bucket) :
  has_key k m = true → metadata_gains k x m (metadata_append k x m).
Proof.
  unfold has_key, metadata_gains, metadata_append. destruct (m !! k) as [b|]; [|done].
  intros _. by exists b.
Qed.

(** What [rsplit("-", 1)] gives on an id with a dash. *)
Lemma split_question_id_dash (q_id : string) :
  contains "-" q_id = true →
  ∃ principle dtype,
    split_question_id q_id = (principle, dtype) ∧
    cut_at_last "-" q_id principle dtype ∧
    contains "-" dtype = false.
Proof.
  intros H. unfold split_question_id, rsplit1. rewrite H.
  destruct (rfind_cut "-" q_id) as [[a b]|] eqn:R.
  - exists a, b. split; [done|]. split.
    + by apply PyStrFacts.rfind_cut_Some.
    + by eapply PyStrFacts.rfind_cut_tail.
  - apply PyStrFacts.rfind_cut_None in R. congruence.
Qed.


Lemma truthy_contains (sub s : string) :
  truthy sub = true → contains sub s = true → truthy s = true.
Proof. destruct s; [|done]. by destruct sub. Qed.

Lemma upper_ascii_M (c : ascii) : upper_ascii c = "M"%char ↔ c = "M"%char ∨ c = "m"%char.
Proof.
  split; [|by intros [-> | ->]].
  destruct c as [[] [] [] [] [] [] [] []]; vm_compute; intros H;
    first [discriminate H | by left | by right].
Qed.

Lemma upper_ascii_D (c : ascii) : upper_ascii c = "D"%char ↔ c = "D"%char ∨ c = "d"%char.
Proof.
  split; [|by intros [-> | ->]].
  destruct c as [[] [] [] [] [] [] [] []]; vm_compute; intros H;
    first [discriminate H | by left | by right].
Qed.

(** [dtype.upper() == "MD"] is the test for the four spellings. *)
Lemma upper_MD (dtype : string) :
  String.eqb (upper dtype) "MD" = true ↔ dtype ∈ md_spellings.
Proof.
  rewrite String.eqb_eq. unfold md_spellings. split.
  - destruct dtype as [|c1 [|c2 [|c3 t]]]; simpl; try done.
    intros [= H1 H2]. apply upper_ascii_M in H1. apply upper_ascii_D in H2.
    destruct H1 as [-> | ->], H2 as [-> | ->]; set_solver.
  - rewrite !elem_of_cons, elem_of_nil. by intros [->|[->|[->|[->|[]]]]].
Qed.

Lemma upper_not_MD (dtype : string) :
  String.eqb (upper dtype) "MD" = false ↔ dtype ∉ md_spellings.
Proof.
  rewrite <-upper_MD. by destruct (String.eqb (upper dtype) "MD").
Qed.

Lemma keys_truthy (k : string) : k ∈ principle_keys → truthy k = true.
Proof.
  unfold principle_keys. rewrite !elem_of_cons, elem_of_nil.
  intros H. repeat (destruct H as [-> | H]; [done|]). done.
Qed.

End OrganizerFacts.

(** ** The principle organizer *)

Section Organizer.

Import OrganizerFacts.

(** The step on a declaration whose id has a dash. *)
Lemma organize_step_dash (m : gmap string Bucket) (d : Declaration)
      (q_id principle dtype : string) :
  question_id d = Some q_id →
  contains "-" q_id = true →
  split_question_id q_id = (principle, dtype) →
  organize_step m d =
    if has_key principle m then
      if String.eqb (upper dtype) "MD"
      then metadata_append principle (resource_info d) m
      else data_append principle (resource_info d) m
    else m.
Proof.
  intros Hq Hdash Hsplit. unfold organize_step. rewrite Hq.
  rewrite (truthy_contains "-" q_id eq_refl Hdash). simpl. by rewrite Hsplit.
Qed.


(** A declaration without a principle among the keys leaves the table
    as it is. *)
Lemma organize_step_unknown (m : gmap string Bucket) (d : Declaration) :
  dom m = key_set →
  (∀ p, principle_of d = Some p → p ∉ principle_keys) →
  organize_step m d = m.
Proof.
  intros Hdom Hp. unfold organize_step, principle_of in *.
  destruct (question_id d) as [q|]; [|done].
  destruct (truthy q); simpl; [|done].
  destruct (split_question_id q) as [principle dtype]. simpl in Hp.
  destruct (has_key principle m) eqn:K; [|done].
  apply has_key_true in K. rewrite Hdom, elem_of_key_set in K.
  by destruct (Hp _ eq_refl).
Qed.

Lemma organize_json_step_unknown (m : gmap string Bucket) (d : JsonDeclaration) :
  dom m = key_set →
  (∀ p, j_principle d = Some p → p ∉ principle_keys) →
  organize_json_step m d = m.
Proof.
  intros Hdom Hp. unfold organize_json_step.
  destruct (j_principle d) as [p|]; [|done].
  destruct (has_key p m) eqn:K; [|by rewrite andb_false_r].
  apply has_key_true in K. rewrite Hdom, elem_of_key_set in K.
  by destruct (Hp _ eq_refl).
Qed.

End Organizer.

(** C1, as amended: for a declaration whose question id holds a ['-'],
    [organize_by_principle] cuts the id at its last ['-'] into a principle
    and a type suffix; when the principle is one of the fifteen keys, the
    entry is appended to the metadata list of that bucket if the suffix is
    "MD" in any letter case and to its data list otherwise; when the
    principle is not one of the keys, the table is left as it was.  The id
    "A1.1-MD" is cut into "A1.1" and "MD", the id "R1.2-D" into "R1.2" and
    "D". *)
Theorem organize_by_principle_splits_on_last_dash
        (ds : list Declaration) (d : Declaration) (q_id : string) :
  question_id d = Some q_id →
  contains "-" q_id = true →
  ∃ principle dtype,
    cut_at_last "-" q_id principle dtype ∧
    contains "-" dtype = false ∧
    (q_id = "A1.1-MD" → principle = "A1.1" ∧ dtype = "MD") ∧
    (q_id = "R1.2-D" → principle = "R1.2" ∧ dtype = "D") ∧
    (principle ∈ principle_keys → dtype ∈ md_spellings →
       metadata_gains principle (resource_info d)
         (organize_by_principle ds) (organize_by_principle (ds ++ [d]))) ∧
    (principle ∈ principle_keys → dtype ∉ md_spellings →
       data_gains principle (resource_info d)
         (organize_by_principle ds) (organize_by_principle (ds ++ [d]))) ∧
    (principle ∉ principle_keys →
       organize_by_principle (ds ++ [d]) = organize_by_principle ds).
Proof.
  intros Hq Hdash.
  destruct (OrganizerFacts.split_question_id_dash _ Hdash)
    as (principle & dtype & Hsplit & Hcut & Htail).
  exists principle, dtype.
  rewrite OrganizerFacts.organize_snoc, (organize_step_dash _ _ _ _ _ Hq Hdash Hsplit).
  split_and!; try done.
  - intros ->. vm_compute in Hsplit. split; congruence.
  - intros ->. vm_compute in Hsplit. split; congruence.
  - intros Hk Hmd. pose proof (proj2 (OrganizerFacts.has_key_organize ds principle) Hk) as Hk'.
    apply OrganizerFacts.upper_MD in Hmd. rewrite Hk', Hmd.
    by apply OrganizerFacts.metadata_append_gains.
  - intros Hk Hmd. pose proof (proj2 (OrganizerFacts.has_key_organize ds principle) Hk) as Hk'.
    apply OrganizerFacts.upper_not_MD in Hmd. rewrite Hk', Hmd.
    by apply OrganizerFacts.data_append_gains.
  - intros Hk. destruct (has_key principle (organize_by_principle ds)) eqn:K; [|done].
    apply OrganizerFacts.has_key_organize in K. done.
Qed.

(** The theorem at the declaration of [ARK] under "A1.1-MD". *)
Lemma organize_by_principle_splits_on_last_dash_witness :
  ∃ principle dtype,
    cut_at_last "-" "A1.1-MD" principle dtype ∧
    contains "-" dtype = false ∧
    ("A1.1-MD" = "A1.1-MD" → principle = "A1.1" ∧ dtype = "MD") ∧
    ("A1.1-MD" = "R1.2-D" → principle = "R1.2" ∧ dtype = "D") ∧
    (principle ∈ principle_keys → dtype ∈ md_spellings →
       metadata_gains principle
         (resource_info (mkDeclaration None (Some "A1.1-MD") (Some "ARK") None "current"))
         (organize_by_principle [])
         (organize_by_principle
            ([] ++ [mkDeclaration None (Some "A1.1-MD") (Some "ARK") None "current"]))) ∧
    (principle ∈ principle_keys → dtype ∉ md_spellings →
       data_gains principle
         (resource_info (mkDeclaration None (Some "A1.1-MD") (Some "ARK") None "current"))
         (organize_by_principle [])
         (organize_by_principle
            ([] ++ [mkDeclaration None (Some "A1.1-MD") (Some "ARK") None "current"]))) ∧
    (principle ∉ principle_keys →
       organize_by_principle
         ([] ++ [mkDeclaration None (Some "A1.1-MD") (Some "ARK") None "current"]) =
       organize_by_principle []).
Proof.
  apply (organize_by_principle_splits_on_last_dash []
           (mkDeclaration None (Some "A1.1-MD") (Some "ARK") None "current") "A1.1-MD");
    reflexivity.
Defined.

(** C1, as stated, fails: the id "X9-D" holds a ['-'] and is cut into "X9"
    and "D", but there is no bucket "X9" and the entry is appended to no
    bucket at all. *)
Lemma organize_by_principle_unknown_prefix_not_filed :
  let d := mkDeclaration None (Some "X9-D") (Some "ARK") (Some "https://ark.example")
                         "current" in
  contains "-" "X9-D" = true ∧
  split_question_id "X9-D" = ("X9", "D") ∧
  organize_by_principle [d] !! "X9" = None ∧
  organize_by_principle [d] = organize_by_principle [] ∧
  ¬ (∃ k, data_gains k (resource_info d) (organize_by_principle []) (organize_by_principle [d])
          ∨ metadata_gains k (resource_info d)
              (organize_by_principle []) (organize_by_principle [d])).
Proof.
  intros d.
  assert (E : organize_by_principle [d] = organize_by_principle []) by (by vm_compute).
  split_and!; try done.
  intros [k [(b & Hb & Ha) | (b & Hb & Ha)]]; rewrite E in Ha;
    apply (f_equal (λ m, m !! k)) in Ha; rewrite lookup_insert_eq, Hb in Ha;
    injection Ha as Ha; destruct b as [bd bm]; injection Ha as H1;
    apply (f_equal List.length) in H1; rewrite length_app in H1; simpl in H1; lia.
Qed.

(** C4: whatever the list of declarations, the empty list too, the table
    of [organize_by_principle], and the one of
    [organize_by_principle_from_json], has the fifteen keys F1 ... R1.3 and
    no other key, each with a bucket of a data list and a metadata list
    (both empty on the empty input); a declaration whose principle is not
    one of the keys can be taken out of the input without changing the
    table: it adds no key and no entry. *)
Theorem organizers_have_the_fifteen_keys
        (ds : list Declaration) (js : list JsonDeclaration) :
  List.length principle_keys = 15%nat ∧
  NoDup principle_keys ∧
  (∀ k, is_Some (organize_by_principle ds !! k) ↔ k ∈ principle_keys) ∧
  (∀ k, is_Some (organize_by_principle_from_json js !! k) ↔ k ∈ principle_keys) ∧
  (∀ k, k ∈ principle_keys →
        organize_by_principle [] !! k = Some {| data := []; metadata := [] |} ∧
        organize_by_principle_from_json [] !! k = Some {| data := []; metadata := [] |}) ∧
  (∀ pre d post,
      (∀ p, principle_of d = Some p → p ∉ principle_keys) →
      organize_by_principle (pre ++ d :: post) = organize_by_principle (pre ++ post)) ∧
  (∀ pre d post,
      (∀ p, j_principle d = Some p → p ∉ principle_keys) →
      organize_by_principle_from_json (pre ++ d :: post) =
      organize_by_principle_from_json (pre ++ post)).
Proof.
  split_and!.
  - reflexivity.
  - apply (bool_decide_unpack _). by vm_compute.
  - intros k. by rewrite <-elem_of_dom, OrganizerFacts.organize_dom,
                 OrganizerFacts.elem_of_key_set.
  - intros k. by rewrite <-elem_of_dom, OrganizerFacts.organize_json_dom,
                 OrganizerFacts.elem_of_key_set.
  - intros k. unfold principle_keys. rewrite !elem_of_cons, elem_of_nil.
    intros H. repeat (destruct H as [-> | H]; [by vm_compute|]). done.
  - intros pre d post Hp. apply OrganizerFacts.organize_skip.
    apply organize_step_unknown; [apply OrganizerFacts.organize_dom | done].
  - intros pre d post Hp. apply OrganizerFacts.organize_json_skip.
    apply organize_json_step_unknown; [apply OrganizerFacts.organize_json_dom | done].
Qed.

(** ** The declaration parser *)

Module DeclarationFacts.

Import PyStrFacts.

Lemma question_update_marker (o_str : string) (d : Declaration) :
  contains "FIP-Question-" o_str = true →
  question_id (question_update o_str d) = Some (after_last "FIP-Question-" o_str).
Proof.
  intros H. unfold question_update. rewrite H. simpl.
  by rewrite (last_split "F" "IP-Question-" o_str eq_refl).
Qed.

Lemma question_update_slash (o_str : string) (d : Declaration) :
  contains "FIP-Question-" o_str = false →
  has_slash_FAIR o_str = true →
  question_id (question_update o_str d) = Some (after_last "/" o_str).
Proof.
  intros H1 H2. unfold question_update, has_slash_FAIR in *. rewrite H1, H2. simpl.
  by rewrite (last_split "/" "" o_str eq_refl).
Qed.

Lemma question_update_none (o_str : string) (d : Declaration) :
  contains "FIP-Question-" o_str = false →
  has_slash_FAIR o_str = false →
  question_id (question_update o_str d) = question_id d.
Proof.
  intros H1 H2. unfold question_update, has_slash_FAIR in *. by rewrite H1, H2.
Qed.

(** Only the question branch of the loop body writes [question_id]. *)
Lemma declaration_step_question_id (st : Declaration * gmap string string)
      (s p o : Term) :
  question_id (fst (declaration_step st (s, p, o))) =
  if is_predicate "refers-to-question" fip_refers_to_question (str p)
  then question_id (question_update (str o) (fst st))
  else question_id (fst st).
Proof.
  destruct st as [d labels]. unfold declaration_step. cbn [fst].
  repeat match goal with
         | |- context [if is_predicate ?a ?b ?c then _ else _] =>
             destruct (is_predicate a b c)
         end; reflexivity.
Qed.

Lemma declaration_step_keeps (st : Declaration * gmap string string) (t : Triple) :
  sets_question_id t = false →
  question_id (fst (declaration_step st t)) = question_id (fst st).
Proof.
  destruct t as [[s p] o]. unfold sets_question_id. intros H.
  rewrite declaration_step_question_id.
  destruct (is_predicate _ _ (str p)); [|done]. simpl in H.
  apply orb_false_iff in H as [H1 H2]. by apply question_update_none.
Qed.

Lemma foldl_declaration_step_keeps (post : list Triple)
      (st : Declaration * gmap string string) :
  (∀ t, t ∈ post → sets_question_id t = false) →
  question_id (fst (foldl declaration_step st post)) = question_id (fst st).
Proof.
  revert st. induction post as [|t post IH]; intros st H; simpl; [done|].
  rewrite IH by (intros t' Ht'; apply H; by right).
  apply declaration_step_keeps, H. by left.
Qed.

Lemma resolve_label_question_id (st : Declaration * gmap string string) :
  question_id (resolve_label st) = question_id (fst st).
Proof.
  destruct st as [d labels]. unfold resolve_label. simpl.
  destruct (resource_uri d) as [uri|]; [|done].
  destruct (truthy uri); [|done].
  destruct (labels !! uri); [done|].
  destruct (contains "#" uri); [done|].
  destruct (contains "/" uri); [|done].
  by destruct (truthy (last (split "/" uri))).
Qed.

(** The question id of a graph is the one that its last triple that
    writes it has written. *)
Lemma parse_declaration_last_writer (g : ConjunctiveGraph)
      (pre post : list Triple) (t : Triple) :
  triples g = pre ++ t :: post →
  (∀ t', t' ∈ post → sets_question_id t' = false) →
  question_id (parse_declaration g) =
  question_id (fst (declaration_step (foldl declaration_step (declaration_init, ∅) pre) t)).
Proof.
  intros Hg Hpost. unfold parse_declaration.
  rewrite resolve_label_question_id, Hg, foldl_app. simpl.
  by apply foldl_declaration_step_keeps.
Qed.

Lemma is_predicate_contains (name uri p_str : string) :
  lower name = name → contains name p_str = true → is_predicate name uri p_str = true.
Proof.
  intros Hn H. unfold is_predicate. by rewrite (contains_lower _ _ Hn H).
Qed.

(** The text after the marker, when the object ends in the marker and a
    suffix that starts no other marker. *)
Lemma after_last_suffix (sep x b : string) :
  rfind_cut sep (sep +:+ b) = Some ("", b) →
  after_last sep (x +:+ sep +:+ b) = b.
Proof.
  intros H. unfold after_last. by rewrite (rfind_cut_append _ x _ _ _ H).
Qed.

Lemma after_last_cut (c : ascii) (rest s : string) :
  contains (String c rest) s = true →
  ∃ a, cut_at_last (String c rest) s a (after_last (String c rest) s) ∧
       contains (String c rest) (after_last (String c rest) s) = false.
Proof.
  intros H. unfold after_last.
  destruct (rfind_cut (String c rest) s) as [[a b]|] eqn:R.
  - exists a. split; [by apply rfind_cut_Some | by eapply rfind_cut_tail].
  - apply rfind_cut_None in R. congruence.
Qed.

End DeclarationFacts.

(** C2, as amended: when a triple of the graph has a predicate that holds
    "refers-to-question" and an object that holds the marker
    "FIP-Question-", and no triple after it in the iteration writes the
    question id, the [question_id] that [parse_declaration] returns is the
    text of that object after the last occurrence of the marker; for an
    object that ends in "FIP-Question-F1-D" it is "F1-D". *)
Theorem parse_declaration_question_id_after_marker
        (g : ConjunctiveGraph) (pre post : list Triple) (s p o : Term) :
  triples g = pre ++ (s, p, o) :: post →
  contains "refers-to-question" (str p) = true →
  contains "FIP-Question-" (str o) = true →
  (∀ t, t ∈ post → sets_question_id t = false) →
  ∃ a b,
    cut_at_last "FIP-Question-" (str o) a b ∧
    question_id (parse_declaration g) = Some b ∧
    (∀ x, str o = x +:+ "FIP-Question-F1-D" → b = "F1-D").
Proof.
  intros Hg Hp Ho Hpost.
  destruct (DeclarationFacts.after_last_cut "F" "IP-Question-" (str o) Ho) as (a & Hcut & _).
  exists a, (after_last "FIP-Question-" (str o)). split_and!; [done| |].
  - rewrite (DeclarationFacts.parse_declaration_last_writer g pre post _ Hg Hpost).
    rewrite DeclarationFacts.declaration_step_question_id.
    rewrite (DeclarationFacts.is_predicate_contains _ _ _ eq_refl Hp).
    by apply DeclarationFacts.question_update_marker.
  - intros x ->.
    by apply (DeclarationFacts.after_last_suffix "FIP-Question-" x "F1-D").
Qed.

(** The theorem at a declaration that refers to the question F1-D and
    declares the current use of a resource. *)
Lemma parse_declaration_question_id_after_marker_witness :
  ∃ a b,
    cut_at_last "FIP-Question-" "https://w3id.org/fair/fip/terms/FIP-Question-F1-D" a b ∧
    question_id
      (parse_declaration
         [mkContext "assertion"
            [(URIRef "https://example.org/decl", URIRef fip_refers_to_question,
              URIRef "https://w3id.org/fair/fip/terms/FIP-Question-F1-D");
             (URIRef "https://example.org/decl", URIRef fip_declares_current_use_of,
              URIRef "https://example.org/ARK")]]) = Some b ∧
    (∀ x, "https://w3id.org/fair/fip/terms/FIP-Question-F1-D" = x +:+ "FIP-Question-F1-D" →
          b = "F1-D").
Proof.
  apply (parse_declaration_question_id_after_marker
           [mkContext "assertion"
              [(URIRef "https://example.org/decl", URIRef fip_refers_to_question,
                URIRef "https://w3id.org/fair/fip/terms/FIP-Question-F1-D");
               (URIRef "https://example.org/decl", URIRef fip_declares_current_use_of,
                URIRef "https://example.org/ARK")]]
           []
           [(URIRef "https://example.org/decl", URIRef fip_declares_current_use_of,
             URIRef "https://example.org/ARK")]
           (URIRef "https://example.org/decl") (URIRef fip_refers_to_question)
           (URIRef "https://w3id.org/fair/fip/terms/FIP-Question-F1-D")).
  - reflexivity.
  - reflexivity.
  - reflexivity.
  - intros t Ht. apply list_elem_of_singleton in Ht as ->. reflexivity.
Defined.

(** C2, as stated, fails on a graph with two question references: the
    graph holds a triple whose object ends in "FIP-Question-F1-D", but the
    triple visited after it wins and the question id is "F2-MD". *)
Lemma parse_declaration_later_question_wins :
  let t1 := (URIRef "https://example.org/decl", URIRef fip_refers_to_question,
             URIRef "https://w3id.org/fair/fip/terms/FIP-Question-F1-D") in
  let t2 := (URIRef "https://example.org/decl", URIRef fip_refers_to_question,
             URIRef "https://w3id.org/fair/fip/terms/FIP-Question-F2-MD") in
  let g := [mkContext "assertion" [t1; t2]] in
  t1 ∈ triples g ∧
  contains "refers-to-question" (str (t1.1.2)) = true ∧
  contains "FIP-Question-" (str (t1.2)) = true ∧
  after_last "FIP-Question-" (str (t1.2)) = "F1-D" ∧
  question_id (parse_declaration g) = Some "F2-MD" ∧
  question_id (parse_declaration g) ≠ Some (after_last "FIP-Question-" (str (t1.2))).
Proof.
  intros t1 t2 g. split_and!; try reflexivity.
  - by left.
  - by vm_compute.
Qed.

(** C7, as amended: on a triple whose predicate holds "refers-to-question"
    and whose object does not hold "FIP-Question-", the loop body of
    [parse_declaration] sets the question id to the last path segment of
    the object if and only if the object holds one of "/F", "/A", "/I",
    "/R" at any place; otherwise it leaves the question id as it was.  An
    object with a ['/'] whose last segment starts with F, A, I or R passes
    that test. *)
Theorem parse_declaration_question_id_from_segment
        (st : Declaration * gmap string string) (s p o : Term) :
  contains "refers-to-question" (str p) = true →
  contains "FIP-Question-" (str o) = false →
  (has_slash_FAIR (str o) = true →
     last (split "/" (str o)) = after_last "/" (str o) ∧
     (∃ a, cut_at_last "/" (str o) a (after_last "/" (str o))) ∧
     contains "/" (after_last "/" (str o)) = false ∧
     question_id (fst (declaration_step st (s, p, o))) = Some (after_last "/" (str o))) ∧
  (has_slash_FAIR (str o) = false →
     question_id (fst (declaration_step st (s, p, o))) = question_id (fst st)) ∧
  (contains "/" (str o) = true → starts_FAIR (after_last "/" (str o)) = true →
     has_slash_FAIR (str o) = true).
Proof.
  intros Hp Ho.
  pose proof (DeclarationFacts.is_predicate_contains
                "refers-to-question" fip_refers_to_question _ eq_refl Hp) as Hq.
  assert (Hslash : has_slash_FAIR (str o) = true → contains "/" (str o) = true).
  { unfold has_slash_FAIR. rewrite !orb_true_iff.
    intros [[[H|H]|H]|H]; apply PyStrFacts.contains_spec in H as (a & b & ->);
      apply PyStrFacts.contains_spec; exists a; eexists; reflexivity. }
  split_and!.
  - intros H.
    destruct (DeclarationFacts.after_last_cut "/" "" (str o) (Hslash H)) as (a & Hcut & Htail).
    split_and!; [by apply (PyStrFacts.last_split "/" "") | by exists a | done |].
    rewrite DeclarationFacts.declaration_step_question_id, Hq.
    by apply DeclarationFacts.question_update_slash.
  - intros H. rewrite DeclarationFacts.declaration_step_question_id, Hq.
    by apply DeclarationFacts.question_update_none.
  - intros H Hseg.
    destruct (DeclarationFacts.after_last_cut "/" "" (str o) H) as (a & [Hcut _] & _).
    revert Hseg. generalize (after_last "/" (str o)) as seg, Hcut. intros seg ->.
    unfold starts_FAIR, has_slash_FAIR. rewrite !orb_true_iff.
    intros [[[Hs|Hs]|Hs]|Hs]; apply PyStrFacts.startswith_spec in Hs as [r ->];
      [left; left; left | left; left; right | left; right | right];
      apply PyStrFacts.contains_spec; exists a, r; reflexivity.
Qed.

(** The theorem at a question reference to ".../questions/F1-D". *)
Lemma parse_declaration_question_id_from_segment_witness :
  question_id
    (fst (declaration_step (declaration_init, ∅)
            (URIRef "https://example.org/decl", URIRef fip_refers_to_question,
             URIRef "https://example.org/questions/F1-D"))) = Some "F1-D".
Proof.
  destruct (parse_declaration_question_id_from_segment
              (declaration_init, ∅)
              (URIRef "https://example.org/decl") (URIRef fip_refers_to_question)
              (URIRef "https://example.org/questions/F1-D") eq_refl eq_refl)
    as [H _].
  destruct (H eq_refl) as (_ & _ & _ & E). exact E.
Defined.

(** C7, as stated, fails in both directions: the object
    "http://example.org/Foo/bar" holds "/F", so the question id is set to
    its last segment "bar", which starts with none of F, A, I, R; and the
    object "F1-D", a single segment that starts with F, holds no "/F", so
    the question id is not set. *)
Lemma parse_declaration_segment_test_is_not_on_last_segment :
  let t (o : Term) := (URIRef "https://example.org/decl", URIRef fip_refers_to_question, o) in
  let o1 := URIRef "http://example.org/Foo/bar" in
  let o2 := Literal "F1-D" in
  (contains "FIP-Question-" (str o1) = false ∧
   last (split "/" (str o1)) = "bar" ∧
   starts_FAIR "bar" = false ∧
   question_id (fst (declaration_step (declaration_init, ∅) (t o1))) = Some "bar") ∧
  (contains "FIP-Question-" (str o2) = false ∧
   last (split "/" (str o2)) = "F1-D" ∧
   starts_FAIR "F1-D" = true ∧
   question_id (fst (declaration_step (declaration_init, ∅) (t o2))) = None).
Proof. intros t o1 o2. by vm_compute. Qed.

(** ** The index resolver *)

Module IndexFacts.

Lemma in_list_spec (x : string) (l : list string) : in_list x l = true ↔ x ∈ l.
Proof.
  unfold in_list. rewrite existsb_exists. split.
  - intros (y & Hy & ->%String.eqb_eq). by apply list_elem_of_In.
  - intros H. exists x. split; [by apply list_elem_of_In | apply String.eqb_refl].
Qed.

(** The loop collects the objects of the matching triples, in order. *)
Lemma foldl_index_matches (ts : list Triple) (acc : list string) (u : string) :
  u ∈ foldl (λ declarations '(s, p, o),
               if in_list (str p) index_predicate_uris
               then declarations ++ [str o] else declarations) acc ts
  ↔ u ∈ acc ∨ ∃ s p o, (s, p, o) ∈ ts ∧ str p ∈ index_predicate_uris ∧ str o = u.
Proof.
  revert acc. induction ts as [|[[s p] o] ts IH]; intros acc; cbn [foldl].
  - split; [by left|]. intros [H | (s & p & o & H & _)]; [done|]. by apply elem_of_nil in H.
  - rewrite IH. destruct (in_list (str p) index_predicate_uris) eqn:E.
    + apply in_list_spec in E. rewrite elem_of_app, list_elem_of_singleton. split.
      * intros [[H | ->] | (s' & p' & o' & H & Hp & Ho)]; [by left | | ].
        -- right. exists s, p, o. split_and!; [by left | done | done].
        -- right. exists s', p', o'. split_and!; [by right | done | done].
      * intros [H | (s' & p' & o' & H & Hp & Ho)]; [by left; left|].
        apply elem_of_cons in H as [[= -> -> ->] | H]; [by left; right|].
        right. by exists s', p', o'.
    + split.
      * intros [H | (s' & p' & o' & H & Hp & Ho)]; [by left|].
        right. exists s', p', o'. split_and!; [by right | done | done].
      * intros [H | (s' & p' & o' & H & Hp & Ho)]; [by left|].
        apply elem_of_cons in H as [[= -> -> ->] | H].
        -- apply in_list_spec in Hp. congruence.
        -- right. by exists s', p', o'.
Qed.

Lemma index_matches_spec (g : ConjunctiveGraph) (u : string) :
  u ∈ index_matches g ↔
  ∃ s p o, (s, p, o) ∈ triples g ∧ str p ∈ index_predicate_uris ∧ str o = u.
Proof.
  unfold index_matches. rewrite foldl_index_matches. split; [|by right].
  intros [H | H]; [by apply elem_of_nil in H | done].
Qed.

Lemma list_set_NoDup (l : list string) : NoDup (list_set l).
Proof. unfold list_set. apply NoDup_elements. Qed.

Lemma list_set_elem (l : list string) (u : string) : u ∈ list_set l ↔ u ∈ l.
Proof. unfold list_set. by rewrite elem_of_elements, elem_of_list_to_set. Qed.

End IndexFacts.

(** C3: [extract_declarations_from_index] returns a list without
    duplicates whose elements are exactly the objects of the triples whose
    predicate is equal, as a string, to one of the four index predicates;
    a predicate that only holds one of them as a substring, or is any
    other URI, contributes nothing, and a graph that matches twice the
    same object returns it once. *)
Theorem extract_declarations_from_index_is_the_set
        (index_graph : ConjunctiveGraph) :
  index_predicate_uris =
    ["http://purl.org/nanopub/x/includesElement";
     "http://purl.org/nanopub/x/hasElement";
     "http://purl.org/nanopub/x/includes";
     "https://w3id.org/fair/fip/terms/has-declaration"] ∧
  NoDup (extract_declarations_from_index index_graph) ∧
  (∀ u, u ∈ extract_declarations_from_index index_graph ↔
        ∃ s p o, (s, p, o) ∈ triples index_graph ∧
                 str p ∈ index_predicate_uris ∧ str o = u) ∧
  ((∀ s p o, (s, p, o) ∈ triples index_graph → str p ∉ index_predicate_uris) →
   extract_declarations_from_index index_graph = []) ∧
  extract_declarations_from_index
    [mkContext "assertion"
       [(URIRef "i", URIRef "http://purl.org/nanopub/x/includesElement", URIRef "d1");
        (URIRef "i", URIRef "http://purl.org/nanopub/x/includesElementX", URIRef "d2");
        (URIRef "i", URIRef "http://example.org/other", URIRef "d3")];
     mkContext "pubinfo"
       [(URIRef "i", URIRef "http://purl.org/nanopub/x/includesElement", URIRef "d1")]]
  = ["d1"].
Proof.
  split_and!.
  - reflexivity.
  - apply IndexFacts.list_set_NoDup.
  - intros u. unfold extract_declarations_from_index.
    by rewrite IndexFacts.list_set_elem, IndexFacts.index_matches_spec.
  - intros H. destruct (extract_declarations_from_index index_graph) as [|u l] eqn:E; [done|].
    assert (Hu : u ∈ extract_declarations_from_index index_graph) by (rewrite E; by left).
    unfold extract_declarations_from_index in Hu.
    rewrite IndexFacts.list_set_elem, IndexFacts.index_matches_spec in Hu.
    destruct Hu as (s & p & o & Ht & Hp & _). by destruct (H s p o Ht).
  - by vm_compute.
Qed.

(** ** The header extractor *)

Module HeaderFacts.

Lemma lookup_set_if_eq {V} (c : bool) (k : string) (v : V) (m : gmap string V) :
  set_if c k v m !! k = if c then Some v else m !! k.
Proof. unfold set_if. destruct c; [apply lookup_insert_eq | done]. Qed.

Lemma lookup_set_if_ne {V} (c : bool) (k k' : string) (v : V) (m : gmap string V) :
  k ≠ k' → set_if c k v m !! k' = m !! k'.
Proof. intros H. unfold set_if. destruct c; [by apply lookup_insert_ne | done]. Qed.

Lemma lookup_creators_append_ne (x k : string) (m : gmap string PyVal) :
  "creators" ≠ k → creators_append x m !! k = m !! k.
Proof.
  intros H. unfold creators_append.
  destruct (m !! "creators") as [[| |l]|]; try done. by apply lookup_insert_ne.
Qed.

Lemma lookup_creators_if_ne (c : bool) (x k : string) (m : gmap string PyVal) :
  "creators" ≠ k → (if c then creators_append x m else m) !! k = m !! k.
Proof. intros H. destruct c; [by apply lookup_creators_append_ne | done]. Qed.

Ltac through_step :=
  cbv beta iota zeta delta [header_step];
  repeat first
    [ rewrite lookup_set_if_eq
    | rewrite lookup_set_if_ne by done
    | rewrite lookup_creators_if_ne by done ].

(** What the loop body does to a singular field. *)
Lemma header_step_singular (info : gmap string PyVal) (s p o : Term) (k : string) :
  k ∈ singular_fields →
  header_step info (s, p, o) !! k =
  if field_test k (s, p, o) then Some (PStr (str o)) else info !! k.
Proof.
  unfold singular_fields. rewrite !elem_of_cons, elem_of_nil.
  intros H. repeat (destruct H as [-> | H]; [through_step; reflexivity|]). done.
Qed.

(** What the loop body does to the list of creators. *)
Lemma header_step_creators (info : gmap string PyVal) (s p o : Term) (l : list string) :
  info !! "creators" = Some (PList l) →
  header_step info (s, p, o) !! "creators" =
  Some (PList (if field_test "creators" (s, p, o) then l ++ [str o] else l)).
Proof.
  intros H. through_step.
  change (field_test "creators" (s, p, o))
    with (contains "creator" (lower (str p)) && contains "orcid.org" (str o)).
  destruct (contains "creator" (lower (str p)) && contains "orcid.org" (str o)).
  - unfold creators_append. through_step. rewrite H. apply lookup_insert_eq.
  - by through_step.
Qed.

Lemma foldl_header_creators (ts : list Triple) (info : gmap string PyVal)
      (l : list string) :
  info !! "creators" = Some (PList l) →
  foldl header_step info ts !! "creators" =
  Some (PList (l ++ ((λ t, str t.2) <$> filter (λ t, field_test "creators" t = true) ts))).
Proof.
  revert info l. induction ts as [|[[s p] o] ts IH]; intros info l H; cbn [foldl].
  - by rewrite app_nil_r.
  - rewrite (IH _ _ (header_step_creators _ s p o _ H)).
    rewrite filter_cons. destruct (field_test "creators" (s, p, o)) eqn:E.
    + rewrite decide_True by done. rewrite fmap_cons, <-app_assoc. done.
    + rewrite decide_False by congruence. done.
Qed.

Lemma foldl_header_unmatched (ts : list Triple) (info : gmap string PyVal) (k : string) :
  k ∈ singular_fields →
  (∀ t, t ∈ ts → field_test k t = false) →
  foldl header_step info ts !! k = info !! k.
Proof.
  intros Hk. revert info. induction ts as [|[[s p] o] ts IH]; intros info H; cbn [foldl].
  - done.
  - rewrite IH by (intros t Ht; apply H; by right).
    rewrite (header_step_singular _ _ _ _ _ Hk), (H (s, p, o)); [done | by left].
Qed.

Lemma foldl_header_last_match (pre post : list Triple) (info : gmap string PyVal)
      (s p o : Term) (k : string) :
  k ∈ singular_fields →
  field_test k (s, p, o) = true →
  (∀ t, t ∈ post → field_test k t = false) →
  foldl header_step info (pre ++ (s, p, o) :: post) !! k = Some (PStr (str o)).
Proof.
  intros Hk Ht Hpost. rewrite foldl_app. cbn [foldl].
  rewrite (foldl_header_unmatched _ _ _ Hk Hpost).
  by rewrite (header_step_singular _ _ _ _ _ Hk), Ht.
Qed.

Lemma foldl_header_type (ts : list Triple) (info : gmap string PyVal) (k : string) :
  k ∈ singular_fields →
  info !! k = Some PNone ∨ (∃ x, info !! k = Some (PStr x)) →
  foldl header_step info ts !! k = Some PNone ∨
  ∃ x, foldl header_step info ts !! k = Some (PStr x).
Proof.
  intros Hk. revert info. induction ts as [|[[s p] o] ts IH]; intros info H; cbn [foldl].
  - done.
  - apply IH. rewrite (header_step_singular _ _ _ _ _ Hk).
    destruct (field_test k (s, p, o)); [right; by eexists | done].
Qed.

Lemma filter_unmatched (f : Triple → bool) (ts : list Triple) :
  (∀ t, t ∈ ts → f t = false) → filter (λ t, f t = true) ts = [].
Proof.
  induction ts as [|t ts IH]; intros H; [done|].
  rewrite filter_cons, decide_False.
  - apply IH. intros t' Ht'. apply H. by right.
  - rewrite (H t); [done | by left].
Qed.

Lemma set_if_dom {V} (c : bool) (k : string) (v : V) (m : gmap string V) :
  k ∈ dom m → dom (set_if c k v m) = dom m.
Proof.
  intros H. unfold set_if. destruct c; [|done].
  apply dom_insert_lookup_L. by apply elem_of_dom.
Qed.

Lemma creators_append_dom (x : string) (m : gmap string PyVal) :
  dom (creators_append x m) = dom m.
Proof.
  unfold creators_append. destruct (m !! "creators") as [[| |l]|] eqn:E; try done.
  apply dom_insert_lookup_L. by rewrite E.
Qed.

Lemma header_step_dom (info : gmap string PyVal) (t : Triple) :
  dom info = field_set → dom (header_step info t) = field_set.
Proof.
  intros H. destruct t as [[s p] o]. cbv beta iota zeta delta [header_step].
  repeat first
    [ rewrite set_if_dom
    | match goal with
      | |- context [if ?c then creators_append ?x ?m else ?m] =>
          replace (dom (if c then creators_append x m else m)) with (dom m)
            by (destruct c; [by rewrite creators_append_dom | done])
      end ];
    rewrite ?H; try done; unfold field_set, singular_fields; set_solver.
Qed.

Lemma foldl_header_dom (ts : list Triple) (info : gmap string PyVal) :
  dom info = field_set → dom (foldl header_step info ts) = field_set.
Proof.
  revert info. induction ts as [|t ts IH]; intros info H; cbn [foldl]; [done|].
  by apply IH, header_step_dom.
Qed.

Lemma fip_info_init_dom : dom fip_info_init = field_set.
Proof.
  unfold fip_info_init, field_set, singular_fields.
  rewrite !dom_insert_L, dom_empty_L. set_solver.
Qed.

End HeaderFacts.

(** C9, as amended: [parse_fip_header] is a total function of the graph
    (nothing in its loop can raise), its result has the eight keys of
    [fip_info], and each of the seven fields label, description, version,
    declared_by, declaration_index, created and wizard_source is null or a
    string: null when no triple passes the test of the field, and the
    object of the last triple that passes it otherwise.  The field
    creators is never null and never a string: it is a list of strings,
    the objects of the triples that pass its test, in the order of the
    visit, and the empty list when none does. *)
Theorem parse_fip_header_fields (g : ConjunctiveGraph) :
  (∀ k, is_Some (parse_fip_header g !! k) ↔ k ∈ "creators" :: singular_fields) ∧
  (∀ k, k ∈ singular_fields →
        parse_fip_header g !! k = Some PNone ∨
        ∃ x, parse_fip_header g !! k = Some (PStr x)) ∧
  (∀ k, k ∈ singular_fields →
        (∀ t, t ∈ triples g → field_test k t = false) →
        parse_fip_header g !! k = Some PNone) ∧
  (∀ k pre s p o post,
        k ∈ singular_fields →
        triples g = pre ++ (s, p, o) :: post →
        field_test k (s, p, o) = true →
        (∀ t, t ∈ post → field_test k t = false) →
        parse_fip_header g !! k = Some (PStr (str o))) ∧
  parse_fip_header g !! "creators" =
    Some (PList ((λ t, str t.2) <$> filter (λ t, field_test "creators" t = true) (triples g))) ∧
  ((∀ t, t ∈ triples g → field_test "creators" t = false) →
   parse_fip_header g !! "creators" = Some (PList [])).
Proof.
  assert (Hinit : ∀ k, k ∈ singular_fields → fip_info_init !! k = Some PNone).
  { intros k. unfold singular_fields. rewrite !elem_of_cons, elem_of_nil.
    intros H. repeat (destruct H as [-> | H]; [by vm_compute|]). done. }
  assert (Hcre : parse_fip_header g !! "creators" =
                 Some (PList ((λ t, str t.2) <$>
                                filter (λ t, field_test "creators" t = true) (triples g)))).
  { unfold parse_fip_header.
    by rewrite (HeaderFacts.foldl_header_creators _ fip_info_init [] eq_refl). }
  unfold parse_fip_header in *. split_and!.
  - intros k. rewrite <-elem_of_dom.
    rewrite (HeaderFacts.foldl_header_dom _ _ HeaderFacts.fip_info_init_dom).
    unfold field_set. by rewrite elem_of_list_to_set.
  - intros k Hk. apply HeaderFacts.foldl_header_type; [done|]. left. by apply Hinit.
  - intros k Hk H. rewrite HeaderFacts.foldl_header_unmatched by done. by apply Hinit.
  - intros k pre s p o post Hk -> Ht Hpost. by apply HeaderFacts.foldl_header_last_match.
  - exact Hcre.
  - intros H. rewrite Hcre. do 2 f_equal.
    rewrite (HeaderFacts.filter_unmatched _ _ H). done.
Qed.

(** C9, as stated, fails on every graph, the empty one too: the field
    creators of the result is a list, neither null nor a string. *)
Lemma parse_fip_header_creators_is_a_list :
  parse_fip_header [] !! "creators" = Some (PList []) ∧
  ¬ (∀ k v, parse_fip_header [] !! k = Some v → v = PNone ∨ ∃ x, v = PStr x).
Proof.
  split; [reflexivity|].
  intros H. destruct (H "creators" (PList []) eq_refl) as [? | [x ?]]; discriminate.
Qed.

(** ** The fetcher *)

Section FetcherFacts.

Variable requests_get : string → Response.
Variable parse_trig : string → option ConjunctiveGraph.

#[local] Abbreviation returns := (candidate_returns requests_get parse_trig).
#[local] Abbreviation fails := (candidate_fails requests_get parse_trig).
#[local] Abbreviation attempt1 := (attempt requests_get parse_trig).
#[local] Abbreviation try_all := (try_endpoints requests_get parse_trig).

Lemma attempt_log (e : string) (log : list string) :
  snd (attempt1 e log) = log ++ [e].
Proof. reflexivity. Qed.

Lemma attempt_Some (e : string) (log : list string) (g : ConjunctiveGraph) :
  fst (attempt1 e log) = Some g ↔ returns e g.
Proof.
  unfold attempt, net_bind, get, net_ret, candidate_returns. cbn [fst].
  destruct (requests_get e) as [|status_code text].
  - split; [done | by intros (t & ? & _)].
  - destruct (Z.eqb_spec status_code 200) as [-> | Hne].
    + split; [intros H; by exists text | by intros (t & [= <-] & H)].
    + split; [done | intros (t & [= ? ?] & _); done].
Qed.

Lemma attempt_None (e : string) (log : list string) :
  fst (attempt1 e log) = None ↔ fails e.
Proof.
  unfold attempt, net_bind, get, net_ret, candidate_fails. cbn [fst].
  destruct (requests_get e) as [|status_code text].
  - split; [by left | done].
  - destruct (Z.eqb_spec status_code 200) as [-> | Hne].
    + split.
      * intros H. right. exists 200%Z, text. by split; [|right].
      * intros [? | (st & t & [= <- <-] & [? | ?])]; done.
    + split; [|done]. intros _. right. exists status_code, text. by split; [|left].
Qed.

Lemma try_endpoints_cons (e : string) (rest : list string) (log : list string) :
  try_all (e :: rest) log =
  match fst (attempt1 e log) with
  | Some g => (Some g, log ++ [e])
  | None => try_all rest (log ++ [e])
  end.
Proof.
  cbn [try_endpoints]. unfold net_bind at 1.
  destruct (attempt1 e log) as [r log'] eqn:E.
  pose proof (attempt_log e log) as Hl. rewrite E in Hl. simpl in Hl. subst log'.
  by destruct r.
Qed.

(** Failing candidates are passed, each requested once. *)
Lemma try_endpoints_skip (pre rest : list string) (log : list string) :
  (∀ e, e ∈ pre → fails e) →
  try_all (pre ++ rest) log = try_all rest (log ++ pre).
Proof.
  revert log. induction pre as [|e pre IH]; intros log H.
  - by rewrite app_nil_r.
  - rewrite <-app_comm_cons, try_endpoints_cons.
    assert (He : fst (attempt1 e log) = None) by (apply attempt_None, H; by left).
    rewrite He, IH by (intros e' He'; apply H; by right).
    by rewrite <-app_assoc.
Qed.

Lemma try_endpoints_first (pre post : list string) (e : string) (g : ConjunctiveGraph)
      (log : list string) :
  (∀ e', e' ∈ pre → fails e') →
  returns e g →
  try_all (pre ++ e :: post) log = (Some g, log ++ pre ++ [e]).
Proof.
  intros Hpre He. rewrite (try_endpoints_skip _ _ _ Hpre), try_endpoints_cons.
  apply (attempt_Some e (log ++ pre)) in He. by rewrite He, <-app_assoc.
Qed.

Lemma try_endpoints_all_fail (l : list string) (log : list string) :
  (∀ e, e ∈ l → fails e) →
  try_all l log = (None, log ++ l).
Proof.
  intros H. rewrite <-(app_nil_r l) at 1. by rewrite (try_endpoints_skip _ _ _ H).
Qed.

(** The outcome of a fetch, read backwards. *)
Lemma try_endpoints_inv (l : list string) (log log' : list string)
      (r : option ConjunctiveGraph) :
  try_all l log = (r, log') →
  match r with
  | Some g => ∃ pre e post, l = pre ++ e :: post ∧ (∀ e', e' ∈ pre → fails e') ∧
                            returns e g ∧ log' = log ++ pre ++ [e]
  | None => (∀ e, e ∈ l → fails e) ∧ log' = log ++ l
  end.
Proof.
  revert log. induction l as [|e l IH]; intros log.
  - intros [= <- <-]. split; [intros e H; by apply elem_of_nil in H | by rewrite app_nil_r].
  - rewrite try_endpoints_cons. destruct (fst (attempt1 e log)) as [g|] eqn:E.
    + intros [= <- <-]. exists [], e, l. split_and!; try done.
      * intros e' H. by apply elem_of_nil in H.
      * by apply (attempt_Some e log).
    + apply attempt_None in E. intros H. apply IH in H. destruct r as [g|].
      * destruct H as (pre & e0 & post & -> & Hpre & He0 & ->).
        exists (e :: pre), e0, post. split_and!; try done.
        -- intros e' [-> | H]%elem_of_cons; auto.
        -- by rewrite <-app_assoc.
      * destruct H as [Hl ->]. split; [|by rewrite <-app_assoc].
        intros e' [-> | H]%elem_of_cons; auto.
Qed.

(** The requests of a fetch: a non-empty prefix of its candidates. *)
Lemma try_endpoints_requests (l : list string) (log : list string) :
  ∃ chunk, snd (try_all l log) = log ++ chunk ∧ chunk `prefix_of` l ∧
           (l ≠ [] → chunk ≠ []).
Proof.
  destruct (try_all l log) as [r log'] eqn:E.
  apply try_endpoints_inv in E. destruct r as [g|].
  - destruct E as (pre & e & post & -> & _ & _ & ->).
    exists (pre ++ [e]). split_and!; [done | | by destruct pre].
    exists post. by rewrite <-app_assoc.
  - destruct E as [_ ->]. by exists l.
Qed.

End FetcherFacts.

(** C5, as amended: [fetch_nanopub] tries its four candidate URLs in
    order.  At the first candidate that answers with status 200 and a body
    that the parser accepts, it returns the parsed graph, and the URLs
    requested are the candidates before it and that one, each once, none
    after it.  A candidate on which [requests.get] raises, or that answers
    with another status, or whose body makes the parser raise, is passed.
    When every candidate fails, all were requested once and the result is
    [None]. *)
Theorem fetch_nanopub_returns_first_success
        (requests_get : string → Response)
        (parse_trig : string → option ConjunctiveGraph)
        (uri format_type : string) (log : list string) :
  List.length (endpoints uri format_type) = 4%nat ∧
  (∀ pre e post g,
      endpoints uri format_type = pre ++ e :: post →
      (∀ e', e' ∈ pre → candidate_fails requests_get parse_trig e') →
      candidate_returns requests_get parse_trig e g →
      fetch_nanopub requests_get parse_trig uri format_type log =
        (Some g, log ++ pre ++ [e])) ∧
  ((∀ e, e ∈ endpoints uri format_type → candidate_fails requests_get parse_trig e) →
   fetch_nanopub requests_get parse_trig uri format_type log =
     (None, log ++ endpoints uri format_type)) ∧
  (∀ g log',
      fetch_nanopub requests_get parse_trig uri format_type log = (Some g, log') →
      ∃ pre e post,
        endpoints uri format_type = pre ++ e :: post ∧
        (∀ e', e' ∈ pre → candidate_fails requests_get parse_trig e') ∧
        candidate_returns requests_get parse_trig e g ∧
        log' = log ++ pre ++ [e]) ∧
  (∀ log',
      fetch_nanopub requests_get parse_trig uri format_type log = (None, log') →
      (∀ e, e ∈ endpoints uri format_type → candidate_fails requests_get parse_trig e) ∧
      log' = log ++ endpoints uri format_type).
Proof.
  unfold fetch_nanopub. split_and!.
  - reflexivity.
  - intros pre e post g -> Hpre He. by apply try_endpoints_first.
  - intros H. by apply try_endpoints_all_fail.
  - intros g log' H. by apply try_endpoints_inv in H.
  - intros log' H. by apply try_endpoints_inv in H.
Qed.

(** The theorem on four candidates of which the third is the first to
    answer with status 200: the graph of its body is returned, the first
    three candidates were requested once, the fourth not at all. *)
Lemma fetch_nanopub_returns_first_success_witness :
  fetch_nanopub mirror_get mirror_parse "https://example.org/np/RA123" "trig" [] =
  (Some (demo_declaration "F1-D" "https://example.org/ARK"),
   ["https://example.org/np/RA123.trig";
    "https://np.petapico.org/RA123.trig";
    "https://server.np.trustyuri.net/RA123.trig"]).
Proof.
  apply (proj1 (proj2 (fetch_nanopub_returns_first_success
                         mirror_get mirror_parse "https://example.org/np/RA123" "trig" []))
           ["https://example.org/np/RA123.trig"; "https://np.petapico.org/RA123.trig"]
           "https://server.np.trustyuri.net/RA123.trig"
           ["https://w3id.org/np/RA123.trig"]).
  - reflexivity.
  - intros e'. rewrite !elem_of_cons, elem_of_nil. intros [-> | [-> | []]].
    + left. reflexivity.
    + right. exists 404%Z, "not found". split; [reflexivity | left; discriminate].
  - exists "third". split; reflexivity.
Defined.

(** C5, as stated, fails when the first candidate with status 200 has a
    body that the parser rejects: the exception is caught like any other,
    the next candidate is requested, and its graph is the one returned. *)
Lemma fetch_nanopub_passes_unparsable_body :
  page_get "https://example.org/np/RA123.trig" = Replied 200 "<html>" ∧
  page_parse "<html>" = None ∧
  fetch_nanopub page_get page_parse "https://example.org/np/RA123" "trig" [] =
  (Some (demo_declaration "F2-D" "https://example.org/DOI"),
   ["https://example.org/np/RA123.trig"; "https://np.petapico.org/RA123.trig"]).
Proof. by vm_compute. Qed.

(** ** The file pipeline *)

Section PipelineFacts.

Variable requests_get : string → Response.
Variable parse_trig : string → option ConjunctiveGraph.

#[local] Abbreviation fetch := (fetch_nanopub requests_get parse_trig).
#[local] Abbreviation loop := (fetch_loop requests_get parse_trig).
#[local] Abbreviation fetched := (fetched_declaration requests_get parse_trig).

(** The graph that a fetch returns does not depend on the log. *)
Lemma try_endpoints_result (l : list string) (log : list string) :
  fst (try_endpoints requests_get parse_trig l log) =
  fst (try_endpoints requests_get parse_trig l []).
Proof.
  revert log. induction l as [|e l IH]; intros log; [done|].
  rewrite !try_endpoints_cons.
  replace (fst (attempt requests_get parse_trig e log))
    with (fst (attempt requests_get parse_trig e [])) by reflexivity.
  destruct (fst (attempt requests_get parse_trig e [])) as [g|]; [done|].
  by rewrite (IH (log ++ [e])), (IH ([] ++ [e])).
Qed.

(** One pass of the loop. *)
Lemma fetch_loop_cons (u : string) (rest : list string)
      (acc : list Declaration) (log : list string) :
  loop (u :: rest) acc log =
  loop rest (acc ++ option_list (fetched u)) (snd (fetch u "trig" log)).
Proof.
  cbn [fetch_loop]. unfold net_bind at 1, fetched_declaration.
  unfold fetch_nanopub at 2. rewrite <-(try_endpoints_result _ log).
  fold (fetch u "trig"). destruct (fetch u "trig" log) as [[g|] log1]; simpl.
  - destruct (graph_truthy g); simpl; [|by rewrite app_nil_r].
    destruct (truthy (default "" (question_id (parse_declaration g)))); simpl;
      [done | by rewrite app_nil_r].
  - by rewrite app_nil_r.
Qed.

(** The loop: what it adds and what it requests. *)
Lemma fetch_loop_spec (uris : list string) (acc : list Declaration) (log : list string) :
  ∃ chunks,
    loop uris acc log = (acc ++ omap fetched uris, log ++ List.concat chunks) ∧
    Forall2 (λ u chunk, chunk ≠ [] ∧ chunk `prefix_of` endpoints u "trig") uris chunks.
Proof.
  revert acc log. induction uris as [|u uris IH]; intros acc log.
  - exists []. simpl. split; [by rewrite !app_nil_r | constructor].
  - rewrite fetch_loop_cons.
    destruct (try_endpoints_requests requests_get parse_trig (endpoints u "trig") log)
      as (chunk & Hlog & Hpre & Hne).
    unfold fetch_nanopub. rewrite Hlog.
    destruct (IH (acc ++ option_list (fetched u)) (log ++ chunk)) as (chunks & -> & HF).
    exists (chunk :: chunks). split.
    + simpl. rewrite <-!app_assoc. by destruct (fetched u).
    + constructor; [|done]. split; [apply Hne; by unfold endpoints | exact Hpre].
Qed.

Lemma fetched_has_id (u : string) (d : Declaration) :
  fetched u = Some d → ∃ q, question_id d = Some q ∧ truthy q = true.
Proof.
  unfold fetched_declaration.
  destruct (fst (fetch u "trig" [])) as [g|]; [|done].
  destruct (graph_truthy g); [|done].
  destruct (question_id (parse_declaration g)) as [q|] eqn:Q; simpl; [|done].
  destruct (truthy q) eqn:T; [|done]. intros [= <-]. by exists q.
Qed.

Lemma length_omap_le {A B} (f : A → option B) (l : list A) :
  (List.length (omap f l) ≤ List.length l)%nat.
Proof.
  induction l as [|x l IH]; [done|].
  change (omap f (x :: l)) with (match f x with
                                 | Some y => y :: omap f l
                                 | None => omap f l
                                 end).
  destruct (f x); simpl; lia.
Qed.

(** The run, when the index is fetched. *)
Lemma read_fip_from_file_fetched (header : ConjunctiveGraph) (log log1 : list string)
      (idx : string) (g : ConjunctiveGraph) :
  truthy_val (parse_fip_header header !! "declaration_index") = Some idx →
  fetch idx "trig" log = (Some g, log1) →
  graph_truthy g = true →
  ∃ chunks,
    read_fip_from_file requests_get parse_trig header true log =
      ((parse_fip_header header,
        omap fetched (slice_to 50 (extract_declarations_from_index g))),
       log1 ++ List.concat chunks) ∧
    Forall2 (λ u chunk, chunk ≠ [] ∧ chunk `prefix_of` endpoints u "trig")
            (slice_to 50 (extract_declarations_from_index g)) chunks.
Proof.
  intros Hidx Hfetch Hg. unfold read_fip_from_file. rewrite Hidx.
  unfold net_bind at 1. rewrite Hfetch, Hg.
  unfold net_bind, net_ret, fetch_declarations.
  destruct (fetch_loop_spec (slice_to 50 (extract_declarations_from_index g)) [] log1)
    as (chunks & -> & HF).
  by exists chunks.
Qed.

(** The declarations of a run: none, or the ones fetched for the first
    fifty URIs of the index. *)
Lemma read_fip_from_file_declarations (header : ConjunctiveGraph) (fetch_remote : bool)
      (log : list string) :
  snd (fst (read_fip_from_file requests_get parse_trig header fetch_remote log)) = [] ∨
  ∃ uris, snd (fst (read_fip_from_file requests_get parse_trig header fetch_remote log)) =
          omap fetched (slice_to 50 uris).
Proof.
  unfold read_fip_from_file.
  destruct (if fetch_remote
            then truthy_val (parse_fip_header header !! "declaration_index")
            else None) as [idx|]; [|by left].
  unfold net_bind, net_ret, fetch_declarations.
  destruct (fetch idx "trig" log) as [[g|] log1]; [|by left].
  destruct (graph_truthy g); [|by left].
  destruct (fetch_loop_spec (slice_to 50 (extract_declarations_from_index g)) [] log1)
    as (chunks & -> & _).
  right. by exists (extract_declarations_from_index g).
Qed.

End PipelineFacts.

(** ** Entries stay in the table *)

Module EntryFacts.

Import OrganizerFacts.

Lemma data_append_keeps (k k' : string) (x y : ResourceInfo) (b : Bucket)
      (m : gmap string Bucket) :
  m !! k' = Some b → y ∈ entries b →
  ∃ b', data_append k x m !! k' = Some b' ∧ y ∈ entries b'.
Proof.
  intros Hb Hy. unfold data_append. destruct (m !! k) as [b0|] eqn:E; [|eauto].
  destruct (decide (k = k')) as [-> | Hne].
  - rewrite lookup_insert_eq. eexists. split; [done|].
    rewrite Hb in E. injection E as <-. unfold entries in *. simpl.
    rewrite elem_of_app in Hy. rewrite !elem_of_app. tauto.
  - rewrite lookup_insert_ne by done. eauto.
Qed.

Lemma metadata_append_keeps (k k' : string) (x y : ResourceInfo) (b : Bucket)
      (m : gmap string Bucket) :
  m !! k' = Some b → y ∈ entries b →
  ∃ b', metadata_append k x m !! k' = Some b' ∧ y ∈ entries b'.
Proof.
  intros Hb Hy. unfold metadata_append. destruct (m !! k) as [b0|] eqn:E; [|eauto].
  destruct (decide (k = k')) as [-> | Hne].
  - rewrite lookup_insert_eq. eexists. split; [done|].
    rewrite Hb in E. injection E as <-. unfold entries in *. simpl.
    rewrite elem_of_app in Hy. rewrite !elem_of_app. tauto.
  - rewrite lookup_insert_ne by done. eauto.
Qed.

Lemma data_append_files (k : string) (x : ResourceInfo) (m : gmap string Bucket) :
  has_key k m = true → ∃ b', data_append k x m !! k = Some b' ∧ x ∈ entries b'.
Proof.
  unfold has_key, data_append. destruct (m !! k) as [b|] eqn:E; [|done]. intros _.
  rewrite lookup_insert_eq. eexists. split; [done|]. unfold entries. simpl.
  rewrite !elem_of_app, list_elem_of_singleton. tauto.
Qed.

Lemma metadata_append_files (k : string) (x : ResourceInfo) (m : gmap string Bucket) :
  has_key k m = true → ∃ b', metadata_append k x m !! k = Some b' ∧ x ∈ entries b'.
Proof.
  unfold has_key, metadata_append. destruct (m !! k) as [b|] eqn:E; [|done]. intros _.
  rewrite lookup_insert_eq. eexists. split; [done|]. unfold entries. simpl.
  rewrite !elem_of_app, list_elem_of_singleton. tauto.
Qed.

Lemma organize_step_keeps (m : gmap string Bucket) (d : Declaration) (k : string)
      (b : Bucket) (y : ResourceInfo) :
  m !! k = Some b → y ∈ entries b →
  ∃ b', organize_step m d !! k = Some b' ∧ y ∈ entries b'.
Proof.
  intros Hb Hy. unfold organize_step.
  destruct (question_id d) as [q|]; [|eauto].
  destruct (negb (truthy q)); [eauto|].
  destruct (split_question_id q) as [principle dtype].
  destruct (has_key principle m); [|eauto].
  destruct (String.eqb (upper dtype) "MD");
    [by eapply metadata_append_keeps | by eapply data_append_keeps].
Qed.

Lemma foldl_organize_keeps (ds : list Declaration) (m : gmap string Bucket) (k : string)
      (b : Bucket) (y : ResourceInfo) :
  m !! k = Some b → y ∈ entries b →
  ∃ b', foldl organize_step m ds !! k = Some b' ∧ y ∈ entries b'.
Proof.
  revert m b. induction ds as [|d ds IH]; intros m b Hb Hy; simpl; [eauto|].
  destruct (organize_step_keeps m d k b y Hb Hy) as (b1 & Hb1 & Hy1). eauto.
Qed.

Lemma organize_step_files (m : gmap string Bucket) (d : Declaration) (p : string) :
  principle_of d = Some p → has_key p m = true →
  ∃ b', organize_step m d !! p = Some b' ∧ resource_info d ∈ entries b'.
Proof.
  unfold principle_of, organize_step. destruct (question_id d) as [q|]; [|done].
  destruct (truthy q); simpl; [|done].
  destruct (split_question_id q) as [principle dtype]. simpl.
  intros [= ->] Hk. rewrite Hk.
  destruct (String.eqb (upper dtype) "MD");
    [by apply metadata_append_files | by apply data_append_files].
Qed.

(** A declaration of the input with a principle among the keys has its
    entry in the bucket of that principle. *)
Lemma organize_files (ds : list Declaration) (d : Declaration) (p : string) :
  d ∈ ds → principle_of d = Some p → p ∈ principle_keys →
  ∃ b, organize_by_principle ds !! p = Some b ∧ resource_info d ∈ entries b.
Proof.
  intros (pre & post & ->)%list_elem_of_split Hp Hk.
  unfold organize_by_principle. rewrite foldl_app. simpl.
  pose proof (proj2 (has_key_organize pre p) Hk) as Hkey.
  destruct (organize_step_files _ d p Hp Hkey) as (b1 & Hb1 & Hy1).
  by eapply foldl_organize_keeps.
Qed.

End EntryFacts.

(** C6, as amended: in every run of the file pipeline the keys of the
    table are the fifteen fixed strings; the declarations that reach the
    organizer are the ones fetched and parsed with a question id that is
    neither null nor empty; each of them whose principle (the id up to its
    last ['-'], or the whole id without one) is one of the fifteen keys has
    its entry in the bucket of that principle, and each of them whose
    principle is not one of the keys is dropped: the table is the one of
    the run without it.

    No other declaration is lost on the way.  When the index is fetched,
    the declarations of the run are, in order, the ones fetched for the
    first fifty URIs of the index; a declaration parsed from the graph
    fetched for one of these URIs reaches the organizer exactly when its
    question id is neither null nor empty, and then, with a principle
    among the fifteen keys, its entry is in the bucket of that principle.
    When the index is not fetched (no [fetch_remote], no declaration
    index in the header, no graph or an empty graph for the index), no
    declaration is parsed and the run has none. *)
Theorem file_pipeline_files_recognized_declarations
        (requests_get : string → Response)
        (parse_trig : string → option ConjunctiveGraph)
        (header : ConjunctiveGraph) (fetch_remote : bool) (log : list string)
        (info : gmap string PyVal) (decls : list Declaration) (log' : list string) :
  read_fip_from_file requests_get parse_trig header fetch_remote log = (info, decls, log') →
  read_fip_from_file_organized requests_get parse_trig header fetch_remote log =
    (organize_by_principle decls, log') ∧
  (∀ k, is_Some (organize_by_principle decls !! k) ↔ k ∈ principle_keys) ∧
  (decls = [] ∨
   ∃ uris, decls = omap (fetched_declaration requests_get parse_trig) (slice_to 50 uris)) ∧
  (∀ d, d ∈ decls → ∃ q, question_id d = Some q ∧ truthy q = true) ∧
  (∀ d p, d ∈ decls → principle_of d = Some p → p ∈ principle_keys →
          ∃ b, organize_by_principle decls !! p = Some b ∧ resource_info d ∈ entries b) ∧
  (∀ pre d post,
      decls = pre ++ d :: post →
      (∀ p, principle_of d = Some p → p ∉ principle_keys) →
      organize_by_principle decls = organize_by_principle (pre ++ post)) ∧
  (∀ idx g,
      fetch_remote = true →
      truthy_val (parse_fip_header header !! "declaration_index") = Some idx →
      fst (fetch_nanopub requests_get parse_trig idx "trig" log) = Some g →
      graph_truthy g = true →
      decls = omap (fetched_declaration requests_get parse_trig)
                   (slice_to 50 (extract_declarations_from_index g)) ∧
      ∀ decl_uri log0 decl_graph,
        decl_uri ∈ slice_to 50 (extract_declarations_from_index g) →
        fst (fetch_nanopub requests_get parse_trig decl_uri "trig" log0) = Some decl_graph →
        graph_truthy decl_graph = true →
        (parse_declaration decl_graph ∈ decls ↔
         ∃ q, question_id (parse_declaration decl_graph) = Some q ∧ truthy q = true) ∧
        (∀ p, principle_of (parse_declaration decl_graph) = Some p →
              p ∈ principle_keys →
              ∃ b, organize_by_principle decls !! p = Some b ∧
                   resource_info (parse_declaration decl_graph) ∈ entries b)) ∧
  ((fetch_remote = false ∨
    truthy_val (parse_fip_header header !! "declaration_index") = None ∨
    (∃ idx, truthy_val (parse_fip_header header !! "declaration_index") = Some idx ∧
            ∀ g, fst (fetch_nanopub requests_get parse_trig idx "trig" log) = Some g →
                 graph_truthy g = false)) →
   decls = []).
Proof.
  intros Hrun.
  pose proof (read_fip_from_file_declarations requests_get parse_trig header fetch_remote log)
    as Hd. rewrite Hrun in Hd. simpl in Hd.
  assert (Hfiles : ∀ d p, d ∈ decls → principle_of d = Some p → p ∈ principle_keys →
            ∃ b, organize_by_principle decls !! p = Some b ∧ resource_info d ∈ entries b).
  { intros d p. apply EntryFacts.organize_files. }
  assert (Hid : ∀ d, d ∈ decls → ∃ q, question_id d = Some q ∧ truthy q = true).
  { intros d Hin. destruct Hd as [-> | [uris ->]]; [by apply elem_of_nil in Hin|].
    apply list_elem_of_omap in Hin as (u & _ & Hu). by eapply fetched_has_id. }
  split_and!.
  - unfold read_fip_from_file_organized, net_bind, net_ret. by rewrite Hrun.
  - intros k. by rewrite <-elem_of_dom, OrganizerFacts.organize_dom,
                 OrganizerFacts.elem_of_key_set.
  - exact Hd.
  - exact Hid.
  - exact Hfiles.
  - intros pre d post -> Hp. apply OrganizerFacts.organize_skip.
    apply organize_step_unknown; [apply OrganizerFacts.organize_dom | done].
  - intros idx g -> Hidx Hfetch Hg.
    destruct (fetch_nanopub requests_get parse_trig idx "trig" log) as [r log1] eqn:Hf.
    cbn [fst] in Hfetch. subst r.
    destruct (read_fip_from_file_fetched requests_get parse_trig header log log1 idx g
                Hidx Hf Hg) as (chunks & Hrun' & _).
    rewrite Hrun in Hrun'. injection Hrun' as _ Hdecls _.
    split; [exact Hdecls|].
    intros decl_uri log0 decl_graph Hu Hdg Ht.
    assert (Hin : ∀ q, question_id (parse_declaration decl_graph) = Some q →
                       truthy q = true → parse_declaration decl_graph ∈ decls).
    { intros q Hq Htq. rewrite Hdecls. apply list_elem_of_omap.
      exists decl_uri. split; [exact Hu|]. unfold fetched_declaration, fetch_nanopub.
      unfold fetch_nanopub in Hdg.
      rewrite <-(try_endpoints_result requests_get parse_trig _ log0), Hdg, Ht, Hq.
      simpl. by rewrite Htq. }
    split.
    + split; [apply Hid | intros (q & Hq & Htq); by apply (Hin q)].
    + intros p Hp Hk. apply Hfiles; [|done | done].
      unfold principle_of in Hp.
      destruct (question_id (parse_declaration decl_graph)) as [q|] eqn:Hq; [|done].
      destruct (truthy q) eqn:Htq; [|done]. by apply (Hin q).
  - unfold read_fip_from_file in Hrun.
    intros [-> | [Hnone | (idx & Hidx & Hg)]].
    + by injection Hrun as _ <- _.
    + rewrite Hnone in Hrun. destruct fetch_remote; by injection Hrun as _ <- _.
    + rewrite Hidx in Hrun. destruct fetch_remote; [|by injection Hrun as _ <- _].
      unfold net_bind at 1 in Hrun.
      destruct (fetch_nanopub requests_get parse_trig idx "trig" log) as [[g|] log1];
        [|by injection Hrun as _ <- _].
      rewrite (Hg g eq_refl) in Hrun. by injection Hrun as _ <- _.
Qed.

(** The theorem at the run on the small network: two declarations are
    fetched and parsed, with the ids "F1-D" and "X9-D". *)
Lemma file_pipeline_files_recognized_declarations_witness :
  read_fip_from_file_organized demo_get demo_parse demo_header true [] =
  (organize_by_principle
     [parse_declaration (demo_declaration "F1-D" "https://example.org/ARK");
      parse_declaration (demo_declaration "X9-D" "https://example.org/DOI")],
   ["https://w3id.org/np/RAindex.trig"; "https://w3id.org/np/RAone.trig";
    "https://w3id.org/np/RAtwo.trig"]).
Proof.
  apply (file_pipeline_files_recognized_declarations
           demo_get demo_parse demo_header true [] (parse_fip_header demo_header)).
  vm_compute. reflexivity.
Defined.

(** C6, as stated, fails: in the run on the small network the declaration
    with the question id "X9-D" is fetched and parsed, its id is not null,
    and no bucket of the table holds its entry; the table is the one of
    the other declaration alone. *)
Lemma file_pipeline_drops_unknown_principle :
  let d1 := parse_declaration (demo_declaration "F1-D" "https://example.org/ARK") in
  let d2 := parse_declaration (demo_declaration "X9-D" "https://example.org/DOI") in
  (read_fip_from_file demo_get demo_parse demo_header true []).1.2 = [d1; d2] ∧
  question_id d2 = Some "X9-D" ∧
  (read_fip_from_file_organized demo_get demo_parse demo_header true []).1 =
    organize_by_principle [d1] ∧
  ¬ (∃ k b, (read_fip_from_file_organized demo_get demo_parse demo_header true []).1 !! k
            = Some b ∧ resource_info d2 ∈ entries b).
Proof.
  intros d1 d2.
  assert (E : (read_fip_from_file_organized demo_get demo_parse demo_header true []).1 =
              organize_by_principle [d1]) by (by vm_compute).
  split_and!; [by vm_compute | by vm_compute | exact E |].
  intros (k & b & Hk & Hin). rewrite E in Hk.
  assert (Hkey : k ∈ principle_keys).
  { apply OrganizerFacts.elem_of_key_set.
    rewrite <-(OrganizerFacts.organize_dom [d1]). by apply elem_of_dom_2 in Hk. }
  unfold principle_keys in Hkey. rewrite !elem_of_cons, elem_of_nil in Hkey.
  repeat (destruct Hkey as [-> | Hkey];
          [vm_compute in Hk; injection Hk as <-; vm_compute in Hin;
           first [ by apply elem_of_nil in Hin
                 | apply list_elem_of_singleton in Hin; discriminate Hin ] |]).
  done.
Qed.

(** C8: when the index is fetched, [read_fip_from_file] fetches the first
    fifty URIs of the list that the index yields and no other: its
    requests after the index are, URI by URI and in order, candidates of
    those URIs, at most fifty fetches, and its declarations are the ones
    fetched for them, at most fifty.  The URIs after the fiftieth do not
    enter the run, which returns all the same. *)
Theorem read_fip_from_file_takes_first_fifty
        (requests_get : string → Response)
        (parse_trig : string → option ConjunctiveGraph)
        (header : ConjunctiveGraph) (log log1 : list string)
        (idx : string) (g : ConjunctiveGraph) :
  truthy_val (parse_fip_header header !! "declaration_index") = Some idx →
  fetch_nanopub requests_get parse_trig idx "trig" log = (Some g, log1) →
  graph_truthy g = true →
  ∃ decls chunks,
    read_fip_from_file requests_get parse_trig header true log =
      (parse_fip_header header, decls, log1 ++ List.concat chunks) ∧
    decls = omap (fetched_declaration requests_get parse_trig)
                 (slice_to 50 (extract_declarations_from_index g)) ∧
    Forall2 (λ u chunk, chunk ≠ [] ∧ chunk `prefix_of` endpoints u "trig")
            (slice_to 50 (extract_declarations_from_index g)) chunks ∧
    (List.length chunks ≤ 50)%nat ∧
    (List.length decls ≤ 50)%nat ∧
    (∀ first beyond,
        extract_declarations_from_index g = first ++ beyond →
        List.length first = 50%nat →
        slice_to 50 (extract_declarations_from_index g) = first).
Proof.
  intros Hidx Hfetch Hg.
  destruct (read_fip_from_file_fetched requests_get parse_trig header log log1 idx g
              Hidx Hfetch Hg) as (chunks & Hrun & HF).
  eexists _, chunks. split_and!; [exact Hrun | reflexivity | exact HF | | |].
  - rewrite <-(Forall2_length _ _ _ HF). unfold slice_to. rewrite length_firstn. lia.
  - etrans; [apply length_omap_le|]. unfold slice_to. rewrite length_firstn. lia.
  - intros first beyond -> Hlen. unfold slice_to.
    rewrite firstn_app, Hlen, Nat.sub_diag, firstn_O, app_nil_r.
    rewrite <-Hlen. apply firstn_all.
Qed.

(** The theorem at an index of sixty declarations of which none can be
    fetched: fifty fetches of four requests each follow the request of the
    index. *)
Lemma read_fip_from_file_takes_first_fifty_witness :
  List.length (extract_declarations_from_index crowded_index) = 60%nat ∧
  List.length (read_fip_from_file crowded_get crowded_parse demo_header true []).2
    = 201%nat ∧
  ∃ decls chunks,
    read_fip_from_file crowded_get crowded_parse demo_header true [] =
      (parse_fip_header demo_header, decls,
       ["https://w3id.org/np/RAindex.trig"] ++ List.concat chunks) ∧
    decls = omap (fetched_declaration crowded_get crowded_parse)
                 (slice_to 50 (extract_declarations_from_index crowded_index)) ∧
    Forall2 (λ u chunk, chunk ≠ [] ∧ chunk `prefix_of` endpoints u "trig")
            (slice_to 50 (extract_declarations_from_index crowded_index)) chunks ∧
    (List.length chunks ≤ 50)%nat ∧
    (List.length decls ≤ 50)%nat ∧
    (∀ first beyond,
        extract_declarations_from_index crowded_index = first ++ beyond →
        List.length first = 50%nat →
        slice_to 50 (extract_declarations_from_index crowded_index) = first).
Proof.
  split; [by vm_compute|]. split; [by vm_compute|].
  apply (read_fip_from_file_takes_first_fifty
           crowded_get crowded_parse demo_header [] ["https://w3id.org/np/RAindex.trig"]
           "https://w3id.org/np/RAindex" crowded_index).
  - reflexivity.
  - reflexivity.
  - reflexivity.
Defined.



(** * Further properties *)

(** ** The buckets, entry by entry *)

Module BucketFacts.

Import OrganizerFacts.

Lemma data_append_lookup (k k' : string) (x : ResourceInfo) (b : Bucket)
      (m : gmap string Bucket) :
  has_key k m = true → m !! k' = Some b →
  data_append k x m !! k' =
  Some {| data := data b ++ (if decide (k = k') then [x] else []);
          metadata := metadata b |}.
Proof.
  unfold has_key, data_append. destruct (m !! k) as [b0|] eqn:E; [|done].
  intros _ Hb. destruct (decide (k = k')) as [-> | Hne].
  - rewrite lookup_insert_eq. rewrite Hb in E. by injection E as <-.
  - rewrite lookup_insert_ne by done. rewrite Hb, app_nil_r. by destruct b.
Qed.

Lemma metadata_append_lookup (k k' : string) (x : ResourceInfo) (b : Bucket)
      (m : gmap string Bucket) :
  has_key k m = true → m !! k' = Some b →
  metadata_append k x m !! k' =
  Some {| data := data b;
          metadata := metadata b ++ (if decide (k = k') then [x] else []) |}.
Proof.
  unfold has_key, metadata_append. destruct (m !! k) as [b0|] eqn:E; [|done].
  intros _ Hb. destruct (decide (k = k')) as [-> | Hne].
  - rewrite lookup_insert_eq. rewrite Hb in E. by injection E as <-.
  - rewrite lookup_insert_ne by done. rewrite Hb, app_nil_r. by destruct b.
Qed.

Lemma bucket_same (b : Bucket) :
  Some b = Some {| data := data b ++ []; metadata := metadata b ++ [] |}.
Proof. rewrite !app_nil_r. by destruct b. Qed.

(** What the loop body of [organize_by_principle] does to one bucket. *)
Lemma organize_step_lookup (m : gmap string Bucket) (d : Declaration) (k : string)
      (b : Bucket) :
  m !! k = Some b →
  organize_step m d !! k =
  Some {| data := data b ++
                  (if decide (principle_of d = Some k ∧ files_as_metadata d = false)
                   then [resource_info d] else []);
          metadata := metadata b ++
                  (if decide (principle_of d = Some k ∧ files_as_metadata d = true)
                   then [resource_info d] else []) |}.
Proof.
  intros Hb. unfold organize_step, principle_of, files_as_metadata.
  destruct (question_id d) as [q|].
  2:{ rewrite ?decide_False by (intros [? _]; done). rewrite Hb. apply bucket_same. }
  destruct (truthy q); simpl.
  2:{ rewrite ?decide_False by (intros [? _]; done). rewrite Hb. apply bucket_same. }
  destruct (split_question_id q) as [p t]. simpl.
  destruct (has_key p m) eqn:K.
  - destruct (String.eqb (upper t) "MD") eqn:T.
    + rewrite (metadata_append_lookup _ _ _ _ _ K Hb).
      rewrite (decide_False (P := _ ∧ true = false)) by (intros [_ ?]; done).
      rewrite app_nil_r. do 3 f_equal.
      destruct (decide (p = k)) as [-> | Hne].
      * by rewrite decide_True.
      * rewrite decide_False; [done|]. intros [[= ?] _]. done.
    + rewrite (data_append_lookup _ _ _ _ _ K Hb).
      rewrite (decide_False (P := _ ∧ false = true)) by (intros [_ ?]; done).
      rewrite app_nil_r. do 2 f_equal.
      destruct (decide (p = k)) as [-> | Hne].
      * by rewrite decide_True.
      * rewrite decide_False; [done|]. intros [[= ?] _]. done.
  - assert (p ≠ k).
    { intros ->. unfold has_key in K. by rewrite Hb in K. }
    rewrite !decide_False by (intros [[= ?] _]; done).
    rewrite Hb. apply bucket_same.
Qed.

Lemma foldl_organize_lookup (ds : list Declaration) (m : gmap string Bucket) (k : string)
      (b : Bucket) :
  m !! k = Some b →
  foldl organize_step m ds !! k =
  Some {| data := data b ++
            (resource_info <$>
               filter (λ d, principle_of d = Some k ∧ files_as_metadata d = false) ds);
          metadata := metadata b ++
            (resource_info <$>
               filter (λ d, principle_of d = Some k ∧ files_as_metadata d = true) ds) |}.
Proof.
  revert m b. induction ds as [|d ds IH]; intros m b Hb; cbn [foldl].
  - rewrite Hb. simpl. apply bucket_same.
  - rewrite (IH _ _ (organize_step_lookup m d k b Hb)). cbn [data metadata].
    rewrite !filter_cons.
    destruct (decide (principle_of d = Some k ∧ files_as_metadata d = false));
      destruct (decide (principle_of d = Some k ∧ files_as_metadata d = true));
      rewrite ?fmap_cons, <-?app_assoc; simpl; done.
Qed.

(** What the loop body of [organize_by_principle_from_json] does to one
    bucket. *)
Lemma organize_json_step_lookup (m : gmap string Bucket) (d : JsonDeclaration)
      (k : string) (b : Bucket) :
  truthy k = true →
  m !! k = Some b →
  organize_json_step m d !! k =
  Some {| data := data b ++
                  (if decide (j_principle d = Some k ∧ json_is_data d = true)
                   then [json_resource_info d] else []);
          metadata := metadata b ++
                  (if decide (j_principle d = Some k ∧ json_is_data d = false)
                   then [json_resource_info d] else []) |}.
Proof.
  intros Hk Hb. unfold organize_json_step, json_is_data.
  destruct (j_principle d) as [p|].
  2:{ rewrite ?decide_False by (intros [? _]; done). rewrite Hb. apply bucket_same. }
  destruct (truthy p && has_key p m) eqn:K.
  - apply andb_true_iff in K as [_ K].
    destruct (String.eqb (lower (get_default (j_data_type d) "data")) "data") eqn:T.
    + rewrite (data_append_lookup _ _ _ _ _ K Hb).
      rewrite (decide_False (P := _ ∧ true = false)) by (intros [_ ?]; done).
      rewrite app_nil_r. do 2 f_equal.
      destruct (decide (p = k)) as [-> | Hne].
      * by rewrite decide_True.
      * rewrite decide_False; [done|]. intros [[= ?] _]. done.
    + rewrite (metadata_append_lookup _ _ _ _ _ K Hb).
      rewrite (decide_False (P := _ ∧ false = true)) by (intros [_ ?]; done).
      rewrite app_nil_r. do 3 f_equal.
      destruct (decide (p = k)) as [-> | Hne].
      * by rewrite decide_True.
      * rewrite decide_False; [done|]. intros [[= ?] _]. done.
  - assert (p ≠ k).
    { intros ->. unfold has_key in K. by rewrite Hb, Hk in K. }
    rewrite !decide_False by (intros [[= ?] _]; done).
    rewrite Hb. apply bucket_same.
Qed.

Lemma foldl_organize_json_lookup (ds : list JsonDeclaration) (m : gmap string Bucket)
      (k : string) (b : Bucket) :
  truthy k = true →
  m !! k = Some b →
  foldl organize_json_step m ds !! k =
  Some {| data := data b ++
            (json_resource_info <$>
               filter (λ d, j_principle d = Some k ∧ json_is_data d = true) ds);
          metadata := metadata b ++
            (json_resource_info <$>
               filter (λ d, j_principle d = Some k ∧ json_is_data d = false) ds) |}.
Proof.
  intros Hk. revert m b. induction ds as [|d ds IH]; intros m b Hb; cbn [foldl].
  - rewrite Hb. simpl. apply bucket_same.
  - rewrite (IH _ _ (organize_json_step_lookup m d k b Hk Hb)). cbn [data metadata].
    rewrite !filter_cons.
    destruct (decide (j_principle d = Some k ∧ json_is_data d = true));
      destruct (decide (j_principle d = Some k ∧ json_is_data d = false));
      rewrite ?fmap_cons, <-?app_assoc; simpl; done.
Qed.

Lemma organized_init_lookup (k : string) :
  k ∈ principle_keys → organized_init !! k = Some {| data := []; metadata := [] |}.
Proof.
  unfold principle_keys. rewrite !elem_of_cons, elem_of_nil.
  intros H. repeat (destruct H as [-> | H]; [by vm_compute|]). done.
Qed.

End BucketFacts.

(** X1: the bucket of a key holds, in its data list and in its metadata
    list, the entries of the declarations filed under that key with that
    type, in the order of the input and once each. *)
Theorem organize_by_principle_buckets (ds : list Declaration) (k : string) :
  k ∈ principle_keys →
  organize_by_principle ds !! k =
  Some {| data :=
            resource_info <$>
              filter (λ d, principle_of d = Some k ∧ files_as_metadata d = false) ds;
          metadata :=
            resource_info <$>
              filter (λ d, principle_of d = Some k ∧ files_as_metadata d = true) ds |}.
Proof.
  intros Hk. unfold organize_by_principle.
  by rewrite (BucketFacts.foldl_organize_lookup _ _ _ _
                (BucketFacts.organized_init_lookup k Hk)).
Qed.

(** The theorem at three declarations, two of them under F1. *)
Lemma organize_by_principle_buckets_witness :
  organize_by_principle
    [mkDeclaration None (Some "F1-D") (Some "ARK") None "current";
     mkDeclaration None (Some "F2-MD") (Some "DCAT") None "current";
     mkDeclaration None (Some "F1-md") (Some "DOI") None "planned"] !! "F1" =
  Some {| data := [mkResourceInfo (Some "ARK") None (Some "current")];
          metadata := [mkResourceInfo (Some "DOI") None (Some "planned")] |}.
Proof.
  rewrite (organize_by_principle_buckets _ "F1");
    [reflexivity | unfold principle_keys; rewrite !elem_of_cons; tauto].
Defined.

(** X2: the same for the organizer of the JSON pipeline: the bucket of a
    key holds the entries of the declarations with that principle, those
    of type "data" (in any letter case) in the data list and the others in
    the metadata list, in the order of the input and once each. *)
Theorem organize_by_principle_from_json_buckets (ds : list JsonDeclaration) (k : string) :
  k ∈ principle_keys →
  organize_by_principle_from_json ds !! k =
  Some {| data :=
            json_resource_info <$>
              filter (λ d, j_principle d = Some k ∧ json_is_data d = true) ds;
          metadata :=
            json_resource_info <$>
              filter (λ d, j_principle d = Some k ∧ json_is_data d = false) ds |}.
Proof.
  intros Hk. unfold organize_by_principle_from_json.
  by rewrite (BucketFacts.foldl_organize_json_lookup _ _ _ _
                (OrganizerFacts.keys_truthy k Hk)
                (BucketFacts.organized_init_lookup k Hk)).
Qed.

(** The theorem at two declarations under I1. *)
Lemma organize_by_principle_from_json_buckets_witness :
  organize_by_principle_from_json
    [mkJsonDeclaration None (Some "RDF") None None (Some "I1") (Some "DATA");
     mkJsonDeclaration None (Some "OWL") None None (Some "I1") (Some "Metadata")] !! "I1" =
  Some {| data := [mkResourceInfo (Some "RDF") None (Some "current")];
          metadata := [mkResourceInfo (Some "OWL") None (Some "current")] |}.
Proof.
  rewrite (organize_by_principle_from_json_buckets _ "I1");
    [reflexivity | unfold principle_keys; rewrite !elem_of_cons; tauto].
Defined.

(** ** The JSON pipeline *)

Module JsonFacts.

Lemma find_none_iff {A} (f : A → bool) (l : list A) :
  List.find f l = None ↔ ∀ x, x ∈ l → f x = false.
Proof.
  induction l as [|a l IH]; simpl.
  - split; [intros _ x H; by apply elem_of_nil in H | done].
  - destruct (f a) eqn:E.
    + split; [done|]. intros H. rewrite (H a) in E; [done | by left].
    + rewrite IH. split.
      * intros H x [-> | Hx]%elem_of_cons; auto.
      * intros H x Hx. apply H. by right.
Qed.

(** The principles of the table are keys of the organized table, and
    its types are "Data" and "Metadata". *)
Lemma FIP_QUESTIONS_values (q_key principle dtype : string) :
  (q_key, (principle, dtype)) ∈ FIP_QUESTIONS →
  principle ∈ principle_keys ∧ (dtype = "Data" ∨ dtype = "Metadata").
Proof.
  unfold FIP_QUESTIONS. rewrite !elem_of_cons, elem_of_nil. intros H.
  repeat (destruct H as [[= -> -> ->] | H];
          [split; [unfold principle_keys; rewrite !elem_of_cons; tauto | tauto] |]).
  done.
Qed.

Lemma principle_match_Some (path principle dtype : string) :
  principle_match path = Some (principle, dtype) →
  ∃ q_key, (q_key, (principle, dtype)) ∈ FIP_QUESTIONS ∧
           contains (lower q_key) (lower path) = true.
Proof.
  unfold principle_match.
  destruct (List.find _ FIP_QUESTIONS) as [[q_key v]|] eqn:F; [|done].
  simpl. intros [= ->]. apply find_some in F as [Hin Hc].
  exists q_key. split; [by apply list_elem_of_In | done].
Qed.

(** A declaration of [read_replies] comes from an item of a reply whose
    path is matched. *)
Lemma read_replies_elem (replies : list Reply) (jd : JsonDeclaration) :
  jd ∈ read_replies replies ↔
  ∃ reply pm it,
    reply ∈ replies ∧
    principle_match (get_default (r_path reply) "") = Some pm ∧
    it ∈ r_items reply ∧
    jd = item_declaration (get_default (r_path reply) "") pm it.
Proof.
  unfold read_replies. rewrite list_elem_of_bind. split.
  - intros (reply & Hjd & Hr).
    destruct (principle_match (get_default (r_path reply) "")) as [pm|] eqn:E;
      [|by apply elem_of_nil in Hjd].
    apply list_elem_of_fmap in Hjd as (it & -> & Hit). by exists reply, pm, it.
  - intros (reply & pm & it & Hr & Hpm & Hit & ->). exists reply. split; [|done].
    rewrite Hpm. apply list_elem_of_fmap. by exists it.
Qed.

End JsonFacts.

(** X3: the JSON pipeline drops no declaration that it builds: every
    declaration of [read_fip_from_json] has one of the fifteen keys as its
    principle, "Data" or "Metadata" as its type, and its entry in the
    bucket of its principle of the organized table: in the data list for
    "Data", in the metadata list for "Metadata". *)
Theorem read_fip_from_json_declarations_are_filed
        (doc : JsonExport) (jd : JsonDeclaration) :
  jd ∈ (read_fip_from_json doc).2 →
  ∃ principle dtype b,
    j_principle jd = Some principle ∧
    j_data_type jd = Some dtype ∧
    principle ∈ principle_keys ∧
    organize_by_principle_from_json (read_fip_from_json doc).2 !! principle = Some b ∧
    ((dtype = "Data" ∧ json_resource_info jd ∈ data b) ∨
     (dtype = "Metadata" ∧ json_resource_info jd ∈ metadata b)).
Proof.
  unfold read_fip_from_json. cbn [snd]. intros Hjd.
  pose proof Hjd as Hin.
  apply JsonFacts.read_replies_elem in Hjd as (reply & [principle dtype] & it & _ & Hpm & _ & E).
  apply JsonFacts.principle_match_Some in Hpm as (q_key & Hq & _).
  apply JsonFacts.FIP_QUESTIONS_values in Hq as [Hk Hd].
  assert (Hp : j_principle jd = Some principle) by (by rewrite E).
  assert (Ht : j_data_type jd = Some dtype) by (by rewrite E).
  exists principle, dtype. eexists. split_and!; try done.
  - unfold organize_by_principle_from_json.
    apply (BucketFacts.foldl_organize_json_lookup _ _ _ _
             (OrganizerFacts.keys_truthy _ Hk)
             (BucketFacts.organized_init_lookup _ Hk)).
  - cbn [data metadata]. destruct Hd as [-> | ->]; [left | right]; (split; [done|]);
      apply list_elem_of_fmap; exists jd; (split; [done|]);
      apply list_elem_of_filter; (split; [|done]); split; try done;
      unfold json_is_data; by rewrite Ht.
Qed.

(** The theorem at an export with one reply to the question F1-D. *)
Lemma read_fip_from_json_declarations_are_filed_witness :
  ∃ principle dtype b,
    j_principle (item_declaration "FIP-Question-F1-D" ("F1", "Data")
                   (mkItem (Some "ARK") None None (Some "https://ark.example") None))
      = Some principle ∧
    j_data_type (item_declaration "FIP-Question-F1-D" ("F1", "Data")
                   (mkItem (Some "ARK") None None (Some "https://ark.example") None))
      = Some dtype ∧
    principle ∈ principle_keys ∧
    organize_by_principle_from_json
      (read_fip_from_json
         (mkJsonExport (Some (PStr "Test FIP")) None None None None None None
            (Some [mkReply (Some "FIP-Question-F1-D")
                     [mkItem (Some "ARK") None None (Some "https://ark.example") None]]))).2
      !! principle = Some b ∧
    ((dtype = "Data" ∧
      json_resource_info
        (item_declaration "FIP-Question-F1-D" ("F1", "Data")
           (mkItem (Some "ARK") None None (Some "https://ark.example") None)) ∈ data b) ∨
     (dtype = "Metadata" ∧
      json_resource_info
        (item_declaration "FIP-Question-F1-D" ("F1", "Data")
           (mkItem (Some "ARK") None None (Some "https://ark.example") None)) ∈ metadata b)).
Proof.
  apply (read_fip_from_json_declarations_are_filed
           (mkJsonExport (Some (PStr "Test FIP")) None None None None None None
              (Some [mkReply (Some "FIP-Question-F1-D")
                       [mkItem (Some "ARK") None None (Some "https://ark.example") None]]))).
  vm_compute. by left.
Defined.

(** X4: a reply is matched exactly when its path holds, letter case
    aside, one of the keys of [FIP_QUESTIONS]; the match is the entry of
    the first such key of the table, and no key of the table is shadowed
    by a key before it: a path that is a key is matched to the entry of
    that key. *)
Theorem principle_match_first_key (path : string) :
  (principle_match path = None ↔
   ∀ q_key, q_key ∈ question_keys → contains (lower q_key) (lower path) = false) ∧
  (∀ pm, principle_match path = Some pm →
         ∃ q_key before after,
           FIP_QUESTIONS = before ++ (q_key, pm) :: after ∧
           contains (lower q_key) (lower path) = true ∧
           ∀ e, e ∈ before → contains (lower e.1) (lower path) = false) ∧
  (∀ pm, (path, pm) ∈ FIP_QUESTIONS → principle_match path = Some pm).
Proof.
  split_and!.
  - unfold principle_match. rewrite fmap_None, JsonFacts.find_none_iff.
    unfold question_keys. split.
    + intros H q_key (e & -> & He)%list_elem_of_fmap. specialize (H e He).
      by destruct e.
    + intros H [q_key v] He. apply H. apply list_elem_of_fmap. by exists (q_key, v).
  - unfold principle_match. intros pm.
    generalize FIP_QUESTIONS as table. intros table.
    induction table as [|[k v] table IH]; simpl; [done|].
    destruct (contains (lower k) (lower path)) eqn:E.
    + simpl. intros [= ->]. exists k, [], table. split_and!; try done.
      intros e He. by apply elem_of_nil in He.
    + intros H. destruct (IH H) as (q & before & after & -> & Hq & Hb).
      exists q, ((k, v) :: before), after. split_and!; try done.
      intros e [-> | He]%elem_of_cons; auto.
  - intros pm. unfold FIP_QUESTIONS at 1. rewrite !elem_of_cons, elem_of_nil.
    intros H. repeat (destruct H as [[= -> ->] | H]; [by vm_compute|]). done.
Qed.

(** X5: the two pipelines file every question of [FIP_QUESTIONS] alike,
    FIP-Question-A2 aside: a declaration whose question id is the text of
    the key after "FIP-Question-" has, in [organize_by_principle], the
    principle that the table gives, and goes to the metadata list exactly
    when the JSON declaration of that key does. *)
Theorem pipelines_agree_on_questions
        (q_key principle dtype : string) (d : Declaration) (it : Item) :
  (q_key, (principle, dtype)) ∈ FIP_QUESTIONS →
  q_key ≠ "FIP-Question-A2" →
  question_id d = Some (last (split "FIP-Question-" q_key)) →
  principle_of d = j_principle (item_declaration q_key (principle, dtype) it) ∧
  files_as_metadata d = negb (json_is_data (item_declaration q_key (principle, dtype) it)).
Proof.
  unfold principle_of, files_as_metadata, json_is_data. cbn [item_declaration j_principle
    j_data_type fst snd get_default].
  unfold FIP_QUESTIONS. rewrite !elem_of_cons, elem_of_nil. intros H Hne Hq. rewrite Hq.
  repeat (destruct H as [[= -> -> ->] | H]; [first [done | by vm_compute] |]). done.
Qed.

(** The theorem at the question R1.2-MD. *)
Lemma pipelines_agree_on_questions_witness :
  principle_of (mkDeclaration None (Some "R1.2-MD") None None "current") =
    j_principle (item_declaration "FIP-Question-R1.2-MD" ("R1.2", "Metadata")
                   (mkItem (Some "PROV-O") None None None None)) ∧
  files_as_metadata (mkDeclaration None (Some "R1.2-MD") None None "current") =
    negb (json_is_data (item_declaration "FIP-Question-R1.2-MD" ("R1.2", "Metadata")
                          (mkItem (Some "PROV-O") None None None None))).
Proof.
  apply (pipelines_agree_on_questions "FIP-Question-R1.2-MD" "R1.2" "Metadata").
  - unfold FIP_QUESTIONS. rewrite !elem_of_cons. tauto.
  - discriminate.
  - reflexivity.
Defined.

(** ** The resource of a declaration *)

Module ResourceFacts.

Import PyStrFacts.

Lemma question_update_resource (o_str : string) (d : Declaration) :
  resource_uri (question_update o_str d) = resource_uri d ∧
  resource_type (question_update o_str d) = resource_type d ∧
  resource_label (question_update o_str d) = resource_label d.
Proof.
  unfold question_update.
  destruct (contains "FIP-Question-" o_str); [done|].
  by destruct (contains "/F" o_str || contains "/A" o_str
               || contains "/I" o_str || contains "/R" o_str).
Qed.

Lemma question_update_question (o_str : string) (d : Declaration) :
  question (question_update o_str d) = Some o_str.
Proof.
  unfold question_update.
  destruct (contains "FIP-Question-" o_str); [done|].
  by destruct (contains "/F" o_str || contains "/A" o_str
               || contains "/I" o_str || contains "/R" o_str).
Qed.

(** What the loop body does to the resource. *)
Lemma declaration_step_resource (st : Declaration * gmap string string) (s p o : Term) :
  (resource_uri (declaration_step st (s, p, o)).1,
   resource_type (declaration_step st (s, p, o)).1) =
  match resource_writer (str p) with
  | Some ty => (Some (str o), ty)
  | None => (resource_uri st.1, resource_type st.1)
  end.
Proof.
  destruct st as [d labels]. unfold declaration_step, resource_writer. cbn [fst].
  destruct (question_update_resource (str o) d) as (E1 & E2 & _).
  destruct (is_predicate "refers-to-question" _ (str p));
    destruct (is_predicate "declares-current-use-of" _ (str p));
    destruct (is_predicate "declares-planned-use-of" _ (str p));
    destruct (is_predicate "declares-planned-replacement-of" _ (str p));
    cbn [set_resource resource_uri resource_type]; rewrite ?E1, ?E2; reflexivity.
Qed.

Lemma declaration_step_label (st : Declaration * gmap string string) (t : Triple) :
  resource_label (declaration_step st t).1 = resource_label st.1.
Proof.
  destruct st as [d labels], t as [[s p] o]. unfold declaration_step. cbn [fst].
  destruct (question_update_resource (str o) d) as (_ & _ & E3).
  destruct (is_predicate "refers-to-question" _ (str p));
    destruct (is_predicate "declares-current-use-of" _ (str p));
    destruct (is_predicate "declares-planned-use-of" _ (str p));
    destruct (is_predicate "declares-planned-replacement-of" _ (str p));
    cbn [set_resource resource_label]; rewrite ?E3; reflexivity.
Qed.

Lemma declaration_step_question (st : Declaration * gmap string string) (s p o : Term) :
  question (declaration_step st (s, p, o)).1 =
  if is_predicate "refers-to-question" fip_refers_to_question (str p)
  then Some (str o) else question st.1.
Proof.
  destruct st as [d labels]. unfold declaration_step. cbn [fst].
  pose proof (question_update_question (str o) d) as E.
  destruct (is_predicate "refers-to-question" _ (str p));
    destruct (is_predicate "declares-current-use-of" _ (str p));
    destruct (is_predicate "declares-planned-use-of" _ (str p));
    destruct (is_predicate "declares-planned-replacement-of" _ (str p));
    cbn [set_resource question]; rewrite ?E; reflexivity.
Qed.

Lemma declaration_step_labels (st : Declaration * gmap string string) (s p o : Term) :
  (declaration_step st (s, p, o)).2 =
  set_if (contains "label" (lower (str p))) (str s) (str o) st.2.
Proof. by destruct st as [d labels]. Qed.

(** The resource after the loop: the one of the last triple that wrote
    it. *)
Lemma foldl_resource_unwritten (ts : list Triple) (st : Declaration * gmap string string) :
  (∀ t, t ∈ ts → resource_writer (str t.1.2) = None) →
  resource_uri (foldl declaration_step st ts).1 = resource_uri st.1 ∧
  resource_type (foldl declaration_step st ts).1 = resource_type st.1.
Proof.
  revert st. induction ts as [|[[s p] o] ts IH]; intros st H; cbn [foldl]; [done|].
  destruct (IH (declaration_step st (s, p, o))) as [-> ->].
  { intros t Ht. apply H. by right. }
  pose proof (declaration_step_resource st s p o) as E.
  pose proof (H (s, p, o)) as Hw. cbn [fst snd] in Hw.
  rewrite Hw in E by (by left). by injection E as -> ->.
Qed.

Lemma foldl_label_unwritten (ts : list Triple) (st : Declaration * gmap string string) :
  resource_label (foldl declaration_step st ts).1 = resource_label st.1.
Proof.
  revert st. induction ts as [|t ts IH]; intros st; cbn [foldl]; [done|].
  by rewrite IH, declaration_step_label.
Qed.

Lemma foldl_labels_unmatched (ts : list Triple) (st : Declaration * gmap string string)
      (uri : string) :
  (∀ t, t ∈ ts → labels_subject uri t = false) →
  (foldl declaration_step st ts).2 !! uri = st.2 !! uri.
Proof.
  revert st. induction ts as [|[[s p] o] ts IH]; intros st H; cbn [foldl]; [done|].
  rewrite IH by (intros t Ht; apply H; by right).
  rewrite declaration_step_labels. pose proof (H (s, p, o)) as E.
  unfold labels_subject in E. unfold set_if.
  destruct (contains "label" (lower (str p))); [|done].
  rewrite andb_true_r in E. apply lookup_insert_ne. intros Heq.
  rewrite Heq, String.eqb_refl in E. by discriminate E; left.
Qed.

Lemma foldl_labels_last (pre post : list Triple) (st : Declaration * gmap string string)
      (s p o : Term) (uri : string) :
  labels_subject uri (s, p, o) = true →
  (∀ t, t ∈ post → labels_subject uri t = false) →
  (foldl declaration_step st (pre ++ (s, p, o) :: post)).2 !! uri = Some (str o).
Proof.
  intros Ht Hpost. rewrite foldl_app. cbn [foldl].
  rewrite (foldl_labels_unmatched _ _ _ Hpost), declaration_step_labels.
  unfold labels_subject in Ht. apply andb_true_iff in Ht as [->%String.eqb_eq ->].
  apply lookup_insert_eq.
Qed.

Lemma resolve_label_resource (st : Declaration * gmap string string) :
  resource_uri (resolve_label st) = resource_uri st.1 ∧
  resource_type (resolve_label st) = resource_type st.1 ∧
  question (resolve_label st) = question st.1.
Proof.
  destruct st as [d labels]. unfold resolve_label. simpl.
  destruct (resource_uri d) as [uri|] eqn:E; [|by rewrite E].
  destruct (truthy uri); [|by rewrite E].
  destruct (labels !! uri); [by rewrite <-E|].
  destruct (contains "#" uri); [by rewrite <-E|].
  destruct (contains "/" uri); [|by rewrite E].
  destruct (truthy (last (split "/" uri))); by rewrite <-E.
Qed.

Lemma map_chars_compose (f g : ascii → ascii) (x : string) :
  map_chars g (map_chars f x) = map_chars (λ c, g (f c)) x.
Proof. induction x as [|c x IH]; simpl; [done | by rewrite IH]. Qed.

Lemma contains_char_map (a : ascii) (f : ascii → ascii) (x : string) :
  (∀ c, Ascii.eqb a (f c) = false) → contains (String a "") (map_chars f x) = false.
Proof.
  intros H. induction x as [|c x IH]; [done|].
  simpl. by rewrite H, IH.
Qed.

(** A fallback label holds no ['-'] and no ['_']. *)
Lemma spaced_clean (x : string) :
  contains "-" (spaced x) = false ∧ contains "_" (spaced x) = false.
Proof.
  unfold spaced, replace. rewrite map_chars_compose.
  split; apply contains_char_map; intros c;
    destruct c as [[] [] [] [] [] [] [] []]; reflexivity.
Qed.

(** The loop keeps the declaration well formed. *)
Lemma foldl_well_formed (ts : list Triple) (st : Declaration * gmap string string) :
  (question st.1 = None → question_id st.1 = None) ∧
  (resource_uri st.1 = None → resource_type st.1 = "current") ∧
  resource_type st.1 ∈ ["current"; "planned"; "replacement"] →
  (question (foldl declaration_step st ts).1 = None →
   question_id (foldl declaration_step st ts).1 = None) ∧
  (resource_uri (foldl declaration_step st ts).1 = None →
   resource_type (foldl declaration_step st ts).1 = "current") ∧
  resource_type (foldl declaration_step st ts).1 ∈ ["current"; "planned"; "replacement"].
Proof.
  revert st. induction ts as [|[[s p] o] ts IH]; intros st (I1 & I2 & I3); cbn [foldl].
  - done.
  - apply IH.
    pose proof (declaration_step_resource st s p o) as E.
    pose proof (declaration_step_question st s p o) as Q.
    pose proof (DeclarationFacts.declaration_step_question_id st s p o) as Qid.
    split_and!.
    + rewrite Q, Qid.
      destruct (is_predicate "refers-to-question" _ (str p)); [done | exact I1].
    + unfold resource_writer in E.
      destruct (is_predicate "declares-planned-replacement-of" _ (str p));
        [injection E as -> ->; done|].
      destruct (is_predicate "declares-planned-use-of" _ (str p));
        [injection E as -> ->; done|].
      destruct (is_predicate "declares-current-use-of" _ (str p));
        injection E as -> ->; done.
    + unfold resource_writer in E.
      destruct (is_predicate "declares-planned-replacement-of" _ (str p));
        [injection E as _ ->; rewrite !elem_of_cons; tauto|].
      destruct (is_predicate "declares-planned-use-of" _ (str p));
        [injection E as _ ->; rewrite !elem_of_cons; tauto|].
      destruct (is_predicate "declares-current-use-of" _ (str p));
        injection E as _ ->; [rewrite !elem_of_cons; tauto | done].
Qed.

End ResourceFacts.

(** X6: whatever the graph, the declaration that [parse_declaration]
    returns has a question id only with a question, a resource label only
    with a resource URI, the type "current" when it has no resource URI,
    and one of the types "current", "planned" and "replacement". *)
Theorem parse_declaration_is_well_formed (g : ConjunctiveGraph) :
  (question (parse_declaration g) = None → question_id (parse_declaration g) = None) ∧
  (resource_uri (parse_declaration g) = None →
   resource_label (parse_declaration g) = None ∧
   resource_type (parse_declaration g) = "current") ∧
  resource_type (parse_declaration g) ∈ ["current"; "planned"; "replacement"].
Proof.
  unfold parse_declaration.
  set (final := foldl declaration_step (declaration_init, ∅) (triples g)).
  assert (Inv : (question final.1 = None → question_id final.1 = None) ∧
                (resource_uri final.1 = None → resource_type final.1 = "current") ∧
                resource_type final.1 ∈ ["current"; "planned"; "replacement"]).
  { apply ResourceFacts.foldl_well_formed. split_and!; [done | done | by left]. }
  assert (Hl : resource_label final.1 = None)
    by apply ResourceFacts.foldl_label_unwritten.
  destruct Inv as (I1 & I2 & I3).
  destruct (ResourceFacts.resolve_label_resource final) as (R1 & R2 & R3).
  rewrite DeclarationFacts.resolve_label_question_id, R1, R2, R3.
  split_and!; [done | | done].
  intros Hnone. split; [|by apply I2].
  destruct final as [d labels]. unfold resolve_label. simpl in *. by rewrite Hnone.
Qed.

(** X7: the resource of a declaration is the one of the last triple, in
    the order of the visit, whose predicate is a resource predicate: its
    object is the resource URI, and the type is "replacement", "planned" or
    "current" after the predicate.  The three predicates of the FIP
    vocabulary write their own type each, and a graph without a resource
    predicate has no resource URI. *)
Theorem parse_declaration_last_resource_wins
        (g : ConjunctiveGraph) (pre post : list Triple) (s p o : Term) (ty : string) :
  triples g = pre ++ (s, p, o) :: post →
  resource_writer (str p) = Some ty →
  (∀ t, t ∈ post → resource_writer (str t.1.2) = None) →
  resource_uri (parse_declaration g) = Some (str o) ∧
  resource_type (parse_declaration g) = ty ∧
  resource_writer fip_declares_current_use_of = Some "current" ∧
  resource_writer fip_declares_planned_use_of = Some "planned" ∧
  resource_writer fip_declares_planned_replacement_of = Some "replacement".
Proof.
  intros Hg Hw Hpost. unfold parse_declaration.
  destruct (ResourceFacts.resolve_label_resource
              (foldl declaration_step (declaration_init, ∅) (triples g))) as (-> & -> & _).
  rewrite Hg, foldl_app. cbn [foldl].
  destruct (ResourceFacts.foldl_resource_unwritten post
              (declaration_step (foldl declaration_step (declaration_init, ∅) pre) (s, p, o))
              Hpost) as [-> ->].
  pose proof (ResourceFacts.declaration_step_resource
                (foldl declaration_step (declaration_init, ∅) pre) s p o) as E.
  rewrite Hw in E. injection E as -> ->. split_and!; reflexivity.
Qed.

(** The theorem at a declaration that first declares the current use of a
    resource and then the planned replacement of another. *)
Lemma parse_declaration_last_resource_wins_witness :
  resource_uri
    (parse_declaration
       [mkContext "assertion"
          [(URIRef "https://example.org/decl", URIRef fip_declares_current_use_of,
            URIRef "https://example.org/ARK");
           (URIRef "https://example.org/decl", URIRef fip_declares_planned_replacement_of,
            URIRef "https://example.org/DOI");
           (URIRef "https://example.org/decl", URIRef fip_refers_to_question,
            URIRef "https://w3id.org/fair/fip/terms/FIP-Question-F1-D")]])
    = Some "https://example.org/DOI" ∧
  resource_type
    (parse_declaration
       [mkContext "assertion"
          [(URIRef "https://example.org/decl", URIRef fip_declares_current_use_of,
            URIRef "https://example.org/ARK");
           (URIRef "https://example.org/decl", URIRef fip_declares_planned_replacement_of,
            URIRef "https://example.org/DOI");
           (URIRef "https://example.org/decl", URIRef fip_refers_to_question,
            URIRef "https://w3id.org/fair/fip/terms/FIP-Question-F1-D")]])
    = "replacement".
Proof.
  destruct (parse_declaration_last_resource_wins
              [mkContext "assertion"
                 [(URIRef "https://example.org/decl", URIRef fip_declares_current_use_of,
                   URIRef "https://example.org/ARK");
                  (URIRef "https://example.org/decl",
                   URIRef fip_declares_planned_replacement_of,
                   URIRef "https://example.org/DOI");
                  (URIRef "https://example.org/decl", URIRef fip_refers_to_question,
                   URIRef "https://w3id.org/fair/fip/terms/FIP-Question-F1-D")]]
              [(URIRef "https://example.org/decl", URIRef fip_declares_current_use_of,
                URIRef "https://example.org/ARK")]
              [(URIRef "https://example.org/decl", URIRef fip_refers_to_question,
                URIRef "https://w3id.org/fair/fip/terms/FIP-Question-F1-D")]
              (URIRef "https://example.org/decl")
              (URIRef fip_declares_planned_replacement_of)
              (URIRef "https://example.org/DOI") "replacement")
    as (H1 & H2 & _).
  - reflexivity.
  - reflexivity.
  - intros t Ht. apply list_elem_of_singleton in Ht as ->. reflexivity.
  - split; [exact H1 | exact H2].
Defined.

(** X8: the labels are collected over the whole graph, before or after
    the resource: when the resource URI of the result is the subject of a
    triple whose predicate holds "label" in any letter case, the resource
    label is the object of the last such triple. *)
Theorem parse_declaration_label_of_resource
        (g : ConjunctiveGraph) (pre post : list Triple) (s p o : Term) (uri : string) :
  resource_uri (parse_declaration g) = Some uri →
  truthy uri = true →
  triples g = pre ++ (s, p, o) :: post →
  labels_subject uri (s, p, o) = true →
  (∀ t, t ∈ post → labels_subject uri t = false) →
  resource_label (parse_declaration g) = Some (str o).
Proof.
  intros Huri Ht Hg Hl Hpost. unfold parse_declaration in *.
  destruct (ResourceFacts.resolve_label_resource
              (foldl declaration_step (declaration_init, ∅) (triples g))) as (R & _ & _).
  rewrite R in Huri.
  pose proof (ResourceFacts.foldl_labels_last pre post (declaration_init, ∅) s p o uri
                Hl Hpost) as Hlab.
  rewrite <-Hg in Hlab.
  destruct (foldl declaration_step (declaration_init, ∅) (triples g)) as [d labels].
  unfold resolve_label. simpl in *. by rewrite Huri, Ht, Hlab.
Qed.

(** The theorem at a declaration whose resource is labelled after it is
    declared. *)
Lemma parse_declaration_label_of_resource_witness :
  resource_label
    (parse_declaration
       [mkContext "assertion"
          [(URIRef "https://example.org/decl", URIRef fip_declares_current_use_of,
            URIRef "https://example.org/ARK");
           (URIRef "https://example.org/ARK",
            URIRef "http://www.w3.org/2000/01/rdf-schema#label",
            Literal "Archival Resource Key")]])
    = Some "Archival Resource Key".
Proof.
  apply (parse_declaration_label_of_resource
           [mkContext "assertion"
              [(URIRef "https://example.org/decl", URIRef fip_declares_current_use_of,
                URIRef "https://example.org/ARK");
               (URIRef "https://example.org/ARK",
                URIRef "http://www.w3.org/2000/01/rdf-schema#label",
                Literal "Archival Resource Key")]]
           [(URIRef "https://example.org/decl", URIRef fip_declares_current_use_of,
             URIRef "https://example.org/ARK")]
           []
           (URIRef "https://example.org/ARK")
           (URIRef "http://www.w3.org/2000/01/rdf-schema#label")
           (Literal "Archival Resource Key") "https://example.org/ARK").
  - reflexivity.
  - reflexivity.
  - reflexivity.
  - reflexivity.
  - intros t Ht. by apply elem_of_nil in Ht.
Defined.

(** X9: when no triple labels the resource URI, the label is derived from
    the URI: with a ['#'] in it, the text after the last ['#'], which may be
    empty; otherwise, with a ['/'] in it, the last path segment if that is
    not empty; otherwise there is no label.  In the derived label every
    ['-'] and ['_'] is a space. *)
Theorem parse_declaration_fallback_label (g : ConjunctiveGraph) (uri : string) :
  resource_uri (parse_declaration g) = Some uri →
  (∀ t, t ∈ triples g → labels_subject uri t = false) →
  (contains "#" uri = true →
   resource_label (parse_declaration g) = Some (spaced (after_last "#" uri))) ∧
  (contains "#" uri = false → contains "/" uri = true →
   truthy (after_last "/" uri) = true →
   resource_label (parse_declaration g) = Some (spaced (after_last "/" uri))) ∧
  (contains "#" uri = false →
   contains "/" uri = false ∨ after_last "/" uri = "" →
   resource_label (parse_declaration g) = None) ∧
  (∀ l, resource_label (parse_declaration g) = Some l →
        contains "-" l = false ∧ contains "_" l = false).
Proof.
  intros Huri Hnone. unfold parse_declaration in *.
  destruct (ResourceFacts.resolve_label_resource
              (foldl declaration_step (declaration_init, ∅) (triples g))) as (R & _ & _).
  rewrite R in Huri.
  pose proof (ResourceFacts.foldl_labels_unmatched (triples g) (declaration_init, ∅) uri
                Hnone) as Hlab.
  pose proof (ResourceFacts.foldl_label_unwritten (triples g) (declaration_init, ∅))
    as Hlabel.
  destruct (foldl declaration_step (declaration_init, ∅) (triples g)) as [d labels].
  unfold resolve_label. simpl in *. rewrite Huri, Hlab, lookup_empty.
  rewrite (PyStrFacts.last_split "#" "" uri eq_refl).
  rewrite (PyStrFacts.last_split "/" "" uri eq_refl).
  destruct (truthy uri) eqn:Ht.
  2:{ assert (uri = "") as -> by (by destruct uri).
      split_and!; [done | done | intros _ _; exact Hlabel | intros l; by rewrite Hlabel]. }
  split_and!.
  - by intros ->.
  - intros -> -> ->. done.
  - intros -> [-> | E]; [done|].
    destruct (contains "/" uri); [|done]. by rewrite E.
  - intros l.
    destruct (contains "#" uri).
    { simpl. intros [= <-]. apply ResourceFacts.spaced_clean. }
    destruct (contains "/" uri); [|by rewrite Hlabel].
    destruct (truthy (after_last "/" uri)); [|by rewrite Hlabel].
    simpl. intros [= <-]. apply ResourceFacts.spaced_clean.
Qed.

(** The theorem at a resource without a label in the graph. *)
Lemma parse_declaration_fallback_label_witness :
  resource_label
    (parse_declaration
       [mkContext "assertion"
          [(URIRef "https://example.org/decl", URIRef fip_declares_current_use_of,
            URIRef "https://example.org/vocab#Dublin-Core_Terms")]])
    = Some "Dublin Core Terms".
Proof.
  destruct (parse_declaration_fallback_label
              [mkContext "assertion"
                 [(URIRef "https://example.org/decl", URIRef fip_declares_current_use_of,
                   URIRef "https://example.org/vocab#Dublin-Core_Terms")]]
              "https://example.org/vocab#Dublin-Core_Terms") as (H & _).
  - reflexivity.
  - intros t Ht. apply list_elem_of_singleton in Ht as ->. reflexivity.
  - exact (H eq_refl).
Defined.

(** ** Candidates and requests *)

Module CandidateFacts.

Import PyStrFacts.

(** The last path segment of a text that ends in ['/'] and a segment. *)
Lemma last_segment_append (x seg : string) :
  contains "/" seg = false →
  last (split "/" (x +:+ "/" +:+ seg)) = seg.
Proof.
  intros H. rewrite (last_split "/" "" _ eq_refl). unfold after_last.
  assert (R : rfind_cut "/" seg = None) by (by apply (rfind_cut_None "/" "")).
  by rewrite (rfind_cut_append _ x _ _ _ (rfind_cut_first "/" "" seg eq_refl R)).
Qed.

Lemma prefix_length_le {A} (l k : list A) : l `prefix_of` k → (List.length l ≤ List.length k)%nat.
Proof. intros [r ->]. rewrite length_app. lia. Qed.

Lemma concat_length_le {A} (n : nat) (ls : list (list A)) :
  Forall (λ l, (List.length l ≤ n)%nat) ls →
  (List.length (List.concat ls) ≤ n * List.length ls)%nat.
Proof.
  induction 1 as [|l ls Hl _ IH]; simpl; [lia|]. rewrite length_app. lia.
Qed.

End CandidateFacts.

(** X10: the three mirror candidates are built from the last path segment
    of the URI alone.  For a URI that ends in ['/'] that segment is empty;
    for a URI under "https://w3id.org/np/" the fourth candidate is the
    first one again, so that, when no candidate answers, that URL is
    requested twice. *)
Theorem endpoints_of_last_segment
        (requests_get : string → Response)
        (parse_trig : string → option ConjunctiveGraph)
        (x seg format_type : string) (log : list string) :
  contains "/" seg = false →
  endpoints (x +:+ "/" +:+ seg) format_type =
    [(x +:+ "/" +:+ seg) +:+ "." +:+ format_type;
     "https://np.petapico.org/" +:+ seg +:+ "." +:+ format_type;
     "https://server.np.trustyuri.net/" +:+ seg +:+ "." +:+ format_type;
     "https://w3id.org/np/" +:+ seg +:+ "." +:+ format_type] ∧
  endpoints (x +:+ "/") format_type =
    [(x +:+ "/") +:+ "." +:+ format_type;
     "https://np.petapico.org/" +:+ "." +:+ format_type;
     "https://server.np.trustyuri.net/" +:+ "." +:+ format_type;
     "https://w3id.org/np/" +:+ "." +:+ format_type] ∧
  ((∀ e, e ∈ endpoints ("https://w3id.org/np/" +:+ seg) format_type →
         candidate_fails requests_get parse_trig e) →
   fetch_nanopub requests_get parse_trig ("https://w3id.org/np/" +:+ seg) format_type log =
   (None,
    log ++ ["https://w3id.org/np/" +:+ seg +:+ "." +:+ format_type;
            "https://np.petapico.org/" +:+ seg +:+ "." +:+ format_type;
            "https://server.np.trustyuri.net/" +:+ seg +:+ "." +:+ format_type;
            "https://w3id.org/np/" +:+ seg +:+ "." +:+ format_type])).
Proof.
  intros Hseg.
  assert (E1 : ∀ y, endpoints (y +:+ "/" +:+ seg) format_type =
                    [(y +:+ "/" +:+ seg) +:+ "." +:+ format_type;
                     "https://np.petapico.org/" +:+ seg +:+ "." +:+ format_type;
                     "https://server.np.trustyuri.net/" +:+ seg +:+ "." +:+ format_type;
                     "https://w3id.org/np/" +:+ seg +:+ "." +:+ format_type]).
  { intros y. unfold endpoints. by rewrite (CandidateFacts.last_segment_append y seg Hseg). }
  split_and!.
  - apply E1.
  - unfold endpoints.
    replace (x +:+ "/") with (x +:+ "/" +:+ "") by (by rewrite PyStrFacts.append_nil_r).
    by rewrite (CandidateFacts.last_segment_append x "" eq_refl).
  - intros Hfail. unfold fetch_nanopub.
    rewrite (try_endpoints_all_fail _ _ _ _ Hfail). f_equal. f_equal.
    exact (E1 "https://w3id.org/np").
Qed.

(** The theorem at a nanopublication of w3id.org that no server has. *)
Lemma endpoints_of_last_segment_witness :
  fetch_nanopub crowded_get crowded_parse ("https://w3id.org/np/" +:+ "RA123") "trig" [] =
  (None,
   [] ++ ["https://w3id.org/np/" +:+ "RA123" +:+ "." +:+ "trig";
          "https://np.petapico.org/" +:+ "RA123" +:+ "." +:+ "trig";
          "https://server.np.trustyuri.net/" +:+ "RA123" +:+ "." +:+ "trig";
          "https://w3id.org/np/" +:+ "RA123" +:+ "." +:+ "trig"]).
Proof.
  apply (endpoints_of_last_segment crowded_get crowded_parse "" "RA123" "trig" []).
  - reflexivity.
  - intros e. unfold endpoints. rewrite !elem_of_cons, elem_of_nil.
    intros H. right. exists 404%Z, "".
    repeat (destruct H as [-> | H]; [split; [reflexivity | left; discriminate] |]). done.
Defined.

(** ** The runs of the file pipeline *)

Section RunFacts.

Variable requests_get : string → Response.
Variable parse_trig : string → option ConjunctiveGraph.

(** The requests of the loop: at most four for each URI. *)
Lemma chunks_length (uris : list string) (chunks : list (list string)) :
  Forall2 (λ u chunk, chunk ≠ [] ∧ chunk `prefix_of` endpoints u "trig") uris chunks →
  (List.length (List.concat chunks) ≤ 4 * List.length uris)%nat.
Proof.
  intros HF. rewrite (Forall2_length _ _ _ HF).
  apply CandidateFacts.concat_length_le.
  induction HF as [|u chunk uris chunks [_ Hp] _ IH]; constructor; [|done].
  by apply CandidateFacts.prefix_length_le in Hp.
Qed.

End RunFacts.

(** X12: without [fetch_remote], or when no triple of the header gives a
    declaration index, [read_fip_from_file] requests nothing and returns
    no declaration; when the index cannot be fetched, the four candidates
    of the index are all it requests, and it returns no declaration. *)
Theorem read_fip_from_file_without_index
        (requests_get : string → Response)
        (parse_trig : string → option ConjunctiveGraph)
        (header : ConjunctiveGraph) (fetch_remote : bool) (log : list string) :
  (fetch_remote = false →
   read_fip_from_file requests_get parse_trig header fetch_remote log =
     (parse_fip_header header, [], log)) ∧
  ((∀ t, t ∈ triples header → field_test "declaration_index" t = false) →
   read_fip_from_file requests_get parse_trig header fetch_remote log =
     (parse_fip_header header, [], log)) ∧
  (∀ idx,
      fetch_remote = true →
      truthy_val (parse_fip_header header !! "declaration_index") = Some idx →
      (∀ e, e ∈ endpoints idx "trig" → candidate_fails requests_get parse_trig e) →
      read_fip_from_file requests_get parse_trig header fetch_remote log =
        (parse_fip_header header, [], log ++ endpoints idx "trig")).
Proof.
  split_and!.
  - by intros ->.
  - intros H. unfold read_fip_from_file.
    assert (E : parse_fip_header header !! "declaration_index" = Some PNone).
    { unfold parse_fip_header. rewrite HeaderFacts.foldl_header_unmatched; [done | | done].
      unfold singular_fields. rewrite !elem_of_cons. tauto. }
    rewrite E. by destruct fetch_remote.
  - intros idx -> Hidx Hfail. unfold read_fip_from_file. rewrite Hidx.
    unfold net_bind at 1. unfold fetch_nanopub.
    by rewrite (try_endpoints_all_fail _ _ _ _ Hfail).
Qed.

(** X13: a run of [read_fip_from_file] only appends to the log of
    requests, at most 204 URLs (four for the index and four for each of
    fifty declarations); it returns the header of the file and at most
    fifty declarations. *)
Theorem read_fip_from_file_is_bounded
        (requests_get : string → Response)
        (parse_trig : string → option ConjunctiveGraph)
        (header : ConjunctiveGraph) (fetch_remote : bool) (log : list string) :
  ∃ new,
    (read_fip_from_file requests_get parse_trig header fetch_remote log).2 = log ++ new ∧
    (List.length new ≤ 204)%nat ∧
    (List.length (read_fip_from_file requests_get parse_trig header fetch_remote log).1.2
     ≤ 50)%nat ∧
    (read_fip_from_file requests_get parse_trig header fetch_remote log).1.1 =
      parse_fip_header header.
Proof.
  unfold read_fip_from_file.
  destruct (if fetch_remote
            then truthy_val (parse_fip_header header !! "declaration_index")
            else None) as [idx|].
  2:{ exists []. unfold net_ret. simpl. rewrite app_nil_r. split_and!; [done | lia | lia | done]. }
  unfold net_bind, net_ret, fetch_nanopub, fetch_declarations.
  destruct (try_endpoints_requests requests_get parse_trig (endpoints idx "trig") log)
    as (chunk & Hlog & Hpre & _).
  apply CandidateFacts.prefix_length_le in Hpre. change (List.length (endpoints idx "trig"))
    with 4%nat in Hpre.
  destruct (try_endpoints requests_get parse_trig (endpoints idx "trig") log)
    as [[g|] log1]; cbn [snd] in Hlog; subst log1.
  2:{ exists chunk. simpl. split_and!; [done | lia | lia | done]. }
  destruct (graph_truthy g).
  2:{ exists chunk. simpl. split_and!; [done | lia | lia | done]. }
  destruct (fetch_loop_spec requests_get parse_trig
              (slice_to 50 (extract_declarations_from_index g)) [] (log ++ chunk))
    as (chunks & -> & HF).
  exists (chunk ++ List.concat chunks). cbn [fst snd].
  pose proof (chunks_length _ _ HF) as Hc.
  assert (Hs : (List.length (slice_to 50 (extract_declarations_from_index g)) ≤ 50)%nat).
  { unfold slice_to. rewrite length_firstn. lia. }
  split_and!.
  - by rewrite <-app_assoc.
  - rewrite length_app. lia.
  - rewrite app_nil_l. etrans; [apply length_omap_le | exact Hs].
  - done.
Qed.

(** ** Graphs in several contexts *)

Module UnionFacts.

Lemma triples_app (g1 g2 : ConjunctiveGraph) :
  triples (g1 ++ g2) = triples g1 ++ triples g2.
Proof. unfold triples. apply bind_app. Qed.

(** A list without a match, or cut at its last match. *)
Lemma last_match (f : Triple → bool) (ts : list Triple) :
  (∀ t, t ∈ ts → f t = false) ∨
  ∃ pre t post, ts = pre ++ t :: post ∧ f t = true ∧ ∀ t', t' ∈ post → f t' = false.
Proof.
  induction ts as [|t ts IH].
  - left. intros t H. by apply elem_of_nil in H.
  - destruct IH as [Hn | (pre & t' & post & -> & Ht & Hp)].
    + destruct (f t) eqn:E.
      * right. by exists [], t, ts.
      * left. intros t' [-> | H]%elem_of_cons; auto.
    + right. by exists (t :: pre), t', post.
Qed.

Lemma init_singular (k : string) :
  k ∈ singular_fields → fip_info_init !! k = Some PNone.
Proof.
  unfold singular_fields. rewrite !elem_of_cons, elem_of_nil.
  intros H. repeat (destruct H as [-> | H]; [by vm_compute|]). done.
Qed.

(** A singular field after the loop: what the loop alone would find, or
    else what was there before. *)
Lemma foldl_header_from (ts : list Triple) (info : gmap string PyVal) (k : string) :
  k ∈ singular_fields →
  foldl header_step info ts !! k =
  match foldl header_step fip_info_init ts !! k with
  | Some (PStr x) => Some (PStr x)
  | _ => info !! k
  end.
Proof.
  intros Hk.
  destruct (last_match (field_test k) ts)
    as [Hn | (pre & [[s p] o] & post & -> & Ht & Hp)].
  - rewrite !HeaderFacts.foldl_header_unmatched by done. by rewrite init_singular.
  - by rewrite !(HeaderFacts.foldl_header_last_match _ _ _ _ _ _ _ Hk Ht Hp).
Qed.

End UnionFacts.

(** X14: the header of a graph in several contexts: a singular field of
    the contexts [g1] followed by the contexts [g2] is the one found in
    [g2] when [g2] has one, and the one found in [g1] otherwise; the
    creators are those of [g1] followed by those of [g2]. *)
Theorem parse_fip_header_of_contexts (g1 g2 : ConjunctiveGraph) :
  (∀ k, k ∈ singular_fields →
        parse_fip_header (g1 ++ g2) !! k =
        match parse_fip_header g2 !! k with
        | Some (PStr x) => Some (PStr x)
        | _ => parse_fip_header g1 !! k
        end) ∧
  (∀ c1 c2,
      parse_fip_header g1 !! "creators" = Some (PList c1) →
      parse_fip_header g2 !! "creators" = Some (PList c2) →
      parse_fip_header (g1 ++ g2) !! "creators" = Some (PList (c1 ++ c2))).
Proof.
  unfold parse_fip_header. rewrite UnionFacts.triples_app, foldl_app. split.
  - intros k Hk. by apply UnionFacts.foldl_header_from.
  - intros c1 c2 H1 H2.
    rewrite (HeaderFacts.foldl_header_creators _ _ _ H1).
    rewrite (HeaderFacts.foldl_header_creators _ fip_info_init [] eq_refl) in H2.
    by injection H2 as <-.
Qed.

(** X15: the declarations of an index in several contexts are those of
    its parts, and there are no more of them than triples: a URI is
    returned for [g1] followed by [g2] exactly when it is returned for
    [g1] or for [g2]. *)
Theorem extract_declarations_from_index_of_contexts (g1 g2 : ConjunctiveGraph) :
  (∀ u, u ∈ extract_declarations_from_index (g1 ++ g2) ↔
        u ∈ extract_declarations_from_index g1 ∨
        u ∈ extract_declarations_from_index g2) ∧
  (List.length (extract_declarations_from_index (g1 ++ g2))
   ≤ List.length (extract_declarations_from_index g1)
     + List.length (extract_declarations_from_index g2))%nat ∧
  (List.length (extract_declarations_from_index g1) ≤ List.length (triples g1))%nat.
Proof.
  assert (Hu : ∀ u, u ∈ extract_declarations_from_index (g1 ++ g2) ↔
                    u ∈ extract_declarations_from_index g1 ∨
                    u ∈ extract_declarations_from_index g2).
  { intros u. unfold extract_declarations_from_index.
    rewrite !IndexFacts.list_set_elem, !IndexFacts.index_matches_spec.
    rewrite UnionFacts.triples_app. split.
    - intros (s & p & o & [H | H]%elem_of_app & Hp & Ho); [left | right];
        by exists s, p, o.
    - intros [(s & p & o & H & Hp & Ho) | (s & p & o & H & Hp & Ho)];
        exists s, p, o; (split_and!; [apply elem_of_app; auto | done | done]). }
  split_and!.
  - exact Hu.
  - rewrite <-length_app. apply submseteq_length, NoDup_submseteq.
    + apply IndexFacts.list_set_NoDup.
    + intros u H. apply elem_of_app. by apply Hu.
  - rewrite <-(length_fmap (λ t : Triple, str t.2) (triples g1)).
    apply submseteq_length, NoDup_submseteq.
    + apply IndexFacts.list_set_NoDup.
    + intros u H. unfold extract_declarations_from_index in H.
      rewrite IndexFacts.list_set_elem, IndexFacts.index_matches_spec in H.
      destruct H as (s & p & o & H & _ & <-).
      apply list_elem_of_fmap. by exists (s, p, o).
Qed.

(** ** The command line *)

Module MainFacts.

Lemma in_list_cons (x y : string) (l : list string) :
  in_list x (y :: l) = String.eqb x y || in_list x l.
Proof. reflexivity. Qed.

Lemma in_list_iff (x : string) (l k : list string) :
  (x ∈ l ↔ x ∈ k) → in_list x l = in_list x k.
Proof.
  intros H. destruct (in_list x l) eqn:E1, (in_list x k) eqn:E2; try done.
  - apply IndexFacts.in_list_spec, H, IndexFacts.in_list_spec in E1. congruence.
  - apply IndexFacts.in_list_spec, H, IndexFacts.in_list_spec in E2. congruence.
Qed.

End MainFacts.

(** X16: after the script name and the file, only the presence of
    "--fetch" and of "--debug" among the arguments counts: "--local" and
    every other argument change nothing.  A file that ends in ".json" is
    read as JSON whatever the flags, and "--debug" without "--fetch" reads
    the header alone.  The first argument is the file even when it is a
    flag. *)
Theorem main_reads_fetch_and_debug_only
        (script file : string) (flags flags' : list string)
        (file_exists : string → bool) :
  ("--fetch" ∈ flags ↔ "--fetch" ∈ flags') →
  ("--debug" ∈ flags ↔ "--debug" ∈ flags') →
  main (script :: file :: flags) file_exists = main (script :: file :: flags') file_exists ∧
  main (script :: file :: "--local" :: flags) file_exists =
    main (script :: file :: flags) file_exists ∧
  (file_exists file = true → endswith ".json" file = true →
   main (script :: file :: flags) file_exists = RunJson file) ∧
  (file_exists file = true → endswith ".json" file = false →
   "--fetch" ∉ script :: file :: flags →
   main (script :: file :: flags) file_exists = RunLocal file) ∧
  (file_exists file = false →
   main (script :: file :: flags) file_exists = FileNotFound file).
Proof.
  intros Hf Hd.
  assert (E : ∀ x l k, (x ∈ l ↔ x ∈ k) →
              in_list x (script :: file :: l) = in_list x (script :: file :: k)).
  { intros x l k H. rewrite !MainFacts.in_list_cons. by rewrite (MainFacts.in_list_iff x l k H). }
  unfold main. cbn [List.length Nat.ltb Nat.leb nth].
  split_and!.
  - by rewrite (E _ _ _ Hf), (E _ _ _ Hd).
  - rewrite (E "--fetch" ("--local" :: flags) flags),
            (E "--debug" ("--local" :: flags) flags); [done | |];
      rewrite elem_of_cons; split; auto; by intros [? | ?].
  - intros -> ->. done.
  - intros -> -> Hn. cbn [negb].
    destruct (in_list "--fetch" (script :: file :: flags)) eqn:F; [|done].
    by apply IndexFacts.in_list_spec in F.
  - by intros ->.
Qed.

(** The theorem at two command lines with the same file and the flags
    "--fetch" and "--local" in another order. *)
Lemma main_reads_fetch_and_debug_only_witness :
  main ["fip_reader.py"; "fip.trig"; "--local"; "--fetch"] (λ _, true) =
  main ["fip_reader.py"; "fip.trig"; "--fetch"] (λ _, true).
Proof.
  apply (main_reads_fetch_and_debug_only "fip_reader.py" "fip.trig"
           ["--local"; "--fetch"] ["--fetch"] (λ _, true)).
  - rewrite !elem_of_cons. split; [intros [? | [? | ?]] | intros [? | ?]]; try done; auto.
  - rewrite !elem_of_cons, !elem_of_nil. split; [intros [? | [? | ?]] | intros [? | ?]]; done.
Defined.

(** ** The reports *)

Module ReportFacts.

Lemma plain_prefix (c : ascii) (r x : string) :
  Ascii.eqb "010"%char c = false → startswith nl (String c r +:+ x) = false.
Proof.
  intros H. unfold nl. change (String c r +:+ x) with (String c (r +:+ x)).
  cbn [startswith]. by rewrite H.
Qed.

Lemma print_resource_plain (res : ResourceInfo) (l : string) :
  l ∈ print_resource res → startswith nl l = false.
Proof.
  unfold print_resource. rewrite elem_of_cons. intros [-> | H]; [reflexivity|].
  destruct (truthy (default "" (ri_uri res))); [|by apply elem_of_nil in H].
  apply list_elem_of_singleton in H as ->. reflexivity.
Qed.

Lemma resources_plain (rs : list ResourceInfo) (l : string) :
  l ∈ (res ← rs; print_resource res) → startswith nl l = false.
Proof.
  rewrite list_elem_of_bind. intros (res & H & _). by eapply print_resource_plain.
Qed.

Lemma nonempty_entries (b : Bucket) :
  nonempty (data b) || nonempty (metadata b) = true ↔ entries b ≠ [].
Proof. unfold entries. destruct b as [[|x d] [|y m]]; simpl; split; done. Qed.

(** The only line of a principle that starts with a line feed is its
    heading, printed when the bucket has an entry. *)
Lemma print_principle_heading (name : string) (b : Bucket) (l : string) :
  l ∈ print_principle name b → startswith nl l = true →
  l = heading name ∧ entries b ≠ [].
Proof.
  unfold print_principle.
  destruct (nonempty (data b) || nonempty (metadata b)) eqn:E;
    [|intros H; by apply elem_of_nil in H].
  apply nonempty_entries in E.
  rewrite !elem_of_app, !elem_of_cons, elem_of_nil.
  intros [[-> | [-> | [-> | []]]] | [H | H]] Hs; try done.
  - destruct (nonempty (data b)); [|by apply elem_of_nil in H].
    apply elem_of_cons in H as [-> | H]; [done|].
    apply resources_plain in H. congruence.
  - destruct (nonempty (metadata b)); [|by apply elem_of_nil in H].
    apply elem_of_cons in H as [-> | H]; [done|].
    apply resources_plain in H. congruence.
Qed.

Lemma print_principle_has_heading (name : string) (b : Bucket) :
  entries b ≠ [] → heading name ∈ print_principle name b.
Proof.
  intros H%nonempty_entries. unfold print_principle. rewrite H.
  rewrite !elem_of_app, !elem_of_cons. left. right. by left.
Qed.

Lemma print_if_plain (repr_list : list string → string) (fip_info : gmap string PyVal)
      (k : string) (c : ascii) (r l : string) :
  Ascii.eqb "010"%char c = false →
  l ∈ print_if repr_list fip_info k (String c r) → startswith nl l = false.
Proof.
  intros Hc. unfold print_if. destruct (get_truthy fip_info k); [|by intros ?%elem_of_nil].
  intros ->%list_elem_of_singleton. by apply plain_prefix.
Qed.

(** The names of [FAIR_PRINCIPLES] tell its keys apart, and its keys are
    those of the organized table. *)
Lemma FAIR_PRINCIPLES_names (k k' name : string) :
  (k, name) ∈ FAIR_PRINCIPLES → (k', name) ∈ FAIR_PRINCIPLES → k = k'.
Proof.
  assert (H : ∀ k0, (k0, name) ∈ FAIR_PRINCIPLES →
                    fst <$> List.find (λ e, String.eqb e.2 name) FAIR_PRINCIPLES = Some k0).
  { intros k0. unfold FAIR_PRINCIPLES. rewrite !elem_of_cons, elem_of_nil. intros H.
    repeat (destruct H as [[= -> ->] | H]; [by vm_compute|]). done. }
  intros H1 H2. apply H in H1, H2. congruence.
Qed.

Lemma FAIR_PRINCIPLES_keys (k name : string) :
  (k, name) ∈ FAIR_PRINCIPLES → k ∈ principle_keys.
Proof.
  unfold FAIR_PRINCIPLES, principle_keys. rewrite !elem_of_cons, !elem_of_nil. intros H.
  repeat (destruct H as [[= -> ->] | H]; [tauto|]). done.
Qed.

Lemma heading_inj (n n' : string) : heading n = heading n' → n = n'.
Proof. unfold heading. intros H. by injection H. Qed.

Lemma bind_ext_in {A B} (f g : A → list B) (l : list A) :
  (∀ x, x ∈ l → f x = g x) → (l ≫= f) = (l ≫= g).
Proof.
  induction l as [|x l IH]; intros H; [done|].
  rewrite !bind_cons, (H x) by (by left). f_equal. apply IH. intros y Hy. apply H. by right.
Qed.

(** Reading planned replacements as current uses changes nothing that is
    printed for a bucket. *)
Lemma as_current_principle (d : Declaration) :
  principle_of (as_current d) = principle_of d ∧
  files_as_metadata (as_current d) = files_as_metadata d ∧
  print_resource (resource_info (as_current d)) = print_resource (resource_info d).
Proof.
  unfold as_current. destruct (String.eqb_spec (resource_type d) "replacement") as [E|]; [|done].
  split_and!; [done | done |].
  unfold print_resource, resource_info. cbn [ri_type ri_label ri_uri resource_label
    resource_uri resource_type]. by rewrite E.
Qed.

Lemma as_current_filter (P : Declaration → Prop) `{∀ d, Decision (P d)}
      (ds : list Declaration) :
  (∀ d, P (as_current d) ↔ P d) →
  nonempty (resource_info <$> filter P (as_current <$> ds)) =
    nonempty (resource_info <$> filter P ds) ∧
  (res ← resource_info <$> filter P (as_current <$> ds); print_resource res) =
    (res ← resource_info <$> filter P ds; print_resource res).
Proof.
  intros HP. induction ds as [|d ds [IH1 IH2]]; [done|].
  rewrite fmap_cons, !filter_cons.
  destruct (decide (P d)) as [Hd | Hd].
  - rewrite decide_True by (by apply HP). rewrite !fmap_cons, !bind_cons, IH2.
    split; [done|]. f_equal. apply as_current_principle.
  - rewrite decide_False by (by rewrite HP). done.
Qed.

End ReportFacts.

(** ** The lines of the report *)

Module LineFacts.

Lemma contains_nl_cons (c : ascii) (s : string) :
  contains nl (String c s) = Ascii.eqb "010" c || contains nl s.
Proof.
  unfold nl. cbn [contains startswith]. by destruct (Ascii.eqb "010" c), s.
Qed.

Lemma contains_nl_append (a b : string) :
  contains nl (a +:+ b) = contains nl a || contains nl b.
Proof.
  induction a as [|c a IH]; [by destruct b|].
  change (String c a +:+ b) with (String c (a +:+ b)).
  by rewrite !contains_nl_cons, IH, orb_assoc.
Qed.

Lemma find_cut_complete (sep s : string) :
  contains sep s = false → find_cut sep s = None.
Proof.
  intros H. destruct (find_cut sep s) as [[a b]|] eqn:F; [|done].
  apply PyStrFacts.find_cut_Some in F as [_ F]. congruence.
Qed.

(** A text without a line feed is one line. *)
Lemma split_one_line (s : string) : contains nl s = false → split nl s = [s].
Proof.
  intros H. unfold nl in *. rewrite PyStrFacts.split_unfold.
  by rewrite (find_cut_complete _ _ H).
Qed.

Lemma split_nl_cons (c : ascii) (s : string) :
  split nl (String c s) =
  if Ascii.eqb "010" c then "" :: split nl s
  else match split nl s with
       | h :: t => String c h :: t
       | [] => [String c ""]
       end.
Proof.
  unfold nl. rewrite (PyStrFacts.split_unfold _ _ (String c s)).
  rewrite (PyStrFacts.split_unfold _ _ s). cbn [find_cut startswith].
  destruct (Ascii.eqb "010" c).
  - cbn [drop String.length]. by rewrite (PyStrFacts.split_unfold _ _ s).
  - by destruct (find_cut (String "010" "") s) as [[a b]|].
Qed.

(** The lines of two texts with a line feed between them. *)
Lemma split_nl_append (a b : string) :
  split nl (a +:+ nl +:+ b) = split nl a ++ split nl b.
Proof.
  induction a as [|c a IH].
  - change ("" +:+ nl +:+ b) with (String "010" b). by rewrite split_nl_cons.
  - change (String c a +:+ nl +:+ b) with (String c (a +:+ nl +:+ b)).
    rewrite !split_nl_cons, IH. destruct (Ascii.eqb "010" c); [done|].
    pose proof (PyStrFacts.split_not_nil "010" "" a) as Hne.
    fold nl in Hne. by destruct (split nl a).
Qed.

(** The lines of the output are the lines of the texts printed, and an
    empty one after the last line feed. *)
Lemma printed_lines_calls (calls : list string) :
  printed_lines calls = (calls ≫= split nl) ++ [""].
Proof.
  unfold printed_lines. induction calls as [|c calls IH]; [done|].
  cbn [stdout]. by rewrite split_nl_append, IH, bind_cons, app_assoc.
Qed.

Lemma elem_of_printed_lines (calls : list string) (l : string) :
  l ≠ "" → l ∈ printed_lines calls ↔ ∃ c, c ∈ calls ∧ l ∈ split nl c.
Proof.
  intros Hl. rewrite printed_lines_calls, elem_of_app, list_elem_of_bind,
               list_elem_of_singleton.
  split; [intros [(c & H1 & H2) | ?]; [by exists c | done] | intros (c & H1 & H2)].
  left. by exists c.
Qed.

Lemma heading_line_head (name : string) :
  ∃ r, heading_line name = String "240" r.
Proof. unfold heading_line. eexists. reflexivity. Qed.

Lemma heading_line_inj (n n' : string) : heading_line n = heading_line n' → n = n'.
Proof. unfold heading_line. intros H. by injection H. Qed.

(** A text that starts otherwise has no heading among its lines when it
    is one line. *)
Lemma plain_call (c : ascii) (r x name : string) :
  Ascii.eqb "240" c = false →
  contains nl (String c r) = false → contains nl x = false →
  heading_line name ∉ split nl (String c r +:+ x).
Proof.
  intros Hc Hr Hx. rewrite split_one_line by (by rewrite contains_nl_append, Hr, Hx).
  intros H%list_elem_of_singleton. destruct (heading_line_head name) as [r' E].
  rewrite E in H. change (String c r +:+ x) with (String c (r +:+ x)) in H.
  injection H as E1 _. rewrite <-E1 in Hc. by vm_compute in Hc.
Qed.

Lemma plain_literal (c : ascii) (r name : string) :
  Ascii.eqb "240" c = false → contains nl (String c r) = false →
  heading_line name ∉ split nl (String c r).
Proof.
  intros Hc Hr. rewrite <-(PyStrFacts.append_nil_r (String c r)). by apply plain_call.
Qed.

Lemma empty_call (name : string) : heading_line name ∉ split nl "".
Proof.
  intros H%list_elem_of_singleton. destruct (heading_line_head name) as [r E].
  by rewrite E in H.
Qed.

Lemma FAIR_PRINCIPLES_one_line (k name : string) :
  (k, name) ∈ FAIR_PRINCIPLES → contains nl name = false.
Proof.
  unfold FAIR_PRINCIPLES. rewrite !elem_of_cons, elem_of_nil. intros H.
  repeat (destruct H as [[= -> ->] | H]; [by vm_compute|]). done.
Qed.

(** The two lines of the heading call. *)
Lemma heading_lines (name : string) :
  contains nl name = false → split nl (heading name) = [""; heading_line name].
Proof.
  intros H. change (heading name) with (String "010" (heading_line name)).
  rewrite split_nl_cons. cbn [Ascii.eqb Bool.eqb]. f_equal.
  apply split_one_line. unfold heading_line. by rewrite contains_nl_append, H.
Qed.

Lemma print_resource_lines (res : ResourceInfo) (c name : string) :
  contains nl (format_opt (ri_label res)) = false →
  contains nl (format_opt (ri_uri res)) = false →
  c ∈ print_resource res → heading_line name ∉ split nl c.
Proof.
  intros Hl Hu. unfold print_resource. rewrite elem_of_cons. intros [-> | H].
  - apply (plain_call " " "     • "); [done | done |].
    rewrite contains_nl_append, Hl. by destruct (bool_decide _).
  - destruct (truthy (default "" (ri_uri res))); [|by apply elem_of_nil in H].
    apply list_elem_of_singleton in H as ->.
    by apply (plain_call " " "       URI: ").
Qed.

Lemma resources_lines (rs : list ResourceInfo) (c name : string) :
  (∀ res, res ∈ rs → contains nl (format_opt (ri_label res)) = false ∧
                     contains nl (format_opt (ri_uri res)) = false) →
  c ∈ (res ← rs; print_resource res) → heading_line name ∉ split nl c.
Proof.
  intros Hrs. rewrite list_elem_of_bind. intros (res & H & Hin).
  destruct (Hrs res Hin). by eapply print_resource_lines.
Qed.

(** Among the lines printed for a principle, a heading is the one of
    that principle. *)
Lemma print_principle_lines (name : string) (b : Bucket) (c name0 : string) :
  contains nl name = false →
  (∀ res, res ∈ entries b → contains nl (format_opt (ri_label res)) = false ∧
                            contains nl (format_opt (ri_uri res)) = false) →
  c ∈ print_principle name b → heading_line name0 ∈ split nl c →
  name0 = name ∧ entries b ≠ [].
Proof.
  intros Hname Hres. unfold print_principle.
  destruct (nonempty (data b) || nonempty (metadata b)) eqn:E;
    [|intros H; by apply elem_of_nil in H].
  apply ReportFacts.nonempty_entries in E.
  rewrite !elem_of_app, !elem_of_cons, elem_of_nil.
  intros [[-> | [-> | [-> | []]]] | [H | H]] Hl.
  - by apply empty_call in Hl.
  - fold (heading name) in Hl. rewrite (heading_lines name Hname) in Hl.
    rewrite !elem_of_cons, elem_of_nil in Hl. destruct Hl as [Hl | [Hl | []]].
    + destruct (heading_line_head name0) as [r E0]. by rewrite E0 in Hl.
    + by apply heading_line_inj in Hl.
  - by apply (plain_literal " " ("  " +:+ times "-" 60)) in Hl.
  - destruct (nonempty (data b)); [|by apply elem_of_nil in H].
    apply elem_of_cons in H as [-> | H].
    + by apply (plain_literal " " "  📊 For DATA:") in Hl.
    + eapply resources_lines in H; [done|].
      intros res Hin. apply Hres. unfold entries. rewrite elem_of_app. by left.
  - destruct (nonempty (metadata b)); [|by apply elem_of_nil in H].
    apply elem_of_cons in H as [-> | H].
    + by apply (plain_literal " " "  📝 For METADATA:") in Hl.
    + eapply resources_lines in H; [done|].
      intros res Hin. apply Hres. unfold entries. rewrite elem_of_app. by right.
Qed.

Lemma print_if_lines (repr_list : list string → string) (fip_info : gmap string PyVal)
      (k : string) (a : ascii) (r c name : string) :
  Ascii.eqb "240" a = false → contains nl (String a r) = false →
  contains nl (format_get repr_list fip_info k "") = false →
  c ∈ print_if repr_list fip_info k (String a r) → heading_line name ∉ split nl c.
Proof.
  intros Ha Hr Hx. unfold print_if.
  destruct (get_truthy fip_info k); [|by intros ?%elem_of_nil].
  intros ->%list_elem_of_singleton. by apply plain_call.
Qed.

End LineFacts.

(** X17: the output of [print_fip_report] has the heading line of a
    principle whenever the organized table has, under the key of that
    principle, a bucket with at least one entry.  When none of the texts
    that the report takes from the header and from the resources holds a
    line feed, it has that line only then.  A text with a line feed can
    put it there: with the line in its description, the report of an empty
    table has the heading line. *)
Theorem print_fip_report_headings
        (repr_list : list string → string) (join_chars : string → string)
        (fip_info : gmap string PyVal) (organized : gmap string Bucket)
        (key name : string) :
  (key, name) ∈ FAIR_PRINCIPLES →
  ((∃ b, organized !! key = Some b ∧ entries b ≠ []) →
   heading_line name
     ∈ printed_lines (print_fip_report repr_list join_chars fip_info organized)) ∧
  ((∀ text, text ∈ report_texts repr_list join_chars fip_info organized →
            contains nl text = false) →
   heading_line name
     ∈ printed_lines (print_fip_report repr_list join_chars fip_info organized) →
   ∃ b, organized !! key = Some b ∧ entries b ≠ []) ∧
  heading_line name
    ∈ printed_lines
        (print_fip_report repr_list join_chars
           (<["description" := PStr ("See" +:+ nl +:+ heading_line name)]> ∅) ∅).
Proof.
  intros Hk.
  assert (Hne : heading_line name ≠ "").
  { destruct (LineFacts.heading_line_head name) as [r ->]. done. }
  pose proof (LineFacts.FAIR_PRINCIPLES_one_line key name Hk) as Hname.
  split_and!.
  - intros (b & Hb & Hb'). apply LineFacts.elem_of_printed_lines; [done|].
    exists (heading name). split.
    + unfold print_fip_report. rewrite !elem_of_app. do 6 right. left.
      apply list_elem_of_bind. exists (key, name). split; [|done]. rewrite Hb. simpl.
      by apply ReportFacts.print_principle_has_heading.
    + rewrite (LineFacts.heading_lines name Hname). rewrite !elem_of_cons. tauto.
  - intros Htexts Hin. apply LineFacts.elem_of_printed_lines in Hin as (c & Hc & Hl); [|done].
    assert (Hh : ∀ text, text ∈ [format_get repr_list fip_info "label" "Unknown";
                                 format_get repr_list fip_info "description" "";
                                 format_get repr_list fip_info "version" "";
                                 join_val join_chars (fip_info !! "creators");
                                 format_get repr_list fip_info "declared_by" ""] →
                 contains nl text = false).
    { intros text Ht. apply Htexts. unfold report_texts. rewrite elem_of_app. by left. }
    unfold print_fip_report in Hc. rewrite !elem_of_app in Hc.
    destruct Hc as [H | [H | [H | [H | [H | [H | [H | H]]]]]]].
    + rewrite !elem_of_cons, elem_of_nil in H.
      destruct H as [-> | [-> | [-> | [-> | []]]]].
      * by apply (LineFacts.plain_literal "=" (times "=" 79)) in Hl.
      * apply (LineFacts.plain_call "F" "AIR IMPLEMENTATION PROFILE: ") in Hl; [done..|].
        apply Hh; rewrite !elem_of_cons; tauto.
      * by apply (LineFacts.plain_literal "=" (times "=" 79)) in Hl.
      * by apply LineFacts.empty_call in Hl.
    + eapply (LineFacts.print_if_lines repr_list fip_info "description" "D") in H;
        [done | done | done |]. apply Hh; rewrite !elem_of_cons; tauto.
    + eapply (LineFacts.print_if_lines repr_list fip_info "version" "V") in H;
        [done | done | done |]. apply Hh; rewrite !elem_of_cons; tauto.
    + destruct (get_truthy fip_info "creators"); [|by apply elem_of_nil in H].
      apply list_elem_of_singleton in H as ->.
      apply (LineFacts.plain_call "C" "reators: ") in Hl; [done..|].
      apply Hh; rewrite !elem_of_cons; tauto.
    + eapply (LineFacts.print_if_lines repr_list fip_info "declared_by" "D") in H;
        [done | done | done |]. apply Hh; rewrite !elem_of_cons; tauto.
    + rewrite !elem_of_cons, elem_of_nil in H.
      destruct H as [-> | [-> | [-> | [-> | []]]]].
      * by apply LineFacts.empty_call in Hl.
      * by apply (LineFacts.plain_literal "-" (times "-" 79)) in Hl.
      * by apply (LineFacts.plain_literal "F" "AIR-ENABLING RESOURCES BY PRINCIPLE") in Hl.
      * by apply (LineFacts.plain_literal "-" (times "-" 79)) in Hl.
    + apply list_elem_of_bind in H as ([k' n'] & H & Hin').
      apply (LineFacts.print_principle_lines n' _ c name) in H as [-> Hb]; [| |  | done].
      * rewrite (ReportFacts.FAIR_PRINCIPLES_names _ _ _ Hk Hin').
        destruct (organized !! k') as [b|]; [by exists b | done].
      * by apply (LineFacts.FAIR_PRINCIPLES_one_line k').
      * intros res Hres. split; apply Htexts; unfold report_texts; rewrite elem_of_app;
          right; apply list_elem_of_bind; exists (k', n'); (split; [|done]);
          apply list_elem_of_bind; exists res; (split; [|done]);
          rewrite !elem_of_cons; tauto.
    + rewrite !elem_of_cons, elem_of_nil in H. destruct H as [-> | [-> | []]].
      * by apply LineFacts.empty_call in Hl.
      * by apply (LineFacts.plain_literal "=" (times "=" 79)) in Hl.
  - apply LineFacts.elem_of_printed_lines; [done|].
    exists ("Description: See" +:+ nl +:+ heading_line name). split.
    + unfold print_fip_report. rewrite !elem_of_app. right. left.
      unfold print_if, get_truthy, format_get. rewrite lookup_insert_eq.
      apply list_elem_of_singleton. reflexivity.
    + rewrite LineFacts.split_nl_append.
      rewrite (LineFacts.split_one_line (heading_line name)).
      * rewrite elem_of_app, !elem_of_cons. tauto.
      * unfold heading_line. by rewrite LineFacts.contains_nl_append, Hname.
Qed.

(** The theorem at a table with one entry under F1: the heading line of
    F1 is printed, and the one of F2 is not. *)
Lemma print_fip_report_headings_witness :
  heading_line "F1 - Globally unique and persistent identifiers"
    ∈ printed_lines
        (print_fip_report (λ _, "") (λ s, s) (parse_fip_header [])
           (organize_by_principle
              [mkDeclaration None (Some "F1-D") (Some "ARK") None "current"])) ∧
  heading_line "F2 - Data described with rich metadata"
    ∉ printed_lines
        (print_fip_report (λ _, "") (λ s, s) (parse_fip_header [])
           (organize_by_principle
              [mkDeclaration None (Some "F1-D") (Some "ARK") None "current"])).
Proof.
  split.
  - apply (print_fip_report_headings (λ _, "") (λ s, s) (parse_fip_header [])
             (organize_by_principle
                [mkDeclaration None (Some "F1-D") (Some "ARK") None "current"])
             "F1" "F1 - Globally unique and persistent identifiers").
    + unfold FAIR_PRINCIPLES. by left.
    + exists (mkBucket
                [resource_info (mkDeclaration None (Some "F1-D") (Some "ARK") None "current")]
                []).
      split; [by vm_compute | done].
  - intros H.
    apply (print_fip_report_headings (λ _, "") (λ s, s) (parse_fip_header [])
             (organize_by_principle
                [mkDeclaration None (Some "F1-D") (Some "ARK") None "current"])
             "F2" "F2 - Data described with rich metadata") in H.
    + destruct H as (b & Hb & Hne). vm_compute in Hb. injection Hb as <-. done.
    + unfold FAIR_PRINCIPLES. right. by left.
    + intros text Ht. vm_compute in Ht.
      repeat (apply elem_of_cons in Ht as [-> | Ht]; [by vm_compute|]).
      by apply elem_of_nil in Ht.
Defined.

(** X18: the report never tells a planned replacement from a current use:
    the report of the file pipeline is the same when every declaration of
    type "replacement" is given the type "current". *)
Theorem print_fip_report_ignores_replacement
        (repr_list : list string → string) (join_chars : string → string)
        (fip_info : gmap string PyVal) (ds : list Declaration) :
  print_fip_report repr_list join_chars fip_info (organize_by_principle (as_current <$> ds)) =
  print_fip_report repr_list join_chars fip_info (organize_by_principle ds).
Proof.
  unfold print_fip_report. do 6 f_equal. f_equal.
  apply ReportFacts.bind_ext_in. intros [k name] Hin.
  apply ReportFacts.FAIR_PRINCIPLES_keys in Hin.
  unfold organize_by_principle.
  rewrite !(BucketFacts.foldl_organize_lookup _ _ _ _
              (BucketFacts.organized_init_lookup k Hin)).
  cbn [default from_option id data metadata app]. unfold print_principle.
  cbn [data metadata].
  destruct (ReportFacts.as_current_filter
              (λ d, principle_of d = Some k ∧ files_as_metadata d = false) ds) as [D1 D2].
  { intros d. destruct (ReportFacts.as_current_principle d) as (-> & -> & _). done. }
  destruct (ReportFacts.as_current_filter
              (λ d, principle_of d = Some k ∧ files_as_metadata d = true) ds) as [M1 M2].
  { intros d. destruct (ReportFacts.as_current_principle d) as (-> & -> & _). done. }
  by rewrite D1, D2, M1, M2.
Qed.

(** X19: [read_fip_local_only] returns the header of the file and prints
    each scalar field of it as its text when the file gives it and as
    "None" when it does not: the default "N/A" of the source is never
    printed for them, nor the default "Unknown" for the label, and only
    the creators fall back to "N/A", when the file gives none.  What is
    printed does not depend on how Python would print a list. *)
Theorem read_fip_local_only_prints_None
        (repr_list : list string → string) (join_chars : string → string)
        (filepath : string) (g : ConjunctiveGraph) :
  (read_fip_local_only repr_list join_chars filepath g).2 = parse_fip_header g ∧
  (∀ k label, (k, label) ∈ local_labels →
     label +:+ shown (parse_fip_header g !! k)
       ∈ (read_fip_local_only repr_list join_chars filepath g).1) ∧
  "FAIR IMPLEMENTATION PROFILE: " +:+ shown (parse_fip_header g !! "label")
    ∈ (read_fip_local_only repr_list join_chars filepath g).1 ∧
  (∀ organized,
     "FAIR IMPLEMENTATION PROFILE: " +:+ shown (parse_fip_header g !! "label")
       ∈ print_fip_report repr_list join_chars (parse_fip_header g) organized) ∧
  ((∀ t, t ∈ triples g → field_test "creators" t = false) →
   creators_label +:+ "N/A" ∈ (read_fip_local_only repr_list join_chars filepath g).1).
Proof.
  assert (Hf : ∀ k default, k ∈ singular_fields →
               format_get repr_list (parse_fip_header g) k default =
               shown (parse_fip_header g !! k)).
  { intros k default Hk. unfold format_get, shown, parse_fip_header.
    destruct (HeaderFacts.foldl_header_type (triples g) fip_info_init k Hk) as [-> | [x ->]];
      [left; by apply UnionFacts.init_singular | done | done]. }
  split_and!.
  - reflexivity.
  - intros k label Hin. unfold read_fip_local_only. cbn [fst].
    unfold local_labels in Hin. rewrite !elem_of_cons, elem_of_nil in Hin.
    rewrite !elem_of_cons.
    repeat (destruct Hin as [[= -> ->] | Hin];
            [rewrite <-(Hf _ "N/A") by (unfold singular_fields; rewrite !elem_of_cons; tauto);
             tauto |]).
    done.
  - unfold read_fip_local_only. cbn [fst]. rewrite !elem_of_cons.
    rewrite <-(Hf "label" "Unknown") by (unfold singular_fields; rewrite !elem_of_cons; tauto).
    tauto.
  - intros organized. unfold print_fip_report. rewrite !elem_of_app, !elem_of_cons.
    rewrite <-(Hf "label" "Unknown") by (unfold singular_fields; rewrite !elem_of_cons; tauto).
    tauto.
  - intros Hn. unfold read_fip_local_only. cbn [fst].
    assert (E : parse_fip_header g !! "creators" = Some (PList [])).
    { unfold parse_fip_header.
      rewrite (HeaderFacts.foldl_header_creators _ fip_info_init [] eq_refl).
      by rewrite (HeaderFacts.filter_unmatched _ _ Hn). }
    rewrite E. rewrite !elem_of_cons. cbn [join_val String.concat truthy]. tauto.
Qed.

(** ** Labels of entries *)

Module EntryLabelFacts.

(** A parsed declaration without a resource URI has no label. *)
Lemma parse_declaration_label_needs_uri (g : ConjunctiveGraph) :
  resource_uri (parse_declaration g) = None → resource_label (parse_declaration g) = None.
Proof.
  unfold parse_declaration.
  destruct (ResourceFacts.resolve_label_resource
              (foldl declaration_step (declaration_init, ∅) (triples g))) as (-> & _ & _).
  pose proof (ResourceFacts.foldl_label_unwritten (triples g) (declaration_init, ∅)) as Hl.
  destruct (foldl declaration_step (declaration_init, ∅) (triples g)) as [d labels].
  unfold resolve_label. simpl in *. by intros ->.
Qed.

(** The label of a resource that no triple labels and whose URI gives no
    name: no ['#'] in it, and no ['/'] or nothing after the last one. *)
Lemma parse_declaration_unnamed (g : ConjunctiveGraph) (uri : string) :
  resource_uri (parse_declaration g) = Some uri →
  (∀ t, t ∈ triples g → labels_subject uri t = false) →
  contains "#" uri = false →
  contains "/" uri = false ∨ after_last "/" uri = "" →
  resource_label (parse_declaration g) = None.
Proof.
  intros Huri Hnone Hh Hs. unfold parse_declaration in *.
  destruct (ResourceFacts.resolve_label_resource
              (foldl declaration_step (declaration_init, ∅) (triples g))) as (R & _ & _).
  rewrite R in Huri.
  pose proof (ResourceFacts.foldl_labels_unmatched (triples g) (declaration_init, ∅) uri
                Hnone) as Hlab.
  pose proof (ResourceFacts.foldl_label_unwritten (triples g) (declaration_init, ∅))
    as Hlabel.
  destruct (foldl declaration_step (declaration_init, ∅) (triples g)) as [d labels].
  unfold resolve_label. simpl in *. rewrite Huri, Hlab, lookup_empty, Hh.
  rewrite (PyStrFacts.last_split "/" "" uri eq_refl).
  destruct (truthy uri); [|exact Hlabel].
  destruct Hs as [-> | ->]; [exact Hlabel|].
  by destruct (contains "/" uri).
Qed.

(** The label of a resource that no triple labels and whose URI ends in
    ['#']: the empty text. *)
Lemma parse_declaration_empty_fragment (g : ConjunctiveGraph) (uri : string) :
  resource_uri (parse_declaration g) = Some uri →
  (∀ t, t ∈ triples g → labels_subject uri t = false) →
  contains "#" uri = true → after_last "#" uri = "" →
  resource_label (parse_declaration g) = Some "".
Proof.
  intros Huri Hnone Hh Hs. unfold parse_declaration in *.
  destruct (ResourceFacts.resolve_label_resource
              (foldl declaration_step (declaration_init, ∅) (triples g))) as (R & _ & _).
  rewrite R in Huri.
  pose proof (ResourceFacts.foldl_labels_unmatched (triples g) (declaration_init, ∅) uri
                Hnone) as Hlab.
  destruct (foldl declaration_step (declaration_init, ∅) (triples g)) as [d labels].
  unfold resolve_label. simpl in *. rewrite Huri, Hlab, lookup_empty, Hh.
  rewrite (PyStrFacts.last_split "#" "" uri eq_refl), Hs.
  destruct (truthy uri) eqn:Ht; [done|]. by destruct uri.
Qed.

End EntryLabelFacts.

(** X21: the entry of a parsed declaration carries the resource URI and
    type, and is labelled by the resource label when there is a non-empty
    one and by the resource URI otherwise: whenever the declaration has a
    URI and no label, or an empty one, the label of the entry is the URI.
    So a resource that no triple labels and whose URI gives no name (no
    ['#'] and no ['/'] in it, or nothing after the last ['/'], or nothing
    after the last ['#']) is listed under its URI, and so is a resource
    whose label in the graph is empty.  The entry is without a label only
    when the declaration has no resource at all. *)
Theorem parsed_declaration_entry (g : ConjunctiveGraph) :
  (ri_label (resource_info (parse_declaration g)) = None ↔
   resource_uri (parse_declaration g) = None) ∧
  (∀ l, resource_label (parse_declaration g) = Some l → truthy l = true →
        ri_label (resource_info (parse_declaration g)) = Some l) ∧
  (∀ l, resource_label (parse_declaration g) = Some l → truthy l = false →
        ri_label (resource_info (parse_declaration g)) = resource_uri (parse_declaration g)) ∧
  ri_uri (resource_info (parse_declaration g)) = resource_uri (parse_declaration g) ∧
  ri_type (resource_info (parse_declaration g)) = Some (resource_type (parse_declaration g)) ∧
  (∀ uri, resource_uri (parse_declaration g) = Some uri →
          resource_label (parse_declaration g) = None ∨
          resource_label (parse_declaration g) = Some "" →
          ri_label (resource_info (parse_declaration g)) = Some uri) ∧
  (∀ uri, resource_uri (parse_declaration g) = Some uri →
          (∀ t, t ∈ triples g → labels_subject uri t = false) →
          (contains "#" uri = false ∧
           (contains "/" uri = false ∨ after_last "/" uri = "")) ∨
          (contains "#" uri = true ∧ after_last "#" uri = "") →
          ri_label (resource_info (parse_declaration g)) = Some uri) ∧
  (∀ uri (pre : list Triple) s p o (post : list Triple),
          resource_uri (parse_declaration g) = Some uri → truthy uri = true →
          triples g = pre ++ (s, p, o) :: post →
          labels_subject uri (s, p, o) = true →
          (∀ t, t ∈ post → labels_subject uri t = false) →
          ri_label (resource_info (parse_declaration g)) =
            Some (if truthy (str o) then str o else uri)).
Proof.
  pose proof (EntryLabelFacts.parse_declaration_label_needs_uri g) as Hn.
  assert (Hu : ∀ uri, resource_uri (parse_declaration g) = Some uri →
               resource_label (parse_declaration g) = None ∨
               resource_label (parse_declaration g) = Some "" →
               ri_label (resource_info (parse_declaration g)) = Some uri).
  { intros uri Hu Hl. unfold resource_info, or_else. cbn [ri_label].
    by destruct Hl as [-> | ->]. }
  split_and!.
  - unfold resource_info, or_else. cbn [ri_label].
    destruct (resource_label (parse_declaration g)) as [l|] eqn:El; [|done].
    destruct (resource_uri (parse_declaration g)) as [u|] eqn:Eu;
      [|by specialize (Hn eq_refl)].
    by destruct (truthy l).
  - intros l Hl Ht. unfold resource_info, or_else. cbn [ri_label]. by rewrite Hl, Ht.
  - intros l Hl Ht. unfold resource_info, or_else. cbn [ri_label]. by rewrite Hl, Ht.
  - done.
  - done.
  - exact Hu.
  - intros uri Huri Hnone [[Hh Hs] | [Hh Hs]]; apply Hu; try done.
    + left. by apply (EntryLabelFacts.parse_declaration_unnamed g uri).
    + right. by apply (EntryLabelFacts.parse_declaration_empty_fragment g uri).
  - intros uri pre s p o post Huri Ht Hg Hl Hpost.
    assert (E : resource_label (parse_declaration g) = Some (str o)).
    { unfold parse_declaration in *.
      destruct (ResourceFacts.resolve_label_resource
                  (foldl declaration_step (declaration_init, ∅) (triples g))) as (R & _ & _).
      rewrite R in Huri.
      pose proof (ResourceFacts.foldl_labels_last pre post (declaration_init, ∅) s p o uri
                    Hl Hpost) as Hlab.
      rewrite <-Hg in Hlab.
      destruct (foldl declaration_step (declaration_init, ∅) (triples g)) as [d labels].
      unfold resolve_label. simpl in *. by rewrite Huri, Ht, Hlab. }
    unfold resource_info, or_else. cbn [ri_label]. rewrite E, Huri.
    by destruct (truthy (str o)).
Qed.
